(** * SceneManager: texture registry, material registry, transform composer

    A shallow embedding of [Source/SceneManager.cpp].  The C++ member
    functions become functions over an explicit [SceneManager] record and an
    explicit OpenGL state; [None] in a result stands for undefined behaviour
    of the C++ program (an array access outside the array, a signed
    overflow). *)

From Stdlib Require Import ZArith Bool String List Lia SpecFloat.
From stdpp Require Import base option list strings gmap.
From Equations Require Import Equations.
From Equations.Prop Require Import Logic.

Local Open Scope Z_scope.

(** ** Machine integers *)

Definition INT_MAX : Z := 2147483647.
Definition UINT_MODULUS : Z := 2 ^ 32.
Definition SIZE_MODULUS : Z := 2 ^ 64.

(** [i++] on an [int]: signed overflow is undefined. *)
Definition int_incr (i : Z) : option Z :=
  if i <? INT_MAX then Some (i + 1) else None.

(** The usual arithmetic conversion of an [int] compared with a [size_t]. *)
Definition size_t_of_int (i : Z) : Z := i mod SIZE_MODULUS.

(** Conversion of a [GLuint] to [int] (same 32 bits, two's complement). *)
Definition int_of_GLuint (u : Z) : Z :=
  (u + 2 ^ 31) mod UINT_MODULUS - 2 ^ 31.

(** ** std::string *)

Module std_string.
(** [a.compare(b)]: negative, zero or positive, by lexicographic order. *)
Definition compare (a b : string) : Z :=
  match String.compare a b with
  | Eq => 0
  | Lt => -1
  | Gt => 1
  end.
End std_string.

(** ** IEEE binary32, the C++ [float] *)

Module Float.
Definition prec : Z := 24.
Definition emax : Z := 128.
Definition float : Type := spec_float.

Definition zero : float := S754_zero false.
Definition one : float := SFone prec emax.
Definition add : float -> float -> float := SFadd prec emax.
Definition sub : float -> float -> float := SFsub prec emax.
Definition mul : float -> float -> float := SFmul prec emax.
Definition div : float -> float -> float := SFdiv prec emax.
Definition sqrt : float -> float := SFsqrt prec emax.

(** The [float] nearest to an integer. *)
Definition of_Z (n : Z) : float := binary_normalize prec emax n 0 false.

(** The [float] nearest to the decimal literal [num / den], for [num] and
    [den] below [2 ^ 24]: both convert exactly and the division rounds
    once. *)
Definition lit (num den : Z) : float := div (of_Z num) (of_Z den).
End Float.
Abbreviation float := Float.float.

Declare Scope float_scope.
Delimit Scope float_scope with flt.
Infix "+" := Float.add : float_scope.
Infix "-" := Float.sub : float_scope.
Infix "*" := Float.mul : float_scope.
Infix "/" := Float.div : float_scope.

(** ** glm vectors and matrices

    glm is an external library; the records follow its column-major
    layout ([m[c]] is column [c], [m[c][r]] its row [r]). *)

Record vec3 : Type := Vec3 { x3 : float; y3 : float; z3 : float }.
Record vec4 : Type := Vec4 { x4 : float; y4 : float; z4 : float; w4 : float }.
Record mat4 : Type := Mat4 { col0 : vec4; col1 : vec4; col2 : vec4; col3 : vec4 }.

(** ** The records of SceneManager.h

    The header is not among the sources; the fields are the ones the
    member functions of SceneManager.cpp read and write. *)

Module Texture.
Record TEXTURE_INFO : Type := { ID : Z; tag : string }.
End Texture.
Abbreviation TEXTURE_INFO := Texture.TEXTURE_INFO.

Record OBJECT_MATERIAL : Type := {
  ambientColor : vec3;
  ambientStrength : float;
  diffuseColor : vec3;
  specularColor : vec3;
  shininess : float;
  tag : string
}.

(** Modelled from the spec: the shader manager is an external collaborator
    that receives uniform values by name; [setMat4Value] stores the matrix
    under the uniform's name. *)
Record ShaderManager : Type := { mat4Values : gmap string mat4 }.

Definition setMat4Value (name : string) (value : mat4) (sh : ShaderManager)
    : ShaderManager :=
  {| mat4Values := <[name := value]> (mat4Values sh) |}.

(** Modelled from the spec: the texture table has a compile-time slot count;
    the comments of BindGLTextures and LoadSceneTextures give it as 16. *)
Definition MAX_TEXTURES : nat := 16.

Record SceneManager : Type := {
  m_pShaderManager : option ShaderManager;   (* [None] is the NULL pointer *)
  m_textureIDs : list TEXTURE_INFO;
  m_loadedTextures : Z;
  m_objectMaterials : list OBJECT_MATERIAL
}.

(** The array member has exactly [MAX_TEXTURES] elements. *)
Definition array_shape (this : SceneManager) : Prop :=
  length (m_textureIDs this) = MAX_TEXTURES.

Definition g_ModelName : string := "model"%string.

(** ** Containers *)

(** [v.size()] *)
Definition vector_size {A : Type} (v : list A) : Z := Z.of_nat (length v).

(** [v[i]] on a std::vector or a built-in array: unchecked, undefined
    outside the container. *)
Definition subscript {A : Type} (v : list A) (i : Z) : option A :=
  if i <? 0 then None else v !! Z.to_nat i.

(** [v[i].field = ...]: an assignment through [v[i]]. *)
Definition subscript_assign {A : Type} (v : list A) (i : Z) (f : A -> A)
    : option (list A) :=
  e ← subscript v i; Some (<[Z.to_nat i := f e]> v).

(** [v.push_back(a)] *)
Definition push_back {A : Type} (v : list A) (a : A) : list A := v ++ [a].

(** [for (int i = 0; i < n; i++) body], with [n] not assigned by the body:
    [count] iterations, the counter starting at [i]. *)
Fixpoint for_loop {S : Type} (count : nat) (i : Z) (body : Z -> S -> option S)
    (s : S) : option S :=
  match count with
  | O => Some s
  | Datatypes.S count' => s' ← body i s; for_loop count' (i + 1) body s'
  end.

Definition for_upto {S : Type} (n : Z) (body : Z -> S -> option S) (s : S)
    : option S :=
  for_loop (Z.to_nat n) 0 body s.

(** Iterations the scan loops have left: none once [bFound] is set. *)
Definition scan_measure (bound index : Z) (bFound : bool) : nat :=
  if bFound then 0%nat else S (Z.to_nat (bound - index)).

(** ** Material registry *)

(** The three assignments to [material] in the loop of [FindMaterial]. *)
Definition copy_reflectance (entry material : OBJECT_MATERIAL) : OBJECT_MATERIAL :=
  {| ambientColor := ambientColor material;
     ambientStrength := ambientStrength material;
     diffuseColor := diffuseColor entry;
     specularColor := specularColor entry;
     shininess := shininess entry;
     tag := tag material |}.

Equations? FindMaterial_while (mats : list OBJECT_MATERIAL)
    (tag_ : string) (index : Z) (bFound : bool) (material : OBJECT_MATERIAL)
    : option (Z * bool * OBJECT_MATERIAL)
    by wf (scan_measure (vector_size mats) index bFound) lt :=
  FindMaterial_while mats tag_ index bFound material
    with inspect ((size_t_of_int index <? vector_size mats) && Bool.eqb bFound false) := {
    | exist _ false _ => Some (index, bFound, material)
    | exist _ true Hcond with subscript mats index := {
      | None => None
      | Some entry with std_string.compare (tag entry) tag_ =? 0 := {
        | true =>
            FindMaterial_while mats tag_ index true (copy_reflectance entry material)
        | false with inspect (int_incr index) := {
          | exist _ None _ => None
          | exist _ (Some index') Hincr =>
              FindMaterial_while mats tag_ index' bFound material } } } }.
Proof.
  - apply andb_true_iff in Hcond as [_ Hb].
    destruct bFound; [discriminate|]. unfold scan_measure. lia.
  - apply andb_true_iff in Hcond as [Hlt Hb].
    destruct bFound; [discriminate|].
    unfold int_incr in Hincr. destruct (index <? INT_MAX) eqn:Hi; [|discriminate].
    injection Hincr as <-. unfold scan_measure.
    apply Z.ltb_lt in Hlt. unfold size_t_of_int in Hlt.
    assert (index < vector_size mats).
    { destruct (Z_lt_dec index 0) as [Hneg|Hpos]; [unfold vector_size; lia|].
      rewrite Z.mod_small in Hlt; [lia|].
      apply Z.ltb_lt in Hi. unfold INT_MAX, SIZE_MODULUS in *. lia. }
    lia.
Qed.

(** [bool FindMaterial(std::string tag, OBJECT_MATERIAL& material)]: the
    result and the final value of the out-parameter. *)
Definition FindMaterial (this : SceneManager) (tag_ : string)
    (material : OBJECT_MATERIAL) : option (bool * OBJECT_MATERIAL) :=
  if vector_size (m_objectMaterials this) =? 0 then Some (false, material)
  else
    '(_, _, material) ← FindMaterial_while (m_objectMaterials this) tag_ 0 false material;
    Some (true, material).

(** ** Texture lookups *)

Equations? FindTextureID_while (this : SceneManager) (tag_ : string)
    (textureID index : Z) (bFound : bool) : option (Z * Z * bool)
    by wf (scan_measure (m_loadedTextures this) index bFound) lt :=
  FindTextureID_while this tag_ textureID index bFound
    with inspect ((index <? m_loadedTextures this) && Bool.eqb bFound false) := {
    | exist _ false _ => Some (textureID, index, bFound)
    | exist _ true Hcond with subscript (m_textureIDs this) index := {
      | None => None
      | Some entry with std_string.compare (Texture.tag entry) tag_ =? 0 := {
        | true =>
            FindTextureID_while this tag_ (int_of_GLuint (Texture.ID entry)) index true
        | false with inspect (int_incr index) := {
          | exist _ None _ => None
          | exist _ (Some index') Hincr =>
              FindTextureID_while this tag_ textureID index' bFound } } } }.
Proof.
  - apply andb_true_iff in Hcond as [_ Hb].
    destruct bFound; [discriminate|]. unfold scan_measure. lia.
  - apply andb_true_iff in Hcond as [Hlt Hb].
    destruct bFound; [discriminate|].
    unfold int_incr in Hincr. destruct (index <? INT_MAX); [|discriminate].
    injection Hincr as <-. unfold scan_measure. apply Z.ltb_lt in Hlt. lia.
Qed.

Definition FindTextureID (this : SceneManager) (tag_ : string) : option Z :=
  '(textureID, _, _) ← FindTextureID_while this tag_ (-1) 0 false;
  Some textureID.

Equations? FindTextureSlot_while (this : SceneManager) (tag_ : string)
    (textureSlot index : Z) (bFound : bool) : option (Z * Z * bool)
    by wf (scan_measure (m_loadedTextures this) index bFound) lt :=
  FindTextureSlot_while this tag_ textureSlot index bFound
    with inspect ((index <? m_loadedTextures this) && Bool.eqb bFound false) := {
    | exist _ false _ => Some (textureSlot, index, bFound)
    | exist _ true Hcond with subscript (m_textureIDs this) index := {
      | None => None
      | Some entry with std_string.compare (Texture.tag entry) tag_ =? 0 := {
        | true => FindTextureSlot_while this tag_ index index true
        | false with inspect (int_incr index) := {
          | exist _ None _ => None
          | exist _ (Some index') Hincr =>
              FindTextureSlot_while this tag_ textureSlot index' bFound } } } }.
Proof.
  - apply andb_true_iff in Hcond as [_ Hb].
    destruct bFound; [discriminate|]. unfold scan_measure. lia.
  - apply andb_true_iff in Hcond as [Hlt Hb].
    destruct bFound; [discriminate|].
    unfold int_incr in Hincr. destruct (index <? INT_MAX); [|discriminate].
    injection Hincr as <-. unfold scan_measure. apply Z.ltb_lt in Hlt. lia.
Qed.

Definition FindTextureSlot (this : SceneManager) (tag_ : string) : option Z :=
  '(textureSlot, _, _) ← FindTextureSlot_while this tag_ (-1) 0 false;
  Some textureSlot.

(** ** OpenGL texture state

    OpenGL is an external collaborator.  The state keeps what the texture
    calls of SceneManager.cpp read and write: the texture names in use, the
    active texture unit, the name bound to GL_TEXTURE_2D on each unit, and
    the texture object behind each name. *)

Inductive GLenum : Type :=
| GL_TEXTURE_2D
| GL_TEXTURE_WRAP_S | GL_TEXTURE_WRAP_T
| GL_TEXTURE_MIN_FILTER | GL_TEXTURE_MAG_FILTER
| GL_REPEAT | GL_LINEAR | GL_NEAREST_MIPMAP_LINEAR
| GL_RGB | GL_RGBA | GL_RGB8 | GL_RGBA8
| GL_UNSIGNED_BYTE.

(** [GL_TEXTURE0] is 0x84C0; unit [i] is selected by [GL_TEXTURE0 + i]. *)
Definition GL_TEXTURE0 : Z := 33984.

(** What [stbi_load] returns for a readable image. *)
Record Image : Type := {
  width : Z;
  height : Z;
  colorChannels : Z;
  pixels : list Z
}.

Record TexImage : Type := {
  internalformat : GLenum;
  tex_width : Z;
  tex_height : Z;
  format : GLenum;
  type_ : GLenum;
  texels : list Z
}.

Record TexObject : Type := {
  wrap_s : GLenum;
  wrap_t : GLenum;
  min_filter : GLenum;
  mag_filter : GLenum;
  level0 : option TexImage;
  mipmaps : bool
}.

(** A texture object as its first binding creates it. *)
Definition new_texture : TexObject :=
  {| wrap_s := GL_REPEAT; wrap_t := GL_REPEAT;
     min_filter := GL_NEAREST_MIPMAP_LINEAR; mag_filter := GL_LINEAR;
     level0 := None; mipmaps := false |}.

Record GLState : Type := {
  gl_names : list Z;
  gl_active_texture : Z;
  gl_binding_2d : gmap Z Z;
  gl_textures : gmap Z TexObject
}.

(** The name bound to GL_TEXTURE_2D on a unit; 0 when nothing was bound. *)
Definition bound_texture (gl : GLState) (unit : Z) : Z :=
  default 0 (gl_binding_2d gl !! unit).

(** The texture object behind a name. *)
Definition texture_object (gl : GLState) (name : Z) : TexObject :=
  default new_texture (gl_textures gl !! name).

(** The name the texture calls with target GL_TEXTURE_2D act on. *)
Definition current_texture (gl : GLState) : Z :=
  bound_texture gl (gl_active_texture gl).

Definition with_current_texture (f : TexObject -> TexObject) (gl : GLState)
    : GLState :=
  let name := current_texture gl in
  {| gl_names := gl_names gl;
     gl_active_texture := gl_active_texture gl;
     gl_binding_2d := gl_binding_2d gl;
     gl_textures := <[name := f (texture_object gl name)]> (gl_textures gl) |}.

Definition set_parameter (pname param : GLenum) (t : TexObject) : TexObject :=
  match pname with
  | GL_TEXTURE_WRAP_S =>
      {| wrap_s := param; wrap_t := wrap_t t; min_filter := min_filter t;
         mag_filter := mag_filter t; level0 := level0 t; mipmaps := mipmaps t |}
  | GL_TEXTURE_WRAP_T =>
      {| wrap_s := wrap_s t; wrap_t := param; min_filter := min_filter t;
         mag_filter := mag_filter t; level0 := level0 t; mipmaps := mipmaps t |}
  | GL_TEXTURE_MIN_FILTER =>
      {| wrap_s := wrap_s t; wrap_t := wrap_t t; min_filter := param;
         mag_filter := mag_filter t; level0 := level0 t; mipmaps := mipmaps t |}
  | GL_TEXTURE_MAG_FILTER =>
      {| wrap_s := wrap_s t; wrap_t := wrap_t t; min_filter := min_filter t;
         mag_filter := param; level0 := level0 t; mipmaps := mipmaps t |}
  | _ => t
  end.

Definition set_level0 (img : TexImage) (t : TexObject) : TexObject :=
  {| wrap_s := wrap_s t; wrap_t := wrap_t t; min_filter := min_filter t;
     mag_filter := mag_filter t; level0 := Some img; mipmaps := mipmaps t |}.

Definition set_mipmaps (t : TexObject) : TexObject :=
  {| wrap_s := wrap_s t; wrap_t := wrap_t t; min_filter := min_filter t;
     mag_filter := mag_filter t; level0 := level0 t; mipmaps := true |}.

Section OpenGL.
(** The driver's choice of an unused texture name, and its number of
    texture units. *)
Variable glGenName : list Z -> Z.
Variable GL_MAX_COMBINED_TEXTURE_IMAGE_UNITS : Z.

(** [glGenTextures(1, &name)]: the new name and the new state. *)
Definition glGenTextures (gl : GLState) : Z * GLState :=
  let name := glGenName (gl_names gl) in
  (name,
   {| gl_names := name :: gl_names gl;
      gl_active_texture := gl_active_texture gl;
      gl_binding_2d := gl_binding_2d gl;
      gl_textures := gl_textures gl |}).

(** [glDeleteTextures(1, &name)]: the name is unused again, its object is
    gone, and every unit bound to it reverts to 0. *)
Definition glDeleteTextures (name : Z) (gl : GLState) : GLState :=
  {| gl_names := filter (λ n, n ≠ name) (gl_names gl);
     gl_active_texture := gl_active_texture gl;
     gl_binding_2d := filter (λ kv, kv.2 ≠ name) (gl_binding_2d gl);
     gl_textures := delete name (gl_textures gl) |}.

(** [glActiveTexture(texture)]: GL_INVALID_ENUM, and no change, outside
    the units of the implementation. *)
Definition glActiveTexture (texture : Z) (gl : GLState) : GLState :=
  if (GL_TEXTURE0 <=? texture)
     && (texture <? GL_TEXTURE0 + GL_MAX_COMBINED_TEXTURE_IMAGE_UNITS)
  then
    {| gl_names := gl_names gl;
       gl_active_texture := texture - GL_TEXTURE0;
       gl_binding_2d := gl_binding_2d gl;
       gl_textures := gl_textures gl |}
  else gl.

(** [glBindTexture(GL_TEXTURE_2D, name)] on the active unit. *)
Definition glBindTexture (target : GLenum) (name : Z) (gl : GLState) : GLState :=
  match target with
  | GL_TEXTURE_2D =>
      {| gl_names := gl_names gl;
         gl_active_texture := gl_active_texture gl;
         gl_binding_2d := <[gl_active_texture gl := name]> (gl_binding_2d gl);
         gl_textures := gl_textures gl |}
  | _ => gl
  end.

Definition glTexParameteri (target pname param : GLenum) (gl : GLState)
    : GLState :=
  match target with
  | GL_TEXTURE_2D => with_current_texture (set_parameter pname param) gl
  | _ => gl
  end.

Definition glTexImage2D (target : GLenum) (level : Z) (internalformat_ : GLenum)
    (width_ height_ border : Z) (format_ type__ : GLenum) (data : list Z)
    (gl : GLState) : GLState :=
  match target with
  | GL_TEXTURE_2D =>
      if level =? 0 then
        with_current_texture
          (set_level0 {| internalformat := internalformat_;
                         tex_width := width_; tex_height := height_;
                         format := format_; type_ := type__;
                         texels := data |}) gl
      else gl
  | _ => gl
  end.

Definition glGenerateMipmap (target : GLenum) (gl : GLState) : GLState :=
  match target with
  | GL_TEXTURE_2D => with_current_texture set_mipmaps gl
  | _ => gl
  end.
End OpenGL.

(** ** glm transforms

    The functions of glm that SetTransformations calls, on [float], as
    glm's matrix_transform.inl, gtx/transform.inl and type_mat4x4.inl
    write them. *)

Module glm.
Local Open Scope float_scope.

Definition vec3_scale (s : float) (v : vec3) : vec3 :=
  Vec3 (s * x3 v) (s * y3 v) (s * z3 v).

Definition vec3_times (v : vec3) (s : float) : vec3 :=
  Vec3 (x3 v * s) (y3 v * s) (z3 v * s).

Definition vec4_times (v : vec4) (s : float) : vec4 :=
  Vec4 (x4 v * s) (y4 v * s) (z4 v * s) (w4 v * s).

Definition vec4_plus (a b : vec4) : vec4 :=
  Vec4 (x4 a + x4 b) (y4 a + y4 b) (z4 a + z4 b) (w4 a + w4 b).

(** [mat4(1.0f)] *)
Definition mat4_diag (d : float) : mat4 :=
  Mat4 (Vec4 d Float.zero Float.zero Float.zero)
       (Vec4 Float.zero d Float.zero Float.zero)
       (Vec4 Float.zero Float.zero d Float.zero)
       (Vec4 Float.zero Float.zero Float.zero d).

(** [m1 * m2] *)
Definition mat4_mul (m1 m2 : mat4) : mat4 :=
  let column (b : vec4) :=
    vec4_plus
      (vec4_plus
         (vec4_plus (vec4_times (col0 m1) (x4 b)) (vec4_times (col1 m1) (y4 b)))
         (vec4_times (col2 m1) (z4 b)))
      (vec4_times (col3 m1) (w4 b)) in
  Mat4 (column (col0 m2)) (column (col1 m2)) (column (col2 m2)) (column (col3 m2)).

Definition dot (a b : vec3) : float :=
  x3 a * x3 b + y3 a * y3 b + z3 a * z3 b.

Definition inversesqrt (x : float) : float := Float.one / Float.sqrt x.

Definition normalize (v : vec3) : vec3 := vec3_times v (inversesqrt (dot v v)).

(** [static_cast<float>(0.01745329251994329576923690768489)], the bits
    0x3C8EFA35. *)
Definition radians_per_degree : float := S754_finite false 9370165 (-29).

(** [glm::radians(degrees)] *)
Definition radians (degrees : float) : float := degrees * radians_per_degree.

(** [glm::scale(v)] *)
Definition scale (v : vec3) : mat4 :=
  let m := mat4_diag Float.one in
  Mat4 (vec4_times (col0 m) (x3 v))
       (vec4_times (col1 m) (y3 v))
       (vec4_times (col2 m) (z3 v))
       (col3 m).

(** [glm::translate(v)] *)
Definition translate (v : vec3) : mat4 :=
  let m := mat4_diag Float.one in
  Mat4 (col0 m) (col1 m) (col2 m)
       (vec4_plus
          (vec4_plus
             (vec4_plus (vec4_times (col0 m) (x3 v)) (vec4_times (col1 m) (y3 v)))
             (vec4_times (col2 m) (z3 v)))
          (col3 m)).

Section Rotate.
(** [cos] and [sin] of the C library, on [float]. *)
Variables cosf sinf : float -> float.

(** [glm::rotate(angle, v)] *)
Definition rotate (angle : float) (v : vec3) : mat4 :=
  let m := mat4_diag Float.one in
  let c := cosf angle in
  let s := sinf angle in
  let axis := normalize v in
  let temp := vec3_scale (Float.one - c) axis in
  let r00 := c + x3 temp * x3 axis in
  let r01 := x3 temp * y3 axis + s * z3 axis in
  let r02 := x3 temp * z3 axis - s * y3 axis in
  let r10 := y3 temp * x3 axis - s * z3 axis in
  let r11 := c + y3 temp * y3 axis in
  let r12 := y3 temp * z3 axis + s * x3 axis in
  let r20 := z3 temp * x3 axis + s * y3 axis in
  let r21 := z3 temp * y3 axis - s * x3 axis in
  let r22 := c + z3 temp * z3 axis in
  let combine (a b c : float) :=
    vec4_plus
      (vec4_plus (vec4_times (col0 m) a) (vec4_times (col1 m) b))
      (vec4_times (col2 m) c) in
  Mat4 (combine r00 r01 r02) (combine r10 r11 r12) (combine r20 r21 r22)
       (col3 m).
End Rotate.
End glm.

Infix "*m" := glm.mat4_mul (at level 40, left associativity).

(** ** The member functions that change state *)

Section Scene.
(** The collaborators outside SceneManager.cpp: the image decoder applied
    to a file name ([None] is a NULL result), the GL driver's choice of
    names and its number of texture units, and the C library's [cos] and
    [sin]. *)
Variable stbi_load : string -> option Image.
Variable glGenName : list Z -> Z.
Variable GL_MAX_COMBINED_TEXTURE_IMAGE_UNITS : Z.
Variables cosf sinf : float -> float.

Definition set_ID (textureID : Z) (e : TEXTURE_INFO) : TEXTURE_INFO :=
  {| Texture.ID := textureID; Texture.tag := Texture.tag e |}.

Definition set_tag (tag_ : string) (e : TEXTURE_INFO) : TEXTURE_INFO :=
  {| Texture.ID := Texture.ID e; Texture.tag := tag_ |}.

Definition with_textures (this : SceneManager) (ids : list TEXTURE_INFO)
    (loaded : Z) : SceneManager :=
  {| m_pShaderManager := m_pShaderManager this;
     m_textureIDs := ids;
     m_loadedTextures := loaded;
     m_objectMaterials := m_objectMaterials this |}.

(** [bool CreateGLTexture(const char* filename, std::string tag)] *)
Definition CreateGLTexture (filename tag_ : string) (this : SceneManager)
    (gl : GLState) : option (bool * SceneManager * GLState) :=
  match stbi_load filename with
  | Some image =>
      let '(textureID, gl) := glGenTextures glGenName gl in
      let gl := glBindTexture GL_TEXTURE_2D textureID gl in
      let gl := glTexParameteri GL_TEXTURE_2D GL_TEXTURE_WRAP_S GL_REPEAT gl in
      let gl := glTexParameteri GL_TEXTURE_2D GL_TEXTURE_WRAP_T GL_REPEAT gl in
      let gl := glTexParameteri GL_TEXTURE_2D GL_TEXTURE_MIN_FILTER GL_LINEAR gl in
      let gl := glTexParameteri GL_TEXTURE_2D GL_TEXTURE_MAG_FILTER GL_LINEAR gl in
      let uploaded :=
        if colorChannels image =? 3 then
          Some (glTexImage2D GL_TEXTURE_2D 0 GL_RGB8 (width image) (height image)
                  0 GL_RGB GL_UNSIGNED_BYTE (pixels image) gl)
        else if colorChannels image =? 4 then
          Some (glTexImage2D GL_TEXTURE_2D 0 GL_RGBA8 (width image) (height image)
                  0 GL_RGBA GL_UNSIGNED_BYTE (pixels image) gl)
        else None in
      match uploaded with
      | None => Some (false, this, gl)
      | Some gl =>
          let gl := glGenerateMipmap GL_TEXTURE_2D gl in
          let gl := glBindTexture GL_TEXTURE_2D 0 gl in
          ids ← subscript_assign (m_textureIDs this) (m_loadedTextures this)
                  (set_ID textureID);
          ids ← subscript_assign ids (m_loadedTextures this) (set_tag tag_);
          loaded ← int_incr (m_loadedTextures this);
          Some (true, with_textures this ids loaded, gl)
      end
  | None => Some (false, this, gl)
  end.

(** The body of the loop of BindGLTextures. *)
Definition bind_unit (this : SceneManager) (i : Z) (gl : GLState)
    : option GLState :=
  let gl := glActiveTexture GL_MAX_COMBINED_TEXTURE_IMAGE_UNITS
              (GL_TEXTURE0 + i) gl in
  e ← subscript (m_textureIDs this) i;
  Some (glBindTexture GL_TEXTURE_2D (Texture.ID e) gl).

(** [void BindGLTextures()] *)
Definition BindGLTextures (this : SceneManager) (gl : GLState) : option GLState :=
  for_upto (m_loadedTextures this) (bind_unit this) gl.

(** The body of the loop of DestroyGLTextures. *)
Definition regenerate (i : Z) (s : list TEXTURE_INFO * GLState)
    : option (list TEXTURE_INFO * GLState) :=
  let '(ids, gl) := s in
  let '(name, gl) := glGenTextures glGenName gl in
  ids ← subscript_assign ids i (set_ID name);
  Some (ids, gl).

(** [void DestroyGLTextures()]: the table and the GL state after it. *)
Definition DestroyGLTextures (this : SceneManager) (gl : GLState)
    : option (SceneManager * GLState) :=
  '(ids, gl) ← for_upto (m_loadedTextures this) regenerate (m_textureIDs this, gl);
  Some (with_textures this ids (m_loadedTextures this), gl).

(** [void LoadSceneTextures()]: the results of CreateGLTexture are
    assigned to [bReturn] and never read. *)
Definition LoadSceneTextures (this : SceneManager) (gl : GLState)
    : option (SceneManager * GLState) :=
  '(_, this, gl) ← CreateGLTexture "textures/wall.jpg" "wall" this gl;
  '(_, this, gl) ← CreateGLTexture "textures/tilesf2.jpg" "lampshade" this gl;
  '(_, this, gl) ← CreateGLTexture "textures/stone.jpg" "stone" this gl;
  '(_, this, gl) ← CreateGLTexture "textures/wood.jpg" "floor" this gl;
  gl ← BindGLTextures this gl;
  Some (this, gl).

(** [void SetTransformations(scaleXYZ, XrotationDegrees, YrotationDegrees,
    ZrotationDegrees, positionXYZ)] *)
Definition SetTransformations (scaleXYZ : vec3)
    (XrotationDegrees YrotationDegrees ZrotationDegrees : float)
    (positionXYZ : vec3) (this : SceneManager) : SceneManager :=
  let scale := glm.scale scaleXYZ in
  let rotationX :=
    glm.rotate cosf sinf (glm.radians XrotationDegrees)
      (Vec3 Float.one Float.zero Float.zero) in
  let rotationY :=
    glm.rotate cosf sinf (glm.radians YrotationDegrees)
      (Vec3 Float.zero Float.one Float.zero) in
  let rotationZ :=
    glm.rotate cosf sinf (glm.radians ZrotationDegrees)
      (Vec3 Float.zero Float.zero Float.one) in
  let translation := glm.translate positionXYZ in
  let modelView := translation *m rotationZ *m rotationY *m rotationX *m scale in
  match m_pShaderManager this with
  | Some sh =>
      {| m_pShaderManager := Some (setMat4Value g_ModelName modelView sh);
         m_textureIDs := m_textureIDs this;
         m_loadedTextures := m_loadedTextures this;
         m_objectMaterials := m_objectMaterials this |}
  | None => this
  end.
End Scene.

(** ** DefineObjectMaterials *)

(** [m_objectMaterials.push_back(material)] as a step on the scene manager. *)
Definition register_material (this : SceneManager) (material : OBJECT_MATERIAL)
    : SceneManager :=
  {| m_pShaderManager := m_pShaderManager this;
     m_textureIDs := m_textureIDs this;
     m_loadedTextures := m_loadedTextures this;
     m_objectMaterials := push_back (m_objectMaterials this) material |}.

(** [glm::vec3(a, b, c)] with literals in hundredths. *)
Definition vec3_lit (a b c : Z) : vec3 :=
  Vec3 (Float.lit a 100) (Float.lit b 100) (Float.lit c 100).

Definition metalMaterial : OBJECT_MATERIAL :=
  {| ambientColor := vec3_lit 25 25 25;
     ambientStrength := Float.lit 5 10;
     diffuseColor := vec3_lit 40 40 40;
     specularColor := vec3_lit 100 100 100;
     shininess := Float.of_Z 128;
     tag := "metal" |}.

Definition floorMaterial : OBJECT_MATERIAL :=
  {| ambientColor := vec3_lit 30 20 10;
     ambientStrength := Float.lit 5 10;
     diffuseColor := vec3_lit 60 40 20;
     specularColor := vec3_lit 50 50 50;
     shininess := Float.of_Z 32;
     tag := "floor" |}.

Definition glassMaterial : OBJECT_MATERIAL :=
  {| ambientColor := vec3_lit 30 30 50;
     ambientStrength := Float.lit 3 10;
     diffuseColor := vec3_lit 50 50 70;
     specularColor := vec3_lit 90 90 100;
     shininess := Float.of_Z 64;
     tag := "glass" |}.

Definition tableMaterial : OBJECT_MATERIAL :=
  {| ambientColor := vec3_lit 20 20 20;
     ambientStrength := Float.lit 5 10;
     diffuseColor := vec3_lit 60 60 60;
     specularColor := vec3_lit 70 70 70;
     shininess := Float.of_Z 32;
     tag := "table" |}.

Definition wallMaterial : OBJECT_MATERIAL :=
  {| ambientColor := vec3_lit 50 79 61;
     ambientStrength := Float.lit 3 10;
     diffuseColor := vec3_lit 50 79 61;
     specularColor := vec3_lit 30 30 30;
     shininess := Float.of_Z 16;
     tag := "wall" |}.

Definition bookCoverMaterial : OBJECT_MATERIAL :=
  {| ambientColor := vec3_lit 30 20 10;
     ambientStrength := Float.lit 5 10;
     diffuseColor := vec3_lit 50 40 30;
     specularColor := vec3_lit 60 50 40;
     shininess := Float.of_Z 32;
     tag := "bookCover" |}.

Definition grayBlackLeather : OBJECT_MATERIAL :=
  {| ambientColor := vec3_lit 10 10 10;
     ambientStrength := Float.lit 6 10;
     diffuseColor := vec3_lit 20 20 20;
     specularColor := vec3_lit 30 30 30;
     shininess := Float.of_Z 16;
     tag := "grayBlackLeather" |}.

Definition airFreshenerMaterial : OBJECT_MATERIAL :=
  {| ambientColor := vec3_lit 40 50 40;
     ambientStrength := Float.lit 6 10;
     diffuseColor := vec3_lit 50 70 50;
     specularColor := vec3_lit 80 80 80;
     shininess := Float.of_Z 32;
     tag := "airFreshener" |}.

(** [void DefineObjectMaterials()] *)
Definition DefineObjectMaterials (this : SceneManager) : SceneManager :=
  let this := register_material this metalMaterial in
  let this := register_material this floorMaterial in
  let this := register_material this glassMaterial in
  let this := register_material this tableMaterial in
  let this := register_material this wallMaterial in
  let this := register_material this bookCoverMaterial in
  let this := register_material this grayBlackLeather in
  register_material this airFreshenerMaterial.

(** ** Predicates and states the statements use *)

(** The first entry with the tag, by stdpp's [list_find]. *)
Definition first_material (mats : list OBJECT_MATERIAL) (tag_ : string)
    : option (nat * OBJECT_MATERIAL) :=
  list_find (λ e, tag e = tag_) mats.

(** A sequence of registrations, in order. *)
Definition register_materials (this : SceneManager)
    (materials : list OBJECT_MATERIAL) : SceneManager :=
  fold_left register_material materials this.

(** The entries in use: the first [m_loadedTextures] slots of the table. *)
Definition registered (this : SceneManager) : list TEXTURE_INFO :=
  take (Z.to_nat (m_loadedTextures this)) (m_textureIDs this).

(** The table has its [MAX_TEXTURES] slots and the counter is within it. *)
Definition registry_ok (this : SceneManager) : Prop :=
  array_shape this /\ 0 <= m_loadedTextures this <= Z.of_nat MAX_TEXTURES.

Definition first_texture (this : SceneManager) (tag_ : string) (from : nat)
    : option (nat * TEXTURE_INFO) :=
  list_find (λ e, Texture.tag e = tag_) (drop from (registered this)).

(** The texture object CreateGLTexture leaves behind the new name. *)
Definition uploaded_texture (internalformat_ format_ : GLenum) (image : Image)
    : TexObject :=
  {| wrap_s := GL_REPEAT; wrap_t := GL_REPEAT;
     min_filter := GL_LINEAR; mag_filter := GL_LINEAR;
     level0 := Some {| internalformat := internalformat_;
                       tex_width := width image; tex_height := height image;
                       format := format_; type_ := GL_UNSIGNED_BYTE;
                       texels := pixels image |};
     mipmaps := true |}.

(** The channel counts CreateGLTexture accepts, with the formats it passes
    to glTexImage2D. *)
Definition accepted_channels (image : Image) (internalformat_ format_ : GLenum)
    : Prop :=
  colorChannels image = 3 /\ internalformat_ = GL_RGB8 /\ format_ = GL_RGB \/
  colorChannels image = 4 /\ internalformat_ = GL_RGBA8 /\ format_ = GL_RGBA.

(** The table after [m_textureIDs[m_loadedTextures] = {textureID, tag}]. *)
Definition appended (this : SceneManager) (textureID : Z) (tag_ : string)
    : SceneManager :=
  with_textures this
    (<[Z.to_nat (m_loadedTextures this) :=
         {| Texture.ID := textureID; Texture.tag := tag_ |}]> (m_textureIDs this))
    (m_loadedTextures this + 1).

(** ** binary32 values and entries up to the sign of zero *)

(** [spec_float] has triples that are no binary32 value; the arguments of
    SetTransformations are [float]s of the machine. *)
Definition binary32 (x : float) : Prop :=
  valid_binary Float.prec Float.emax x = true.

(** Neither an infinity nor a NaN. *)
Definition finite (x : float) : Prop :=
  match x with
  | S754_zero _ | S754_finite _ _ _ => True
  | _ => False
  end.

(** Equal, or both a zero: [+0] and [-0] are the same number. *)
Definition same_value (a b : float) : Prop :=
  match a, b with
  | S754_zero _, S754_zero _ => True
  | _, _ => a = b
  end.

Definition binary32_vec3 (v : vec3) : Prop :=
  binary32 (x3 v) /\ binary32 (y3 v) /\ binary32 (z3 v).

Definition binary32_vec4 (v : vec4) : Prop :=
  binary32 (x4 v) /\ binary32 (y4 v) /\ binary32 (z4 v) /\ binary32 (w4 v).

Definition finite_vec4 (v : vec4) : Prop :=
  finite (x4 v) /\ finite (y4 v) /\ finite (z4 v) /\ finite (w4 v).

Definition finite_mat4 (m : mat4) : Prop :=
  finite_vec4 (col0 m) /\ finite_vec4 (col1 m) /\ finite_vec4 (col2 m) /\
  finite_vec4 (col3 m).

Definition vec4_same (a b : vec4) : Prop :=
  same_value (x4 a) (x4 b) /\ same_value (y4 a) (y4 b) /\
  same_value (z4 a) (z4 b) /\ same_value (w4 a) (w4 b).

(** ** Sample collaborators and states *)

(** A driver that hands out one more than the largest name in use. *)
Definition next_name (used : list Z) : Z := 1 + foldr Z.max 0 used.

(** A decoder that knows three files: an RGB image, an RGBA image and a
    two-channel image. *)
Definition sample_decoder (filename : string) : option Image :=
  if decide (filename = "textures/wall.jpg") then
    Some {| width := 1; height := 1; colorChannels := 3; pixels := [200; 180; 160] |}
  else if decide (filename = "textures/decal.png") then
    Some {| width := 1; height := 1; colorChannels := 4; pixels := [10; 20; 30; 255] |}
  else if decide (filename = "textures/gray.png") then
    Some {| width := 1; height := 1; colorChannels := 2; pixels := [128; 255] |}
  else None.

(** Low-order polynomials in place of the C library's [cos] and [sin]. *)
Definition cos_poly (a : float) : float :=
  (Float.one - (a * a) / Float.of_Z 2)%flt.

Definition sin_poly (a : float) : float :=
  (a - (a * a * a) / Float.of_Z 6)%flt.

Definition unused_slot : TEXTURE_INFO := {| Texture.ID := 0; Texture.tag := "" |}.

Definition empty_scene : SceneManager :=
  {| m_pShaderManager := Some {| mat4Values := ∅ |};
     m_textureIDs := replicate MAX_TEXTURES unused_slot;
     m_loadedTextures := 0;
     m_objectMaterials := [] |}.

Definition wall_entry : TEXTURE_INFO := {| Texture.ID := 1; Texture.tag := "wall" |}.
Definition floor_entry : TEXTURE_INFO := {| Texture.ID := 2; Texture.tag := "floor" |}.

(** The table after "wall" and "floor" were registered. *)
Definition two_textures : SceneManager :=
  with_textures empty_scene
    (<[1%nat := floor_entry]> (<[0%nat := wall_entry]> (m_textureIDs empty_scene))) 2.

(** A table with every slot in use. *)
Definition full_table : SceneManager :=
  with_textures empty_scene (replicate MAX_TEXTURES wall_entry)
    (Z.of_nat MAX_TEXTURES).

Definition fresh_gl : GLState :=
  {| gl_names := []; gl_active_texture := 0; gl_binding_2d := ∅; gl_textures := ∅ |}.

(** A second material tagged "floor", with the values of the table. *)
Definition secondFloor : OBJECT_MATERIAL :=
  {| ambientColor := ambientColor tableMaterial;
     ambientStrength := ambientStrength tableMaterial;
     diffuseColor := diffuseColor tableMaterial;
     specularColor := specularColor tableMaterial;
     shininess := shininess tableMaterial;
     tag := "floor" |}.

(** ** Lists and states the further statements use *)

(** [glActiveTexture] alone. *)
Definition set_active (unit : Z) (gl : GLState) : GLState :=
  {| gl_names := gl_names gl;
     gl_active_texture := unit;
     gl_binding_2d := gl_binding_2d gl;
     gl_textures := gl_textures gl |}.

(** Whether CreateGLTexture accepts what the decoder returns for a file. *)
Definition loads (stbi_load : string -> option Image) (filename : string) : bool :=
  match stbi_load filename with
  | Some image => (colorChannels image =? 3) || (colorChannels image =? 4)
  | None => false
  end.

(** The files and tags of LoadSceneTextures, in its order. *)
Definition scene_textures : list (string * string) :=
  [("textures/wall.jpg", "wall"); ("textures/tilesf2.jpg", "lampshade");
   ("textures/stone.jpg", "stone"); ("textures/wood.jpg", "floor")]%string.

(** The slot a tag is found in, or -1, over a list of entries. *)
Definition slot_in (entries : list TEXTURE_INFO) (tag_ : string) : Z :=
  match list_find (λ e, Texture.tag e = tag_) entries with
  | Some (k, _) => Z.of_nat k
  | None => -1
  end.

(** The materials DefineObjectMaterials registers, in its order. *)
Definition defined_materials : list OBJECT_MATERIAL :=
  [metalMaterial; floorMaterial; glassMaterial; tableMaterial; wallMaterial;
   bookCoverMaterial; grayBlackLeather; airFreshenerMaterial].

(** * The shader setters *)

(** ** Uniforms other than the matrices *)

Record vec2 : Type := Vec2 { x2 : float; y2 : float }.

(** Modelled from the spec: the shader manager receives uniform values by
    name; each setter stores its value under the uniform's name.  The
    matrices are in [ShaderManager]; the values of the other setters are
    kept in a map of their own, passed beside the scene manager. *)
Inductive Uniform : Type :=
| IntValue (v : Z)
| BoolValue (b : bool)
| FloatValue (f : float)
| Vec2Value (v : vec2)
| Vec3Value (v : vec3)
| Vec4Value (v : vec4)
| Sampler2DValue (slot : Z).

Definition setIntValue (name : string) (v : Z) (u : gmap string Uniform)
    : gmap string Uniform := <[name := IntValue v]> u.
Definition setBoolValue (name : string) (b : bool) (u : gmap string Uniform)
    : gmap string Uniform := <[name := BoolValue b]> u.
Definition setFloatValue (name : string) (f : float) (u : gmap string Uniform)
    : gmap string Uniform := <[name := FloatValue f]> u.
Definition setVec2Value (name : string) (v : vec2) (u : gmap string Uniform)
    : gmap string Uniform := <[name := Vec2Value v]> u.
Definition setVec3Value (name : string) (v : vec3) (u : gmap string Uniform)
    : gmap string Uniform := <[name := Vec3Value v]> u.
Definition setVec4Value (name : string) (v : vec4) (u : gmap string Uniform)
    : gmap string Uniform := <[name := Vec4Value v]> u.
Definition setSampler2DValue (name : string) (slot : Z) (u : gmap string Uniform)
    : gmap string Uniform := <[name := Sampler2DValue slot]> u.

Definition g_ColorValueName : string := "objectColor"%string.
Definition g_TextureValueName : string := "objectTexture"%string.
Definition g_UseTextureName : string := "bUseTexture"%string.
Definition g_UseLightingName : string := "bUseLighting"%string.

(** [bool] passed where an [int] is expected. *)
Definition int_of_bool (b : bool) : Z := if b then 1 else 0.

(** [void SetShaderColor(redColorValue, greenColorValue, blueColorValue,
    alphaValue)] *)
Definition SetShaderColor (redColorValue greenColorValue blueColorValue
    alphaValue : float) (this : SceneManager) (u : gmap string Uniform)
    : gmap string Uniform :=
  let currentColor :=
    Vec4 redColorValue greenColorValue blueColorValue alphaValue in
  match m_pShaderManager this with
  | Some _ =>
      let u := setIntValue g_UseTextureName (int_of_bool false) u in
      setVec4Value g_ColorValueName currentColor u
  | None => u
  end.

(** [void SetShaderTexture(std::string textureTag)] *)
Definition SetShaderTexture (textureTag : string) (this : SceneManager)
    (u : gmap string Uniform) : option (gmap string Uniform) :=
  match m_pShaderManager this with
  | Some _ =>
      let u := setIntValue g_UseTextureName (int_of_bool true) u in
      textureID ← FindTextureSlot this textureTag;
      Some (setSampler2DValue g_TextureValueName textureID u)
  | None => Some u
  end.

(** [void SetTextureUVScale(float u, float v)] *)
Definition SetTextureUVScale (u_ v_ : float) (this : SceneManager)
    (u : gmap string Uniform) : gmap string Uniform :=
  match m_pShaderManager this with
  | Some _ => setVec2Value "UVscale" (Vec2 u_ v_) u
  | None => u
  end.

(** [void SetShaderMaterial(std::string materialTag)].  [material] is what
    the local of that name holds before FindMaterial is called; the calls
    through [m_pShaderManager] are not guarded by a NULL test. *)
Definition SetShaderMaterial (materialTag : string) (material : OBJECT_MATERIAL)
    (this : SceneManager) (u : gmap string Uniform)
    : option (gmap string Uniform) :=
  if vector_size (m_objectMaterials this) >? 0 then
    '(bReturn, material) ← FindMaterial this materialTag material;
    if Bool.eqb bReturn true then
      match m_pShaderManager this with
      | Some _ =>
          let u := setVec3Value "material.diffuseColor" (diffuseColor material) u in
          let u := setVec3Value "material.specularColor" (specularColor material) u in
          Some (setFloatValue "material.shininess" (shininess material) u)
      | None => None
      end
    else Some u
  else Some u.

(** * The scene script *)

(** ** Frames and steps *)

(** The meshes of ShapeMeshes the scene manager loads or draws. *)
Inductive Mesh : Type :=
| BoxMesh | CylinderMesh | HalfSphereMesh | PlaneMesh | SphereMesh
| TaperedCylinderMesh | TriangularPrismMesh.

(** Modelled from the spec: a draw call of ShapeMeshes draws one mesh with
    the uniforms the shader holds at that moment; it is recorded with
    them. *)
Record DrawCall : Type := {
  mesh : Mesh;
  drawn_shader : option ShaderManager;
  drawn_uniforms : gmap string Uniform
}.

(** The state a Render function runs in: the scene manager, the uniforms
    beside it, and the draw calls issued so far, oldest first. *)
Record Frame : Type := {
  scene : SceneManager;
  uniforms : gmap string Uniform;
  drawn : list DrawCall
}.

(** One statement of a Render function; [None] is undefined behaviour. *)
Definition Step : Type := Frame -> option Frame.

Definition then_ (first second : Step) : Step :=
  λ frame, frame ← first frame; second frame.

Infix ">>>" := then_ (at level 65, right associativity).

(** A hundredth-precision literal such as [12.65f]. *)
Definition hundredths (n : Z) : float := Float.lit n 100.

Section Script.
Variables cosf sinf : float -> float.
(** What the local [material] of SetShaderMaterial holds when the function
    is entered. *)
Variable indeterminate : OBJECT_MATERIAL.

Definition call_SetTransformations (scaleXYZ : vec3)
    (XrotationDegrees YrotationDegrees ZrotationDegrees : float)
    (positionXYZ : vec3) : Step :=
  λ frame,
    Some {| scene := SetTransformations cosf sinf scaleXYZ XrotationDegrees
                       YrotationDegrees ZrotationDegrees positionXYZ
                       (scene frame);
            uniforms := uniforms frame;
            drawn := drawn frame |}.

Definition call_SetShaderColor (r g b a : float) : Step :=
  λ frame,
    Some {| scene := scene frame;
            uniforms := SetShaderColor r g b a (scene frame) (uniforms frame);
            drawn := drawn frame |}.

Definition call_SetShaderTexture (textureTag : string) : Step :=
  λ frame,
    u ← SetShaderTexture textureTag (scene frame) (uniforms frame);
    Some {| scene := scene frame; uniforms := u; drawn := drawn frame |}.

Definition call_SetTextureUVScale (u_ v_ : float) : Step :=
  λ frame,
    Some {| scene := scene frame;
            uniforms := SetTextureUVScale u_ v_ (scene frame) (uniforms frame);
            drawn := drawn frame |}.

Definition call_SetShaderMaterial (materialTag : string) : Step :=
  λ frame,
    u ← SetShaderMaterial materialTag indeterminate (scene frame) (uniforms frame);
    Some {| scene := scene frame; uniforms := u; drawn := drawn frame |}.

(** [m_basicMeshes->Draw...Mesh()] *)
Definition call_Draw (m : Mesh) : Step :=
  λ frame,
    Some {| scene := scene frame;
            uniforms := uniforms frame;
            drawn := drawn frame
                     ++ [{| mesh := m;
                            drawn_shader := m_pShaderManager (scene frame);
                            drawn_uniforms := uniforms frame |}] |}.

(** [void RenderAirFreshner()] *)
Definition RenderAirFreshner : Step :=
  let XrotationDegrees := Float.zero in
  let YrotationDegrees := Float.zero in
  let ZrotationDegrees := Float.zero in
  let scaleXYZ := vec3_lit 120 200 120 in
  let positionXYZ := vec3_lit 275 710 500 in
  call_SetTransformations scaleXYZ XrotationDegrees YrotationDegrees
    ZrotationDegrees positionXYZ >>>
  call_SetShaderMaterial "airFreshener" >>>
  call_SetShaderColor (hundredths 50) (hundredths 70) (hundredths 50) Float.one >>>
  call_Draw TaperedCylinderMesh.

(** [void RenderBackdrop()] *)
Definition RenderBackdrop : Step :=
  let scaleXYZ := vec3_lit 5000 100 3000 in
  let XrotationDegrees := Float.of_Z 90 in
  let YrotationDegrees := Float.zero in
  let ZrotationDegrees := Float.zero in
  let positionXYZ := vec3_lit 0 1000 (-1000) in
  call_SetTransformations scaleXYZ XrotationDegrees YrotationDegrees
    ZrotationDegrees positionXYZ >>>
  call_SetShaderColor (hundredths 50) (hundredths 79) (hundredths 61) Float.one >>>
  call_SetShaderTexture "wall" >>>
  call_SetTextureUVScale (Float.of_Z 4) (Float.of_Z 4) >>>
  call_SetShaderMaterial "wall" >>>
  call_Draw PlaneMesh.

(** [void RenderBook()] *)
Definition RenderBook : Step :=
  let XrotationDegrees := Float.zero in
  let YrotationDegrees := Float.of_Z (-195) in
  let ZrotationDegrees := Float.zero in
  let scaleXYZ := vec3_lit 400 40 550 in
  let positionXYZ := vec3_lit (-150) 720 400 in
  call_SetTransformations scaleXYZ XrotationDegrees YrotationDegrees
    ZrotationDegrees positionXYZ >>>
  call_SetShaderMaterial "bookCover" >>>
  call_Draw BoxMesh.

(** [void RenderFloor()] *)
Definition RenderFloor : Step :=
  let scaleXYZ := vec3_lit 5000 100 3000 in
  let XrotationDegrees := Float.zero in
  let YrotationDegrees := Float.zero in
  let ZrotationDegrees := Float.zero in
  let positionXYZ := vec3_lit 0 0 0 in
  call_SetTransformations scaleXYZ XrotationDegrees YrotationDegrees
    ZrotationDegrees positionXYZ >>>
  call_SetShaderTexture "floor" >>>
  call_SetTextureUVScale Float.one Float.one >>>
  call_SetShaderMaterial "floor" >>>
  call_Draw PlaneMesh.

(** [void RenderGlassesCase()] *)
Definition RenderGlassesCase : Step :=
  let XrotationDegrees := Float.of_Z 90 in
  let YrotationDegrees := Float.of_Z 60 in
  let ZrotationDegrees := Float.of_Z 180 in
  let scaleXYZ := vec3_lit 150 450 150 in
  let positionXYZ := vec3_lit (-100) 710 (-200) in
  call_SetTransformations scaleXYZ XrotationDegrees YrotationDegrees
    ZrotationDegrees positionXYZ >>>
  call_SetShaderMaterial "grayBlackLeather" >>>
  call_SetShaderColor (hundredths 40) (hundredths 40) (hundredths 40) Float.one >>>
  call_Draw TriangularPrismMesh.

(** One part of the lamp: every part has rotations 0. *)
Definition lamp_part (scaleXYZ positionXYZ : vec3) (textureTag materialTag : string)
    (m : Mesh) : Step :=
  let XrotationDegrees := Float.zero in
  let YrotationDegrees := Float.zero in
  let ZrotationDegrees := Float.zero in
  call_SetTransformations scaleXYZ XrotationDegrees YrotationDegrees
    ZrotationDegrees positionXYZ >>>
  call_SetShaderTexture textureTag >>>
  call_SetShaderMaterial materialTag >>>
  call_Draw m.

(** [void RenderLamp()] *)
Definition RenderLamp : Step :=
  lamp_part (vec3_lit 200 50 200) (vec3_lit 400 700 (-200)) "stone" "metal"
    CylinderMesh >>>
  lamp_part (vec3_lit 175 125 175) (vec3_lit 400 750 (-200)) "stone" "metal"
    TaperedCylinderMesh >>>
  lamp_part (vec3_lit 100 50 100) (vec3_lit 400 825 (-200)) "stone" "metal"
    CylinderMesh >>>
  lamp_part (vec3_lit 75 80 75) (vec3_lit 400 875 (-200)) "stone" "metal"
    CylinderMesh >>>
  lamp_part (vec3_lit 100 10 100) (vec3_lit 400 955 (-200)) "stone" "metal"
    CylinderMesh >>>
  lamp_part (vec3_lit 15 500 15) (vec3_lit 400 965 (-200)) "stone" "metal"
    CylinderMesh >>>
  lamp_part (vec3_lit 275 350 275) (vec3_lit 400 1265 (-200)) "lampshade" "glass"
    HalfSphereMesh.

Definition legPositions : list vec3 :=
  [vec3_lit 500 0 500; vec3_lit (-500) 0 500; vec3_lit 500 0 (-500);
   vec3_lit (-500) 0 (-500)].

(** [void RenderTable()] *)
Definition RenderTable : Step :=
  let XrotationDegrees := Float.zero in
  let YrotationDegrees := Float.zero in
  let ZrotationDegrees := Float.zero in
  let scaleXYZ := vec3_lit 800 20 800 in
  let positionXYZ := vec3_lit 0 690 0 in
  call_SetTransformations scaleXYZ XrotationDegrees YrotationDegrees
    ZrotationDegrees positionXYZ >>>
  call_SetShaderColor (hundredths 15) (hundredths 15) (hundredths 15) Float.one >>>
  call_SetShaderMaterial "table" >>>
  call_Draw CylinderMesh >>>
  let scaleXYZ := vec3_lit 10 690 10 in
  for_upto 4
    (λ i,
       λ frame,
         positionXYZ ← subscript legPositions i;
         (call_SetTransformations scaleXYZ XrotationDegrees YrotationDegrees
            ZrotationDegrees positionXYZ >>>
          call_SetShaderColor (hundredths 15) (hundredths 15) (hundredths 15)
            Float.one >>>
          call_SetShaderMaterial "table" >>>
          call_Draw CylinderMesh) frame).

(** [void RenderScene()] *)
Definition RenderScene : Step :=
  RenderAirFreshner >>>
  RenderBackdrop >>>
  RenderBook >>>
  RenderFloor >>>
  RenderGlassesCase >>>
  RenderLamp >>>
  RenderTable.
End Script.

(** ** The script as a list of calls *)

(** The calls a Render function makes. *)
Inductive Call : Type :=
| Transform (scaleXYZ : vec3) (XrotationDegrees YrotationDegrees
    ZrotationDegrees : float) (positionXYZ : vec3)
| Color (r g b a : float)
| Texture (textureTag : string)
| UVScale (u_ v_ : float)
| Material (materialTag : string)
| Draw (m : Mesh).

Section Calls.
Variables cosf sinf : float -> float.
Variable indeterminate : OBJECT_MATERIAL.

Definition perform (c : Call) : Step :=
  match c with
  | Transform s x y z p => call_SetTransformations cosf sinf s x y z p
  | Color r g b a => call_SetShaderColor r g b a
  | Texture t => call_SetShaderTexture t
  | UVScale u_ v_ => call_SetTextureUVScale u_ v_
  | Material t => call_SetShaderMaterial indeterminate t
  | Draw m => call_Draw m
  end.

Fixpoint run (calls : list Call) : Step :=
  match calls with
  | [] => Some
  | c :: calls => perform c >>> run calls
  end.
End Calls.

Definition lamp_part_calls (scaleXYZ positionXYZ : vec3)
    (textureTag materialTag : string) (m : Mesh) : list Call :=
  [Transform scaleXYZ Float.zero Float.zero Float.zero positionXYZ;
   Texture textureTag; Material materialTag; Draw m].

Definition table_part_calls (scaleXYZ positionXYZ : vec3) : list Call :=
  [Transform scaleXYZ Float.zero Float.zero Float.zero positionXYZ;
   Color (hundredths 15) (hundredths 15) (hundredths 15) Float.one;
   Material "table"; Draw CylinderMesh].

Definition airFreshner_calls : list Call :=
  [Transform (vec3_lit 120 200 120) Float.zero Float.zero Float.zero
     (vec3_lit 275 710 500);
   Material "airFreshener";
   Color (hundredths 50) (hundredths 70) (hundredths 50) Float.one;
   Draw TaperedCylinderMesh].

Definition backdrop_calls : list Call :=
  [Transform (vec3_lit 5000 100 3000) (Float.of_Z 90) Float.zero Float.zero
     (vec3_lit 0 1000 (-1000));
   Color (hundredths 50) (hundredths 79) (hundredths 61) Float.one;
   Texture "wall";
   UVScale (Float.of_Z 4) (Float.of_Z 4);
   Material "wall";
   Draw PlaneMesh].

Definition book_calls : list Call :=
  [Transform (vec3_lit 400 40 550) Float.zero (Float.of_Z (-195)) Float.zero
     (vec3_lit (-150) 720 400);
   Material "bookCover";
   Draw BoxMesh].

Definition floor_calls : list Call :=
  [Transform (vec3_lit 5000 100 3000) Float.zero Float.zero Float.zero
     (vec3_lit 0 0 0);
   Texture "floor";
   UVScale Float.one Float.one;
   Material "floor";
   Draw PlaneMesh].

Definition glassesCase_calls : list Call :=
  [Transform (vec3_lit 150 450 150) (Float.of_Z 90) (Float.of_Z 60)
     (Float.of_Z 180) (vec3_lit (-100) 710 (-200));
   Material "grayBlackLeather";
   Color (hundredths 40) (hundredths 40) (hundredths 40) Float.one;
   Draw TriangularPrismMesh].

Definition lamp_calls : list Call :=
  lamp_part_calls (vec3_lit 200 50 200) (vec3_lit 400 700 (-200))
    "stone" "metal" CylinderMesh
  ++ lamp_part_calls (vec3_lit 175 125 175) (vec3_lit 400 750 (-200))
       "stone" "metal" TaperedCylinderMesh
  ++ lamp_part_calls (vec3_lit 100 50 100) (vec3_lit 400 825 (-200))
       "stone" "metal" CylinderMesh
  ++ lamp_part_calls (vec3_lit 75 80 75) (vec3_lit 400 875 (-200))
       "stone" "metal" CylinderMesh
  ++ lamp_part_calls (vec3_lit 100 10 100) (vec3_lit 400 955 (-200))
       "stone" "metal" CylinderMesh
  ++ lamp_part_calls (vec3_lit 15 500 15) (vec3_lit 400 965 (-200))
       "stone" "metal" CylinderMesh
  ++ lamp_part_calls (vec3_lit 275 350 275) (vec3_lit 400 1265 (-200))
       "lampshade" "glass" HalfSphereMesh.

Definition table_calls : list Call :=
  table_part_calls (vec3_lit 800 20 800) (vec3_lit 0 690 0)
  ++ flat_map (table_part_calls (vec3_lit 10 690 10)) legPositions.

(** The calls of RenderScene, in its order. *)
Definition scene_calls : list Call :=
  airFreshner_calls ++ backdrop_calls ++ book_calls ++ floor_calls
  ++ glassesCase_calls ++ lamp_calls ++ table_calls.

(** ** What a list of calls stores and draws *)

(** The uniforms after one call, given the registered textures and the
    materials, for a scene manager with a shader manager. *)
Definition apply_call (textures : list TEXTURE_INFO)
    (materials : list OBJECT_MATERIAL) (indeterminate : OBJECT_MATERIAL)
    (c : Call) (u : gmap string Uniform) : gmap string Uniform :=
  match c with
  | Transform _ _ _ _ _ => u
  | Color r g b a =>
      setVec4Value g_ColorValueName (Vec4 r g b a) (setIntValue g_UseTextureName 0 u)
  | Texture t =>
      setSampler2DValue g_TextureValueName (slot_in textures t)
        (setIntValue g_UseTextureName 1 u)
  | UVScale u_ v_ => setVec2Value "UVscale" (Vec2 u_ v_) u
  | Material t =>
      match materials with
      | [] => u
      | _ :: _ =>
          let found :=
            match first_material materials t with
            | Some (_, e) => copy_reflectance e indeterminate
            | None => indeterminate
            end in
          setFloatValue "material.shininess" (shininess found)
            (setVec3Value "material.specularColor" (specularColor found)
               (setVec3Value "material.diffuseColor" (diffuseColor found) u))
      end
  | Draw _ => u
  end.

(** The mesh and the uniforms of every draw among the calls. *)
Fixpoint snapshots (textures : list TEXTURE_INFO)
    (materials : list OBJECT_MATERIAL) (indeterminate : OBJECT_MATERIAL)
    (calls : list Call) (u : gmap string Uniform)
    : list (Mesh * gmap string Uniform) :=
  match calls with
  | [] => []
  | Draw m :: calls =>
      (m, u) :: snapshots textures materials indeterminate calls u
  | c :: calls =>
      snapshots textures materials indeterminate calls
        (apply_call textures materials indeterminate c u)
  end.

(** The meshes drawn by the calls. *)
Definition meshes (calls : list Call) : list Mesh :=
  omap (λ c, match c with Draw m => Some m | _ => None end) calls.

Definition has_material_call (calls : list Call) : Prop :=
  Exists (λ c, match c with Material _ => True | _ => False end) calls.

Definition snapshot (d : DrawCall) : Mesh * gmap string Uniform :=
  (mesh d, drawn_uniforms d).

(** The uniforms the setters of the Render functions store. *)
Definition render_uniforms : list string :=
  [g_UseTextureName; g_ColorValueName; g_TextureValueName; "UVscale";
   "material.diffuseColor"; "material.specularColor";
   "material.shininess"]%string.

(** The registries of two scene managers are the same. *)
Definition same_registries (a b : SceneManager) : Prop :=
  m_textureIDs a = m_textureIDs b /\
  m_loadedTextures a = m_loadedTextures b /\
  m_objectMaterials a = m_objectMaterials b.

(** The meshes of RenderScene's draws, in order. *)
Definition scene_meshes : list Mesh :=
  [TaperedCylinderMesh; PlaneMesh; BoxMesh; PlaneMesh; TriangularPrismMesh;
   CylinderMesh; TaperedCylinderMesh; CylinderMesh; CylinderMesh; CylinderMesh;
   CylinderMesh; HalfSphereMesh;
   CylinderMesh; CylinderMesh; CylinderMesh; CylinderMesh; CylinderMesh].

(** * Preparing the scene *)

(** [void SetupSceneLights()]: every call goes through [m_pShaderManager]
    without a NULL test.  [setVec3Value(name, x, y, z)] stores the vector of
    its three components. *)
Definition SetupSceneLights (this : SceneManager) (u : gmap string Uniform)
    : option (gmap string Uniform) :=
  match m_pShaderManager this with
  | Some _ =>
      let u := setBoolValue "bUseLighting" true u in
      let u := setVec3Value "ambientLight.color" (vec3_lit 30 30 30) u in
      let u := setVec3Value "directionalLight.direction"
                 (vec3_lit (-20) (-100) (-30)) u in
      let u := setVec3Value "directionalLight.ambient" (vec3_lit 30 30 30) u in
      let u := setVec3Value "directionalLight.diffuse" (vec3_lit 60 60 60) u in
      let u := setVec3Value "directionalLight.specular" (vec3_lit 50 50 50) u in
      let u := setBoolValue "directionalLight.bActive" true u in
      let u := setVec3Value "pointLights[0].position"
                 (vec3_lit 400 1265 (-200)) u in
      let u := setVec3Value "pointLights[0].ambient" (vec3_lit 20 20 20) u in
      let u := setVec3Value "pointLights[0].diffuse" (vec3_lit 50 50 50) u in
      let u := setVec3Value "pointLights[0].specular" (vec3_lit 80 80 80) u in
      let u := setFloatValue "pointLights[0].constant" Float.one u in
      let u := setFloatValue "pointLights[0].linear" (Float.lit 9 100) u in
      let u := setFloatValue "pointLights[0].quadratic" (Float.lit 32 1000) u in
      let u := setBoolValue "pointLights[0].bActive" true u in
      let u := setVec3Value "pointLights[1].position" (vec3_lit 50 100 0) u in
      let u := setVec3Value "pointLights[1].ambient" (vec3_lit 10 10 10) u in
      let u := setVec3Value "pointLights[1].diffuse" (vec3_lit 40 40 40) u in
      let u := setVec3Value "pointLights[1].specular" (vec3_lit 50 50 50) u in
      let u := setFloatValue "pointLights[1].constant" Float.one u in
      let u := setFloatValue "pointLights[1].linear" (Float.lit 9 100) u in
      let u := setFloatValue "pointLights[1].quadratic" (Float.lit 32 1000) u in
      Some (setBoolValue "pointLights[1].bActive" true u)
  | None => None
  end.

(** The meshes PrepareScene loads, in its order. *)
Definition prepared_meshes : list Mesh :=
  [SphereMesh; TaperedCylinderMesh; CylinderMesh; PlaneMesh; BoxMesh;
   TriangularPrismMesh].

Section Prepare.
Variable stbi_load : string -> option Image.
Variable glGenName : list Z -> Z.
Variable GL_MAX_COMBINED_TEXTURE_IMAGE_UNITS : Z.

(** [void PrepareScene()]: the scene manager, the GL state, the uniforms
    and the meshes loaded, after it. *)
Definition PrepareScene (this : SceneManager) (gl : GLState)
    (u : gmap string Uniform)
    : option (SceneManager * GLState * gmap string Uniform * list Mesh) :=
  '(this, gl) ← LoadSceneTextures stbi_load glGenName
                  GL_MAX_COMBINED_TEXTURE_IMAGE_UNITS this gl;
  let this := DefineObjectMaterials this in
  u ← SetupSceneLights this u;
  Some (this, gl, u, prepared_meshes).
End Prepare.

(** ** Predicates and samples for the prepared scene *)

(** The script asks only for tags of [scene_textures] and of
    [defined_materials]. *)
Definition asks_prepared (c : Call) : Prop :=
  match c with
  | Texture t => t ∈ scene_textures.*2
  | Material t => t ∈ tag <$> defined_materials
  | _ => True
  end.

(** The material uniforms are the reflectance of one of the materials. *)
Definition lit_by (materials : list OBJECT_MATERIAL) (u : gmap string Uniform)
    : Prop :=
  exists m,
    m ∈ materials /\
    u !! "material.diffuseColor"%string = Some (Vec3Value (diffuseColor m)) /\
    u !! "material.specularColor"%string = Some (Vec3Value (specularColor m)) /\
    u !! "material.shininess"%string = Some (FloatValue (shininess m)).

(** Texturing is off, or on with the sampler on the slot of one of the
    textures. *)
Definition flat_or_sampled (textures : list TEXTURE_INFO)
    (u : gmap string Uniform) : Prop :=
  u !! g_UseTextureName = Some (IntValue 0) \/
  exists (k : nat) e,
    u !! g_UseTextureName = Some (IntValue 1) /\
    u !! g_TextureValueName = Some (Sampler2DValue (Z.of_nat k)) /\
    textures !! k = Some e.

(** A decoder that returns a one-pixel RGB image for every file. *)
Definition pixel_decoder (filename : string) : option Image :=
  Some {| width := 1; height := 1; colorChannels := 3; pixels := [200; 180; 160] |}.

(** A material with every value zero and no tag. *)
Definition blank_material : OBJECT_MATERIAL :=
  {| ambientColor := vec3_lit 0 0 0;
     ambientStrength := Float.zero;
     diffuseColor := vec3_lit 0 0 0;
     specularColor := vec3_lit 0 0 0;
     shininess := Float.zero;
     tag := "" |}.

(** The tags a call asks for are registered. *)
Definition asks_registered (textures : list TEXTURE_INFO)
    (materials : list OBJECT_MATERIAL) (c : Call) : Prop :=
  match c with
  | Texture t => t ∈ Texture.tag <$> textures
  | Material t => t ∈ tag <$> materials
  | _ => True
  end.

(** A scene manager constructed with a NULL shader manager, after
    DefineObjectMaterials. *)
Definition unshaded_scene : SceneManager :=
  DefineObjectMaterials
    {| m_pShaderManager := None;
       m_textureIDs := replicate MAX_TEXTURES unused_slot;
       m_loadedTextures := 0;
       m_objectMaterials := [] |}.

(** A frame before the first draw, with the materials defined. *)
Definition first_frame : Frame :=
  {| scene := DefineObjectMaterials two_textures; uniforms := ∅; drawn := [] |}.

(** * Properties *)

(** ** Strings and machine integers *)

Lemma compare_eqb (a b : string) :
  (std_string.compare a b =? 0) = true <-> a = b.
Proof.
  unfold std_string.compare. split.
  - pose proof (String.compare_eq_iff a b) as Heq.
    destruct (String.compare a b); simpl; intros H; [auto | discriminate..].
  - intros <-. pose proof (String.compare_antisym a a) as Hanti.
    destruct (String.compare a a); simpl in *; [reflexivity | discriminate..].
Qed.

Lemma compare_neqb (a b : string) :
  (std_string.compare a b =? 0) = false <-> a <> b.
Proof.
  rewrite <- compare_eqb. destruct (std_string.compare a b =? 0); split; congruence.
Qed.

Lemma int_incr_below (i : Z) : i < INT_MAX -> int_incr i = Some (i + 1).
Proof. intros Hi. unfold int_incr. apply Z.ltb_lt in Hi. now rewrite Hi. Qed.

Lemma size_t_of_int_nonneg (i : Z) : 0 <= i <= INT_MAX -> size_t_of_int i = i.
Proof.
  intros Hi. unfold size_t_of_int. apply Z.mod_small.
  unfold INT_MAX, SIZE_MODULUS in *. lia.
Qed.

Lemma int_of_GLuint_small (u : Z) : 0 <= u < 2 ^ 31 -> int_of_GLuint u = u.
Proof.
  intros Hu. unfold int_of_GLuint, UINT_MODULUS. rewrite Z.mod_small; lia.
Qed.

Lemma subscript_of_nat {A : Type} (v : list A) (i : nat) :
  subscript v (Z.of_nat i) = v !! i.
Proof.
  unfold subscript. destruct (Z.of_nat i <? 0) eqn:Hneg.
  - apply Z.ltb_lt in Hneg. lia.
  - now rewrite Nat2Z.id.
Qed.

(** ** The scan loops, one iteration at a time *)

(** Rewrites one call of a scan loop into its body; the arguments are the
    defining equations Equations generated for the loop. *)
Ltac scan_step eq1 stop enter miss hit test skip overflow next :=
  match goal with
  | |- _ = if ?c then _ else _ =>
      destruct c eqn:?; rewrite eq1;
      destruct (inspect _) as [[] ?]; try congruence
  end;
  [ rewrite enter;
    match goal with
    | |- _ = match ?r with _ => _ end =>
        destruct r as [?entry|]; [rewrite hit | now rewrite miss]
    end;
    match goal with
    | |- _ = if ?t then _ else _ =>
        destruct t; [now rewrite test | rewrite skip]
    end;
    match goal with
    | |- _ = match ?n with _ => _ end =>
        let Hn := fresh "Hn" in
        destruct (inspect n) as [[?|] Hn];
        [ rewrite next | rewrite overflow ]; now rewrite Hn
    end
  | now rewrite stop ].

Lemma FindMaterial_while_step mats tag_ index bFound material :
  FindMaterial_while mats tag_ index bFound material =
  if (size_t_of_int index <? vector_size mats) && Bool.eqb bFound false then
    match subscript mats index with
    | Some entry =>
        if std_string.compare (tag entry) tag_ =? 0 then
          FindMaterial_while mats tag_ index true (copy_reflectance entry material)
        else
          match int_incr index with
          | Some index' => FindMaterial_while mats tag_ index' bFound material
          | None => None
          end
    | None => None
    end
  else Some (index, bFound, material).
Proof.
  scan_step FindMaterial_while_equation_1
    FindMaterial_while_clause_1_equation_2
    FindMaterial_while_clause_1_equation_1
    FindMaterial_while_clause_1_clause_2_equation_2
    FindMaterial_while_clause_1_clause_2_equation_1
    FindMaterial_while_clause_1_clause_2_clause_2_equation_1
    FindMaterial_while_clause_1_clause_2_clause_2_equation_2
    FindMaterial_while_clause_1_clause_2_clause_2_clause_2_equation_2
    FindMaterial_while_clause_1_clause_2_clause_2_clause_2_equation_1.
Qed.

Lemma FindTextureID_while_step this tag_ textureID index bFound :
  FindTextureID_while this tag_ textureID index bFound =
  if (index <? m_loadedTextures this) && Bool.eqb bFound false then
    match subscript (m_textureIDs this) index with
    | Some entry =>
        if std_string.compare (Texture.tag entry) tag_ =? 0 then
          FindTextureID_while this tag_ (int_of_GLuint (Texture.ID entry)) index true
        else
          match int_incr index with
          | Some index' => FindTextureID_while this tag_ textureID index' bFound
          | None => None
          end
    | None => None
    end
  else Some (textureID, index, bFound).
Proof.
  scan_step FindTextureID_while_equation_1
    FindTextureID_while_clause_1_equation_2
    FindTextureID_while_clause_1_equation_1
    FindTextureID_while_clause_1_clause_2_equation_2
    FindTextureID_while_clause_1_clause_2_equation_1
    FindTextureID_while_clause_1_clause_2_clause_2_equation_1
    FindTextureID_while_clause_1_clause_2_clause_2_equation_2
    FindTextureID_while_clause_1_clause_2_clause_2_clause_2_equation_2
    FindTextureID_while_clause_1_clause_2_clause_2_clause_2_equation_1.
Qed.

Lemma FindTextureSlot_while_step this tag_ textureSlot index bFound :
  FindTextureSlot_while this tag_ textureSlot index bFound =
  if (index <? m_loadedTextures this) && Bool.eqb bFound false then
    match subscript (m_textureIDs this) index with
    | Some entry =>
        if std_string.compare (Texture.tag entry) tag_ =? 0 then
          FindTextureSlot_while this tag_ index index true
        else
          match int_incr index with
          | Some index' => FindTextureSlot_while this tag_ textureSlot index' bFound
          | None => None
          end
    | None => None
    end
  else Some (textureSlot, index, bFound).
Proof.
  scan_step FindTextureSlot_while_equation_1
    FindTextureSlot_while_clause_1_equation_2
    FindTextureSlot_while_clause_1_equation_1
    FindTextureSlot_while_clause_1_clause_2_equation_2
    FindTextureSlot_while_clause_1_clause_2_equation_1
    FindTextureSlot_while_clause_1_clause_2_clause_2_equation_1
    FindTextureSlot_while_clause_1_clause_2_clause_2_equation_2
    FindTextureSlot_while_clause_1_clause_2_clause_2_clause_2_equation_2
    FindTextureSlot_while_clause_1_clause_2_clause_2_clause_2_equation_1.
Qed.

(** ** Material registry: what the scan computes *)

Lemma FindMaterial_while_scan mats tag_ material (rest : nat) :
  forall i : nat,
    length mats = (i + rest)%nat ->
    vector_size mats <= INT_MAX ->
    FindMaterial_while mats tag_ (Z.of_nat i) false material =
    Some match first_material (drop i mats) tag_ with
         | Some (k, e) => (Z.of_nat (i + k), true, copy_reflectance e material)
         | None => (vector_size mats, false, material)
         end.
Proof.
  unfold vector_size, first_material.
  induction rest as [|rest IH]; intros i Hlen Hmax.
  - rewrite FindMaterial_while_step, size_t_of_int_nonneg by lia.
    replace (Z.of_nat i <? vector_size mats) with false
      by (symmetry; apply Z.ltb_ge; unfold vector_size; lia).
    rewrite drop_ge by lia. simpl. do 3 f_equal. lia.
  - destruct (lookup_lt_is_Some_2 mats i) as [e He]; [lia|].
    rewrite FindMaterial_while_step, size_t_of_int_nonneg by lia.
    replace (Z.of_nat i <? vector_size mats) with true
      by (symmetry; apply Z.ltb_lt; unfold vector_size; lia).
    rewrite subscript_of_nat, He, (drop_S _ _ _ He). simpl.
    destruct (decide (tag e = tag_)) as [Heq|Hne].
    + apply compare_eqb in Heq as ->.
      rewrite FindMaterial_while_step, andb_false_r. simpl.
      now rewrite Nat.add_0_r.
    + apply compare_neqb in Hne as ->.
      rewrite int_incr_below by lia.
      replace (Z.of_nat i + 1) with (Z.of_nat (S i)) by lia.
      rewrite IH by lia.
      destruct (list_find _ (drop (S i) mats)) as [[k e']|]; simpl;
        [do 3 f_equal; lia | reflexivity].
Qed.

Lemma FindMaterial_spec this tag_ material :
  vector_size (m_objectMaterials this) <= INT_MAX ->
  FindMaterial this tag_ material =
  Some match m_objectMaterials this with
       | [] => (false, material)
       | _ :: _ =>
           (true,
            match first_material (m_objectMaterials this) tag_ with
            | Some (_, e) => copy_reflectance e material
            | None => material
            end)
       end.
Proof.
  intros Hmax. unfold FindMaterial.
  destruct (m_objectMaterials this) as [|e0 mats] eqn:Hmats; [reflexivity|].
  replace (vector_size (e0 :: mats) =? 0) with false
    by (symmetry; apply Z.eqb_neq; unfold vector_size; simpl; lia).
  change 0 with (Z.of_nat 0).
  rewrite (FindMaterial_while_scan _ _ _ (length (e0 :: mats))) by (auto; lia).
  rewrite drop_0.
  now destruct (first_material (e0 :: mats) tag_) as [[k e]|].
Qed.

Lemma register_materials_app this materials :
  m_objectMaterials (register_materials this materials) =
  m_objectMaterials this ++ materials.
Proof.
  unfold register_materials. revert this.
  induction materials as [|m materials IH]; intros this; simpl.
  - now rewrite app_nil_r.
  - rewrite IH. simpl. unfold push_back. now rewrite <- app_assoc.
Qed.

(** C1. FindMaterial returns false on an empty registry and true on every
    non-empty one, also when no entry has the requested tag. *)
Theorem FindMaterial_result this tag_ material :
  vector_size (m_objectMaterials this) <= INT_MAX ->
  (m_objectMaterials this = [] ->
   FindMaterial this tag_ material = Some (false, material)) /\
  (m_objectMaterials this <> [] ->
   exists material', FindMaterial this tag_ material = Some (true, material')) /\
  (m_objectMaterials this <> [] ->
   Forall (λ e, tag e <> tag_) (m_objectMaterials this) ->
   FindMaterial this tag_ material = Some (true, material)).
Proof.
  intros Hmax. rewrite (FindMaterial_spec _ _ _ Hmax).
  destruct (m_objectMaterials this) as [|e0 mats]; repeat split; try congruence.
  - eauto.
  - intros _ Hnone. apply (list_find_None (λ e, tag e = tag_)) in Hnone.
    unfold first_material. now rewrite Hnone.
Qed.

(** C3. After any sequence of registrations, FindMaterial writes the values
    of the first registered entry with the tag; on the empty registry it
    reports not-found. *)
Theorem FindMaterial_first_registered this materials tag_ material k e :
  m_objectMaterials this = [] ->
  vector_size materials <= INT_MAX ->
  materials !! k = Some e ->
  tag e = tag_ ->
  (forall j e', (j < k)%nat -> materials !! j = Some e' -> tag e' <> tag_) ->
  FindMaterial this tag_ material = Some (false, material) /\
  exists material',
    FindMaterial (register_materials this materials) tag_ material
    = Some (true, material') /\
    diffuseColor material' = diffuseColor e /\
    specularColor material' = specularColor e /\
    shininess material' = shininess e.
Proof.
  intros Hempty Hmax Hk Htag Hfirst. split.
  - unfold FindMaterial. now rewrite Hempty.
  - assert (Hmats : m_objectMaterials (register_materials this materials) = materials)
      by now rewrite register_materials_app, Hempty.
    rewrite FindMaterial_spec by now rewrite Hmats.
    rewrite Hmats.
    assert (Hfind : first_material materials tag_ = Some (k, e)).
    { apply list_find_Some. repeat split; auto.
      intros j e' He' Hj. eauto. }
    rewrite Hfind. destruct materials as [|e0 mats]; [discriminate|].
    eexists. split; [reflexivity|]. now simpl.
Qed.

(** C10. FindMaterial never writes the ambient colour, the ambient strength
    or the tag of its out-parameter, and leaves the out-parameter as it was
    when no registered entry has the tag. *)
Theorem FindMaterial_frame this tag_ material :
  vector_size (m_objectMaterials this) <= INT_MAX ->
  exists found material',
    FindMaterial this tag_ material = Some (found, material') /\
    ambientColor material' = ambientColor material /\
    ambientStrength material' = ambientStrength material /\
    tag material' = tag material /\
    (Forall (λ e, tag e <> tag_) (m_objectMaterials this) -> material' = material).
Proof.
  intros Hmax. rewrite (FindMaterial_spec _ _ _ Hmax).
  destruct (m_objectMaterials this) as [|e0 mats].
  - exists false, material. auto.
  - unfold first_material.
    destruct (list_find _ (e0 :: mats)) as [[k e]|] eqn:Hfind.
    + exists true, (copy_reflectance e material). repeat split.
      intros Hnone. apply (list_find_None (λ e, tag e = tag_)) in Hnone. congruence.
    + exists true, material. auto.
Qed.

(** ** Texture lookups: what the scans compute *)

Lemma registered_length this :
  registry_ok this -> length (registered this) = Z.to_nat (m_loadedTextures this).
Proof.
  intros [Hshape Hn]. unfold registered, array_shape in *.
  rewrite length_take. lia.
Qed.

Lemma registered_lookup this (i : nat) :
  (i < Z.to_nat (m_loadedTextures this))%nat ->
  registered this !! i = m_textureIDs this !! i.
Proof. intros Hi. unfold registered. now rewrite lookup_take_lt. Qed.

Lemma FindTextureID_while_scan this tag_ textureID (rest : nat) :
  registry_ok this ->
  forall i : nat,
    Z.to_nat (m_loadedTextures this) = (i + rest)%nat ->
    FindTextureID_while this tag_ textureID (Z.of_nat i) false =
    Some match first_texture this tag_ i with
         | Some (k, e) => (int_of_GLuint (Texture.ID e), Z.of_nat (i + k), true)
         | None => (textureID, m_loadedTextures this, false)
         end.
Proof.
  intros Hok. pose proof (registered_length this Hok) as Hlen.
  destruct Hok as [Hshape Hn]. unfold first_texture, MAX_TEXTURES in *.
  induction rest as [|rest IH]; intros i Hi.
  - rewrite FindTextureID_while_step.
    replace (Z.of_nat i <? m_loadedTextures this) with false
      by (symmetry; apply Z.ltb_ge; lia).
    rewrite drop_ge by lia. simpl. do 3 f_equal. lia.
  - destruct (lookup_lt_is_Some_2 (registered this) i) as [e He]; [lia|].
    rewrite FindTextureID_while_step.
    replace (Z.of_nat i <? m_loadedTextures this) with true
      by (symmetry; apply Z.ltb_lt; lia).
    rewrite subscript_of_nat, <- registered_lookup, He, (drop_S _ _ _ He) by lia.
    simpl. destruct (decide (Texture.tag e = tag_)) as [Heq|Hne].
    + apply compare_eqb in Heq as ->.
      rewrite FindTextureID_while_step, andb_false_r. simpl.
      now rewrite Nat.add_0_r.
    + apply compare_neqb in Hne as ->.
      rewrite int_incr_below by (unfold INT_MAX; lia).
      replace (Z.of_nat i + 1) with (Z.of_nat (S i)) by lia.
      rewrite IH by lia.
      destruct (list_find _ (drop (S i) (registered this))) as [[k e']|]; simpl;
        [do 3 f_equal; lia | reflexivity].
Qed.

Lemma FindTextureSlot_while_scan this tag_ textureSlot (rest : nat) :
  registry_ok this ->
  forall i : nat,
    Z.to_nat (m_loadedTextures this) = (i + rest)%nat ->
    FindTextureSlot_while this tag_ textureSlot (Z.of_nat i) false =
    Some match first_texture this tag_ i with
         | Some (k, e) => (Z.of_nat (i + k), Z.of_nat (i + k), true)
         | None => (textureSlot, m_loadedTextures this, false)
         end.
Proof.
  intros Hok. pose proof (registered_length this Hok) as Hlen.
  destruct Hok as [Hshape Hn]. unfold first_texture, MAX_TEXTURES in *.
  induction rest as [|rest IH]; intros i Hi.
  - rewrite FindTextureSlot_while_step.
    replace (Z.of_nat i <? m_loadedTextures this) with false
      by (symmetry; apply Z.ltb_ge; lia).
    rewrite drop_ge by lia. simpl. do 3 f_equal. lia.
  - destruct (lookup_lt_is_Some_2 (registered this) i) as [e He]; [lia|].
    rewrite FindTextureSlot_while_step.
    replace (Z.of_nat i <? m_loadedTextures this) with true
      by (symmetry; apply Z.ltb_lt; lia).
    rewrite subscript_of_nat, <- registered_lookup, He, (drop_S _ _ _ He) by lia.
    simpl. destruct (decide (Texture.tag e = tag_)) as [Heq|Hne].
    + apply compare_eqb in Heq as ->.
      rewrite FindTextureSlot_while_step, andb_false_r. simpl.
      now rewrite Nat.add_0_r.
    + apply compare_neqb in Hne as ->.
      rewrite int_incr_below by (unfold INT_MAX; lia).
      replace (Z.of_nat i + 1) with (Z.of_nat (S i)) by lia.
      rewrite IH by lia.
      destruct (list_find _ (drop (S i) (registered this))) as [[k e']|]; simpl;
        [repeat f_equal; lia | reflexivity].
Qed.

(** C4. FindTextureID and FindTextureSlot return the handle (as the [int]
    the function returns) and the index of the first registered entry with
    the tag, and -1, not undefined behaviour, when no registered entry has
    it. *)
Theorem FindTexture_first_match this tag_ :
  registry_ok this ->
  (forall k e,
     registered this !! k = Some e ->
     Texture.tag e = tag_ ->
     (forall j e', (j < k)%nat -> registered this !! j = Some e' ->
                   Texture.tag e' <> tag_) ->
     FindTextureID this tag_ = Some (int_of_GLuint (Texture.ID e)) /\
     (0 <= Texture.ID e < 2 ^ 31 -> FindTextureID this tag_ = Some (Texture.ID e)) /\
     FindTextureSlot this tag_ = Some (Z.of_nat k)) /\
  (Forall (λ e, Texture.tag e <> tag_) (registered this) ->
   FindTextureID this tag_ = Some (-1) /\ FindTextureSlot this tag_ = Some (-1)).
Proof.
  intros Hok. unfold FindTextureID, FindTextureSlot.
  change 0 with (Z.of_nat 0).
  rewrite (FindTextureID_while_scan _ _ _ (Z.to_nat (m_loadedTextures this)) Hok),
    (FindTextureSlot_while_scan _ _ _ (Z.to_nat (m_loadedTextures this)) Hok)
    by reflexivity.
  unfold first_texture. rewrite drop_0. split.
  - intros k e Hk Htag Hfirst.
    assert (Hfind : list_find (λ e, Texture.tag e = tag_) (registered this)
                    = Some (k, e)).
    { apply list_find_Some. repeat split; auto. intros j e' He' Hj. eauto. }
    rewrite Hfind. simpl. repeat split.
    intros Hsmall. now rewrite int_of_GLuint_small.
  - intros Hnone. apply (list_find_None (λ e, Texture.tag e = tag_)) in Hnone.
    now rewrite Hnone.
Qed.

(** ** OpenGL state: the effect of each call *)

Lemma with_current_texture_current f gl :
  current_texture (with_current_texture f gl) = current_texture gl.
Proof. reflexivity. Qed.

Lemma with_current_texture_object f gl name :
  current_texture gl = name ->
  texture_object (with_current_texture f gl) name = f (texture_object gl name).
Proof.
  intros <-. unfold texture_object, with_current_texture. simpl.
  now rewrite lookup_insert_eq.
Qed.

Lemma glBindTexture_current name gl :
  current_texture (glBindTexture GL_TEXTURE_2D name gl) = name.
Proof.
  unfold current_texture, bound_texture. simpl. now rewrite lookup_insert_eq.
Qed.

Lemma glBindTexture_bound name gl unit :
  bound_texture (glBindTexture GL_TEXTURE_2D name gl) unit =
  if decide (unit = gl_active_texture gl) then name else bound_texture gl unit.
Proof.
  unfold bound_texture. simpl. destruct (decide _) as [->|Hne].
  - now rewrite lookup_insert_eq.
  - now rewrite lookup_insert_ne.
Qed.

Lemma glActiveTexture_unit max_units (i : Z) gl :
  0 <= i < max_units ->
  gl_active_texture (glActiveTexture max_units (GL_TEXTURE0 + i) gl) = i.
Proof.
  intros Hi. unfold glActiveTexture.
  replace (GL_TEXTURE0 <=? GL_TEXTURE0 + i) with true
    by (symmetry; apply Z.leb_le; lia).
  replace (GL_TEXTURE0 + i <? GL_TEXTURE0 + max_units) with true
    by (symmetry; apply Z.ltb_lt; lia).
  simpl. lia.
Qed.

Lemma glActiveTexture_frame max_units texture gl :
  gl_names (glActiveTexture max_units texture gl) = gl_names gl /\
  gl_binding_2d (glActiveTexture max_units texture gl) = gl_binding_2d gl /\
  gl_textures (glActiveTexture max_units texture gl) = gl_textures gl.
Proof. unfold glActiveTexture. now destruct (_ && _). Qed.

Lemma glDeleteTextures_unused name gl :
  name ∉ gl_names (glDeleteTextures name gl).
Proof.
  unfold glDeleteTextures. simpl. intros Hin.
  apply list_elem_of_filter in Hin as [Hne _]. now apply Hne.
Qed.

Lemma upload_object gl name internalformat_ format_ image :
  current_texture gl = name ->
  let gl1 := glTexParameteri GL_TEXTURE_2D GL_TEXTURE_WRAP_S GL_REPEAT gl in
  let gl2 := glTexParameteri GL_TEXTURE_2D GL_TEXTURE_WRAP_T GL_REPEAT gl1 in
  let gl3 := glTexParameteri GL_TEXTURE_2D GL_TEXTURE_MIN_FILTER GL_LINEAR gl2 in
  let gl4 := glTexParameteri GL_TEXTURE_2D GL_TEXTURE_MAG_FILTER GL_LINEAR gl3 in
  let gl5 := glTexImage2D GL_TEXTURE_2D 0 internalformat_ (width image)
               (height image) 0 format_ GL_UNSIGNED_BYTE (pixels image) gl4 in
  let gl6 := glGenerateMipmap GL_TEXTURE_2D gl5 in
  let gl7 := glBindTexture GL_TEXTURE_2D 0 gl6 in
  texture_object gl7 name = uploaded_texture internalformat_ format_ image /\
  gl_names gl7 = gl_names gl /\
  gl_active_texture gl7 = gl_active_texture gl /\
  forall unit, unit <> gl_active_texture gl ->
               bound_texture gl7 unit = bound_texture gl unit.
Proof.
  intros Hcur. cbv zeta. repeat split.
  - change (texture_object (glBindTexture GL_TEXTURE_2D 0 ?g) name)
      with (texture_object g name).
    unfold glGenerateMipmap, glTexImage2D, glTexParameteri. simpl (0 =? 0).
    cbv iota.
    rewrite !with_current_texture_object
      by (rewrite ?with_current_texture_current; exact Hcur).
    reflexivity.
  - intros unit Hunit. rewrite glBindTexture_bound.
    destruct (decide _) as [Heq|_]; [contradiction|reflexivity].
Qed.

(** ** Assignments through a subscript *)

Lemma subscript_assign_in_range {A : Type} (v : list A) (i : Z) (f : A -> A) e :
  0 <= i -> v !! Z.to_nat i = Some e ->
  subscript_assign v i f = Some (<[Z.to_nat i := f e]> v).
Proof.
  intros Hi He. unfold subscript_assign, subscript.
  replace (i <? 0) with false by (symmetry; apply Z.ltb_ge; lia).
  now rewrite He.
Qed.

Lemma subscript_assign_out_of_range {A : Type} (v : list A) (i : Z) (f : A -> A) :
  i < 0 \/ Z.of_nat (length v) <= i -> subscript_assign v i f = None.
Proof.
  intros Hi. unfold subscript_assign, subscript.
  destruct (i <? 0) eqn:Hneg; [reflexivity|]. apply Z.ltb_ge in Hneg.
  rewrite lookup_ge_None_2; [reflexivity | lia].
Qed.

(** ** CreateGLTexture *)

Section CreateGLTexture_properties.
Variable stbi_load : string -> option Image.
Variable glGenName : list Z -> Z.

Lemma CreateGLTexture_success filename tag_ this gl image internalformat_ format_ :
  stbi_load filename = Some image ->
  accepted_channels image internalformat_ format_ ->
  array_shape this ->
  0 <= m_loadedTextures this < Z.of_nat MAX_TEXTURES ->
  exists gl',
    CreateGLTexture stbi_load glGenName filename tag_ this gl =
    Some (true, appended this (glGenName (gl_names gl)) tag_, gl') /\
    texture_object gl' (glGenName (gl_names gl)) =
    uploaded_texture internalformat_ format_ image /\
    gl_names gl' = glGenName (gl_names gl) :: gl_names gl /\
    gl_active_texture gl' = gl_active_texture gl /\
    forall unit, unit <> gl_active_texture gl ->
                 bound_texture gl' unit = bound_texture gl unit.
Proof.
  intros Hload Hch Hshape Hn. unfold array_shape, MAX_TEXTURES in *.
  destruct (lookup_lt_is_Some_2 (m_textureIDs this) (Z.to_nat (m_loadedTextures this)))
    as [e He]; [lia|].
  set (name := glGenName (gl_names gl)).
  set (gl0 := glBindTexture GL_TEXTURE_2D name (glGenTextures glGenName gl).2).
  destruct (upload_object gl0 name internalformat_ format_ image
              (glBindTexture_current _ _)) as (Hobj & Hnames & Hactive & Hbound).
  eexists. split; [|split; [exact Hobj|split; [exact Hnames|split; [exact Hactive|]]]].
  - unfold CreateGLTexture. rewrite Hload.
    change (glGenTextures glGenName gl) with (name, (glGenTextures glGenName gl).2).
    cbv iota beta. fold gl0.
    assert (Hup :
      (if colorChannels image =? 3
       then Some (glTexImage2D GL_TEXTURE_2D 0 GL_RGB8 (width image) (height image)
                    0 GL_RGB GL_UNSIGNED_BYTE (pixels image)
                    (glTexParameteri GL_TEXTURE_2D GL_TEXTURE_MAG_FILTER GL_LINEAR
                       (glTexParameteri GL_TEXTURE_2D GL_TEXTURE_MIN_FILTER GL_LINEAR
                          (glTexParameteri GL_TEXTURE_2D GL_TEXTURE_WRAP_T GL_REPEAT
                             (glTexParameteri GL_TEXTURE_2D GL_TEXTURE_WRAP_S
                                GL_REPEAT gl0)))))
       else if colorChannels image =? 4
       then Some (glTexImage2D GL_TEXTURE_2D 0 GL_RGBA8 (width image) (height image)
                    0 GL_RGBA GL_UNSIGNED_BYTE (pixels image)
                    (glTexParameteri GL_TEXTURE_2D GL_TEXTURE_MAG_FILTER GL_LINEAR
                       (glTexParameteri GL_TEXTURE_2D GL_TEXTURE_MIN_FILTER GL_LINEAR
                          (glTexParameteri GL_TEXTURE_2D GL_TEXTURE_WRAP_T GL_REPEAT
                             (glTexParameteri GL_TEXTURE_2D GL_TEXTURE_WRAP_S
                                GL_REPEAT gl0)))))
       else None)
      = Some (glTexImage2D GL_TEXTURE_2D 0 internalformat_ (width image)
                (height image) 0 format_ GL_UNSIGNED_BYTE (pixels image)
                (glTexParameteri GL_TEXTURE_2D GL_TEXTURE_MAG_FILTER GL_LINEAR
                   (glTexParameteri GL_TEXTURE_2D GL_TEXTURE_MIN_FILTER GL_LINEAR
                      (glTexParameteri GL_TEXTURE_2D GL_TEXTURE_WRAP_T GL_REPEAT
                         (glTexParameteri GL_TEXTURE_2D GL_TEXTURE_WRAP_S
                            GL_REPEAT gl0)))))).
    { destruct Hch as [(-> & -> & ->)|(-> & -> & ->)]; reflexivity. }
    rewrite Hup.
    rewrite (subscript_assign_in_range _ _ _ e) by (auto; lia).
    cbn [mbind option_bind].
    rewrite (subscript_assign_in_range _ _ _ (set_ID name e))
      by (try lia; apply list_lookup_insert_eq; lia).
    cbn [mbind option_bind].
    rewrite int_incr_below by (unfold INT_MAX; lia).
    cbn [mbind option_bind].
    rewrite list_insert_insert_eq. reflexivity.
  - intros unit Hunit. rewrite Hbound by exact Hunit.
    unfold gl0. rewrite glBindTexture_bound.
    destruct (decide _) as [Heq|_]; [contradiction|reflexivity].
Qed.

Lemma CreateGLTexture_overflow filename tag_ this gl image internalformat_ format_ :
  stbi_load filename = Some image ->
  accepted_channels image internalformat_ format_ ->
  m_loadedTextures this < 0 \/
  Z.of_nat (length (m_textureIDs this)) <= m_loadedTextures this ->
  CreateGLTexture stbi_load glGenName filename tag_ this gl = None.
Proof.
  intros Hload Hch Hn. unfold CreateGLTexture. rewrite Hload.
  destruct (glGenTextures glGenName gl) as [name gl0].
  rewrite subscript_assign_out_of_range by exact Hn.
  destruct Hch as [(-> & _)|(-> & _)]; reflexivity.
Qed.

Lemma CreateGLTexture_rejected filename tag_ this gl :
  (stbi_load filename = None ->
   CreateGLTexture stbi_load glGenName filename tag_ this gl
   = Some (false, this, gl)) /\
  (forall image,
     stbi_load filename = Some image ->
     colorChannels image <> 3 -> colorChannels image <> 4 ->
     exists gl',
       CreateGLTexture stbi_load glGenName filename tag_ this gl
       = Some (false, this, gl')).
Proof.
  unfold CreateGLTexture. split.
  - now intros ->.
  - intros image -> H3 H4. apply Z.eqb_neq in H3, H4.
    destruct (glGenTextures glGenName gl) as [name gl0].
    rewrite H3, H4. eauto.
Qed.

(** C5. With three channels CreateGLTexture registers an RGB texture and
    returns true, with four an RGBA texture; with any other count, or when
    the image cannot be decoded, it returns false and the table and its
    counter are as before. *)
Theorem CreateGLTexture_channels filename tag_ this gl :
  (forall image internalformat_ format_,
     stbi_load filename = Some image ->
     accepted_channels image internalformat_ format_ ->
     array_shape this ->
     0 <= m_loadedTextures this < Z.of_nat MAX_TEXTURES ->
     exists this' gl' e,
       CreateGLTexture stbi_load glGenName filename tag_ this gl
       = Some (true, this', gl') /\
       m_loadedTextures this' = m_loadedTextures this + 1 /\
       m_textureIDs this' !! Z.to_nat (m_loadedTextures this) = Some e /\
       Texture.tag e = tag_ /\
       level0 (texture_object gl' (Texture.ID e)) =
       Some {| internalformat := internalformat_;
               tex_width := width image; tex_height := height image;
               format := format_; type_ := GL_UNSIGNED_BYTE;
               texels := pixels image |}) /\
  (stbi_load filename = None ->
   CreateGLTexture stbi_load glGenName filename tag_ this gl
   = Some (false, this, gl)) /\
  (forall image,
     stbi_load filename = Some image ->
     colorChannels image <> 3 -> colorChannels image <> 4 ->
     exists gl',
       CreateGLTexture stbi_load glGenName filename tag_ this gl
       = Some (false, this, gl')).
Proof.
  split; [|apply CreateGLTexture_rejected].
  intros image internalformat_ format_ Hload Hch Hshape Hn.
  destruct (CreateGLTexture_success filename tag_ this gl image internalformat_
              format_ Hload Hch Hshape Hn) as (gl' & Hrun & Hobj & _).
  exists (appended this (glGenName (gl_names gl)) tag_), gl',
    {| Texture.ID := glGenName (gl_names gl); Texture.tag := tag_ |}.
  repeat split; [exact Hrun| |simpl; now rewrite Hobj].
  simpl. apply list_lookup_insert_eq.
  unfold array_shape, MAX_TEXTURES in *. lia.
Qed.

(** C9. CreateGLTexture checks no capacity: a successful load writes the
    entry at the counter's index and increments the counter, which is
    defined exactly when the counter is below the slot count; at or above
    it the write is outside the array. *)
Theorem CreateGLTexture_unguarded filename tag_ this gl image
    internalformat_ format_ :
  stbi_load filename = Some image ->
  accepted_channels image internalformat_ format_ ->
  array_shape this ->
  (0 <= m_loadedTextures this < Z.of_nat MAX_TEXTURES ->
   exists gl',
     CreateGLTexture stbi_load glGenName filename tag_ this gl
     = Some (true, appended this (glGenName (gl_names gl)) tag_, gl')) /\
  (Z.of_nat MAX_TEXTURES <= m_loadedTextures this ->
   CreateGLTexture stbi_load glGenName filename tag_ this gl = None) /\
  (CreateGLTexture stbi_load glGenName filename tag_ this gl <> None <->
   0 <= m_loadedTextures this < Z.of_nat MAX_TEXTURES).
Proof.
  intros Hload Hch Hshape.
  assert (Hin : 0 <= m_loadedTextures this < Z.of_nat MAX_TEXTURES ->
                exists gl',
                  CreateGLTexture stbi_load glGenName filename tag_ this gl
                  = Some (true, appended this (glGenName (gl_names gl)) tag_, gl')).
  { intros Hn.
    destruct (CreateGLTexture_success filename tag_ this gl image internalformat_
                format_ Hload Hch Hshape Hn) as (gl' & Hrun & _).
    eauto. }
  assert (Hout : m_loadedTextures this < 0 \/
                 Z.of_nat MAX_TEXTURES <= m_loadedTextures this ->
                 CreateGLTexture stbi_load glGenName filename tag_ this gl = None).
  { intros Hn. eapply CreateGLTexture_overflow; eauto.
    unfold array_shape in Hshape. rewrite Hshape. exact Hn. }
  repeat split; auto.
  - destruct (Z_lt_dec (m_loadedTextures this) 0); [|lia].
    exfalso. auto.
  - destruct (Z_lt_dec (m_loadedTextures this) (Z.of_nat MAX_TEXTURES)); [lia|].
    exfalso. apply H. apply Hout. lia.
  - intros Hn. destruct (Hin Hn) as [gl' ->]. discriminate.
Qed.
End CreateGLTexture_properties.

(** ** BindGLTextures *)

Section BindGLTextures_properties.
Variable GL_MAX_COMBINED_TEXTURE_IMAGE_UNITS : Z.

Lemma bind_unit_spec this (i : nat) gl e :
  Z.of_nat i < GL_MAX_COMBINED_TEXTURE_IMAGE_UNITS ->
  m_textureIDs this !! i = Some e ->
  exists gl',
    bind_unit GL_MAX_COMBINED_TEXTURE_IMAGE_UNITS this (Z.of_nat i) gl = Some gl' /\
    gl_names gl' = gl_names gl /\
    gl_textures gl' = gl_textures gl /\
    forall unit,
      bound_texture gl' unit =
      if decide (unit = Z.of_nat i) then Texture.ID e else bound_texture gl unit.
Proof.
  intros Hi He. unfold bind_unit. rewrite subscript_of_nat, He.
  eexists. split; [reflexivity|].
  destruct (glActiveTexture_frame GL_MAX_COMBINED_TEXTURE_IMAGE_UNITS
              (GL_TEXTURE0 + Z.of_nat i) gl) as (Hnames & Hbinding & Htextures).
  split; [exact Hnames|]. split; [exact Htextures|].
  intros unit. rewrite glBindTexture_bound, glActiveTexture_unit by lia.
  unfold bound_texture. now rewrite Hbinding.
Qed.

Lemma bind_loop_spec this (count : nat) :
  forall (i : nat) gl,
    (i + count <= length (m_textureIDs this))%nat ->
    Z.of_nat (i + count) <= GL_MAX_COMBINED_TEXTURE_IMAGE_UNITS ->
    exists gl',
      for_loop count (Z.of_nat i) (bind_unit GL_MAX_COMBINED_TEXTURE_IMAGE_UNITS this) gl = Some gl' /\
      gl_names gl' = gl_names gl /\
      gl_textures gl' = gl_textures gl /\
      (forall (j : nat) e,
         (i <= j < i + count)%nat -> m_textureIDs this !! j = Some e ->
         bound_texture gl' (Z.of_nat j) = Texture.ID e) /\
      (forall unit,
         unit < Z.of_nat i \/ Z.of_nat (i + count) <= unit ->
         bound_texture gl' unit = bound_texture gl unit).
Proof.
  induction count as [|count IH]; intros i gl Hlen Hmax.
  - exists gl. repeat split; auto. intros j e Hj. lia.
  - destruct (lookup_lt_is_Some_2 (m_textureIDs this) i) as [e He]; [lia|].
    destruct (bind_unit_spec this i gl e) as (gl1 & Hstep & Hnames1 & Htex1 & Hbound1);
      [lia|exact He|].
    destruct (IH (S i) gl1) as (gl' & Hrun & Hnames & Htex & Hin & Hout); [lia..|].
    exists gl'. simpl. rewrite Hstep. simpl.
    replace (Z.of_nat i + 1) with (Z.of_nat (S i)) by lia.
    split; [exact Hrun|]. split; [congruence|]. split; [congruence|]. split.
    + intros j e' Hj He'. destruct (decide (j = i)) as [->|Hne].
      * rewrite Hout by lia. rewrite Hbound1.
        destruct (decide _) as [_|Hne]; [congruence|contradiction].
      * apply Hin; [lia|exact He'].
    + intros unit Hunit. rewrite Hout by lia. rewrite Hbound1.
      destruct (decide _) as [Heq|_]; [lia|reflexivity].
Qed.

Lemma BindGLTextures_spec this gl :
  registry_ok this ->
  Z.of_nat MAX_TEXTURES <= GL_MAX_COMBINED_TEXTURE_IMAGE_UNITS ->
  exists gl',
    BindGLTextures GL_MAX_COMBINED_TEXTURE_IMAGE_UNITS this gl = Some gl' /\
    gl_names gl' = gl_names gl /\
    gl_textures gl' = gl_textures gl /\
    (forall (i : nat) e,
       registered this !! i = Some e ->
       bound_texture gl' (Z.of_nat i) = Texture.ID e) /\
    (forall unit,
       unit < 0 \/ m_loadedTextures this <= unit ->
       bound_texture gl' unit = bound_texture gl unit).
Proof.
  intros [Hshape Hn] Hmax. unfold array_shape, MAX_TEXTURES in *.
  destruct (bind_loop_spec this (Z.to_nat (m_loadedTextures this)) 0%nat gl)
    as (gl' & Hrun & Hnames & Htex & Hin & Hout); [simpl; lia..|].
  exists gl'. repeat split; auto.
  - intros i e Hi. apply lookup_take_Some in Hi as [He Hi].
    apply Hin; [lia|exact He].
  - intros unit Hunit. apply Hout. lia.
Qed.

(** C6. BindGLTextures binds the registered textures to the texture units
    from unit 0 on, in registration order: unit [i] holds the handle of the
    [i]-th registered entry. *)
Theorem BindGLTextures_sequential this gl :
  registry_ok this ->
  Z.of_nat MAX_TEXTURES <= GL_MAX_COMBINED_TEXTURE_IMAGE_UNITS ->
  exists gl',
    BindGLTextures GL_MAX_COMBINED_TEXTURE_IMAGE_UNITS this gl = Some gl' /\
    forall (i : nat) e,
      (Z.of_nat i < m_loadedTextures this) ->
      m_textureIDs this !! i = Some e ->
      bound_texture gl' (Z.of_nat i) = Texture.ID e.
Proof.
  intros Hok Hmax.
  destruct (BindGLTextures_spec this gl Hok Hmax) as (gl' & Hrun & _ & _ & Hin & _).
  exists gl'. split; [exact Hrun|].
  intros i e Hi He. apply Hin. rewrite registered_lookup by lia. exact He.
Qed.
End BindGLTextures_properties.

(** ** DestroyGLTextures *)

Section DestroyGLTextures_properties.
Variable glGenName : list Z -> Z.

Lemma regenerate_loop_spec (count : nat) :
  forall (i : nat) ids gl,
    (forall used, glGenName used ∉ used) ->
    (i + count <= length ids)%nat ->
    exists ids' gl',
      for_loop count (Z.of_nat i) (regenerate glGenName) (ids, gl) = Some (ids', gl') /\
      length ids' = length ids /\
      gl_names gl ⊆ gl_names gl' /\
      gl_textures gl' = gl_textures gl /\
      gl_binding_2d gl' = gl_binding_2d gl /\
      gl_active_texture gl' = gl_active_texture gl /\
      (forall (j : nat) e,
         (i <= j < i + count)%nat -> ids !! j = Some e ->
         exists name,
           ids' !! j = Some (set_ID name e) /\
           (name ∉ gl_names gl) /\ (name ∈ gl_names gl')) /\
      (forall j : nat, (j < i \/ i + count <= j)%nat -> ids' !! j = ids !! j).
Proof.
  induction count as [|count IH]; intros i ids gl Hfresh Hlen.
  - exists ids, gl. repeat split; auto. intros j e Hj. lia.
  - destruct (lookup_lt_is_Some_2 ids i) as [e He]; [lia|].
    set (name := glGenName (gl_names gl)).
    set (gl1 := (glGenTextures glGenName gl).2).
    set (ids1 := <[i := set_ID name e]> ids).
    assert (Hstep : regenerate glGenName (Z.of_nat i) (ids, gl) = Some (ids1, gl1)).
    { unfold regenerate, glGenTextures. fold name.
      rewrite (subscript_assign_in_range _ _ _ e) by (rewrite ?Nat2Z.id; auto; lia).
      now rewrite Nat2Z.id. }
    destruct (IH (S i) ids1 gl1 Hfresh)
      as (ids' & gl' & Hrun & Hlen' & Hnames & Htex & Hbind & Hact & Hin & Hout).
    { unfold ids1. rewrite length_insert. lia. }
    exists ids', gl'. cbn [for_loop]. rewrite Hstep. cbn [mbind option_bind].
    replace (Z.of_nat i + 1) with (Z.of_nat (S i)) by lia.
    split; [exact Hrun|].
    split; [unfold ids1 in Hlen'; now rewrite length_insert in Hlen'|].
    split; [intros n Hn; apply Hnames; simpl; now right|].
    split; [exact Htex|]. split; [exact Hbind|]. split; [exact Hact|]. split.
    + intros j e' Hj He'. destruct (decide (j = i)) as [->|Hne].
      * exists name. rewrite Hout by lia. unfold ids1.
        rewrite list_lookup_insert_eq by lia.
        replace e' with e by congruence.
        repeat split; [apply Hfresh|apply Hnames; simpl; now left].
      * destruct (Hin j e') as (name' & Hj' & Hnew & Hused); [lia| |].
        { unfold ids1. now rewrite list_lookup_insert_ne. }
        exists name'. repeat split; auto.
        intros Hold. apply Hnew. simpl. now right.
    + intros j Hj. rewrite Hout by lia. unfold ids1.
      apply list_lookup_insert_ne. lia.
Qed.

(** C8. DestroyGLTextures overwrites the handle of every registered entry
    with a newly generated name; no name that was in use is released, no
    texture object is removed, and the counter keeps its value. *)
Theorem DestroyGLTextures_regenerates this gl :
  (forall used, glGenName used ∉ used) ->
  registry_ok this ->
  exists this' gl',
    DestroyGLTextures glGenName this gl = Some (this', gl') /\
    m_loadedTextures this' = m_loadedTextures this /\
    gl_names gl ⊆ gl_names gl' /\
    gl_textures gl' = gl_textures gl /\
    forall (i : nat) e,
      Z.of_nat i < m_loadedTextures this ->
      m_textureIDs this !! i = Some e ->
      exists e',
        m_textureIDs this' !! i = Some e' /\
        Texture.tag e' = Texture.tag e /\
        (Texture.ID e' ∉ gl_names gl) /\
        (Texture.ID e' ∈ gl_names gl').
Proof.
  intros Hfresh [Hshape Hn]. unfold array_shape, MAX_TEXTURES in *.
  destruct (regenerate_loop_spec (Z.to_nat (m_loadedTextures this)) 0%nat
              (m_textureIDs this) gl Hfresh)
    as (ids' & gl' & Hrun & Hlen & Hnames & Htex & _ & _ & Hin & _); [simpl; lia|].
  exists (with_textures this ids' (m_loadedTextures this)), gl'.
  split.
  - unfold DestroyGLTextures, for_upto.
    change (for_loop (Z.to_nat (m_loadedTextures this)) 0 _ (m_textureIDs this, gl))
      with (for_loop (Z.to_nat (m_loadedTextures this)) (Z.of_nat 0)
              (regenerate glGenName)
              (m_textureIDs this, gl)).
    now rewrite Hrun.
  - repeat split; auto.
    intros i e Hi He. destruct (Hin i e) as (name & Hi' & Hnew & Hused); [lia|exact He|].
    exists (set_ID name e). auto.
Qed.
End DestroyGLTextures_properties.

(** ** SetTransformations *)

(** *** binary32 arithmetic with 0 and 1 *)

Lemma same_value_refl a : same_value a a.
Proof. now destruct a. Qed.

Lemma same_value_trans a b c : same_value a b -> same_value b c -> same_value a c.
Proof. destruct a, b, c; simpl; try congruence; try tauto; try discriminate. Qed.

Lemma same_value_binary32 a b : same_value a b -> binary32 b -> binary32 a.
Proof. destruct a, b; simpl; try congruence; try discriminate; try tauto; intros [= -> -> ->]; auto. Qed.

Lemma mul_finite a b : finite (Float.mul a b) -> finite a /\ finite b.
Proof. destruct a, b; simpl; tauto. Qed.

Lemma add_finite a b : finite (Float.add a b) -> finite a /\ finite b.
Proof. destruct a as [[]|[]| |], b as [[]|[]| |]; simpl; tauto. Qed.

Lemma mul_zero_r a s : finite a -> exists s', Float.mul a (S754_zero s) = S754_zero s'.
Proof. destruct a; simpl; try tauto; eauto. Qed.

Lemma mul_zero_l a s : finite a -> exists s', Float.mul (S754_zero s) a = S754_zero s'.
Proof. destruct a; simpl; try tauto; eauto. Qed.

Lemma add_zero_r a s : same_value (Float.add a (S754_zero s)) a.
Proof. destruct a as [[]|[]| |], s; simpl; auto. Qed.

Lemma add_zero_l a s : same_value (Float.add (S754_zero s) a) a.
Proof. destruct a as [[]|[]| |], s; simpl; auto. Qed.

Lemma one_bits : Float.one = S754_finite false 8388608 (-23).
Proof. reflexivity. Qed.

Lemma digits2_pos_shift m :
  Zpos (digits2_pos (8388608 * m)) = Zpos (digits2_pos m) + 23.
Proof. cbv [Pos.mul]. cbn [digits2_pos]. lia. Qed.

Lemma shr_23 m :
  SpecFloat.iter_pos shr_1 23 (shr_record_of_loc (Zpos (8388608 * m)) loc_Exact)
  = {| shr_m := Zpos m; shr_r := false; shr_s := false |}.
Proof. reflexivity. Qed.

Lemma round_shifted s m e :
  binary32 (S754_finite s m e) ->
  binary_round_aux Float.prec Float.emax s (Zpos (8388608 * m)) (e - 23) loc_Exact
  = S754_finite s m e.
Proof.
  unfold binary32, valid_binary, bounded, canonical_mantissa, Float.prec, Float.emax.
  intros Hvalid. apply andb_true_iff in Hvalid as [Hcan Hmax].
  apply Z.eqb_eq in Hcan. 
  unfold binary_round_aux, shr_fexp.
  assert (Hshift : fexp 24 128 (Zdigits2 (Zpos (8388608 * m)) + (e - 23)) - (e - 23) = 23).
  { unfold Zdigits2. rewrite digits2_pos_shift. unfold fexp, emin in *. lia. }
  rewrite Hshift.
  assert (Hfirst : shr (shr_record_of_loc (Zpos (8388608 * m)) loc_Exact) (e - 23) 23
                   = ({| shr_m := Zpos m; shr_r := false; shr_s := false |}, e)).
  { unfold shr. rewrite shr_23. f_equal. lia. }
  rewrite Hfirst. cbn [shr_m loc_of_shr_record round_nearest_even].
  assert (Hnone : fexp 24 128 (Zdigits2 (Zpos m) + e) - e = 0).
  { unfold Zdigits2. lia. }
  rewrite Hnone. cbn [shr shr_record_of_loc shr_m]. now rewrite Hmax.
Qed.

Lemma mul_one_l a : binary32 a -> finite a -> Float.mul Float.one a = a.
Proof.
  intros Hvalid Hfin. destruct a as [s| | |s m e]; try contradiction;
    [reflexivity|].
  rewrite one_bits. unfold Float.mul, SFmul.
  replace (-23 + e) with (e - 23) by lia. cbn [xorb].
  now apply round_shifted.
Qed.

Lemma mul_one_r a : binary32 a -> finite a -> Float.mul a Float.one = a.
Proof.
  intros Hvalid Hfin. destruct a as [s| | |s m e]; try contradiction;
    [now destruct s|].
  rewrite one_bits. unfold Float.mul, SFmul.
  rewrite Pos.mul_comm, xorb_false_r.
  replace (e + -23) with (e - 23) by lia.
  now apply round_shifted.
Qed.

Lemma sum_zeros_0 r s1 s2 s3 :
  same_value (r + S754_zero s1 + S754_zero s2 + S754_zero s3)%flt r.
Proof. destruct r as [[]|[]| |], s1, s2, s3; simpl; auto. Qed.

Lemma sum_zeros_1 r s1 s2 s3 :
  same_value (S754_zero s1 + r + S754_zero s2 + S754_zero s3)%flt r.
Proof. destruct r as [[]|[]| |], s1, s2, s3; simpl; auto. Qed.

Lemma sum_zeros_2 r s1 s2 s3 :
  same_value (S754_zero s1 + S754_zero s2 + r + S754_zero s3)%flt r.
Proof. destruct r as [[]|[]| |], s1, s2, s3; simpl; auto. Qed.

Lemma sum_zeros_3 r s1 s2 s3 :
  same_value (S754_zero s1 + S754_zero s2 + S754_zero s3 + r)%flt r.
Proof. destruct r as [[]|[]| |], s1, s2, s3; simpl; auto. Qed.

Lemma vec4_same_trans a b c : vec4_same a b -> vec4_same b c -> vec4_same a c.
Proof.
  intros (? & ? & ? & ?) (? & ? & ? & ?).
  repeat split; eapply same_value_trans; eauto.
Qed.

Lemma vec4_same_binary32 a b : vec4_same a b -> binary32_vec4 b -> binary32_vec4 a.
Proof.
  intros (? & ? & ? & ?) (? & ? & ? & ?).
  repeat split; eapply same_value_binary32; eauto.
Qed.

Ltac finite_factors :=
  repeat match goal with
         | H : _ /\ _ |- _ => destruct H
         | H : finite (Float.add _ _) |- _ => apply add_finite in H
         | H : finite (Float.mul _ _) |- _ => apply mul_finite in H
         end.

Lemma mat4_mul_finite m n :
  finite_mat4 (m *m n) -> finite_mat4 m /\ finite_mat4 n.
Proof.
  destruct m as [[] [] [] []], n as [[] [] [] []].
  unfold finite_mat4, finite_vec4, glm.mat4_mul, glm.vec4_plus, glm.vec4_times.
  cbn [col0 col1 col2 col3 x4 y4 z4 w4]. intros H. finite_factors.
  repeat split; assumption.
Qed.

Lemma translate_finite v :
  finite_mat4 (glm.translate v) -> finite (x3 v) /\ finite (y3 v) /\ finite (z3 v).
Proof.
  destruct v. unfold finite_mat4, finite_vec4, glm.translate, glm.mat4_diag,
    glm.vec4_plus, glm.vec4_times.
  cbn [col0 col1 col2 col3 x4 y4 z4 w4 x3 y3 z3]. intros H. finite_factors.
  repeat split; assumption.
Qed.

Lemma scale_finite v :
  finite_mat4 (glm.scale v) -> finite (x3 v) /\ finite (y3 v) /\ finite (z3 v).
Proof.
  destruct v. unfold finite_mat4, finite_vec4, glm.scale, glm.mat4_diag,
    glm.vec4_times.
  cbn [col0 col1 col2 col3 x4 y4 z4 w4 x3 y3 z3]. intros H. finite_factors.
  repeat split; assumption.
Qed.

Ltac zero_products :=
  repeat match goal with
         | H : finite ?a |- context [Float.mul ?a (S754_zero ?s)] =>
             let s' := fresh "s" in
             let E := fresh "E" in
             destruct (mul_zero_r a s H) as [s' E]; rewrite E; clear E
         | H : finite ?a |- context [Float.mul (S754_zero ?s) ?a] =>
             let s' := fresh "s" in
             let E := fresh "E" in
             destruct (mul_zero_l a s H) as [s' E]; rewrite E; clear E
         end.

(** The last column of a product with a matrix whose last column is
    (0, 0, 0, 1). *)
Lemma mat4_mul_col3 m n p :
  col3 n = col3 (glm.mat4_diag Float.one) ->
  finite_mat4 m ->
  vec4_same (col3 m) p ->
  binary32_vec4 p ->
  vec4_same (col3 (m *m n)) p.
Proof.
  intros Hn Hm Hp Hvalid.
  pose proof (vec4_same_binary32 _ _ Hp Hvalid) as Hvalid3.
  apply (vec4_same_trans _ (col3 m)); [|exact Hp].
  destruct m as [[] [] [] []]. unfold glm.mat4_mul. cbn [col3]. rewrite Hn.
  unfold finite_mat4, finite_vec4, binary32_vec4, vec4_same, glm.mat4_diag,
    glm.vec4_plus, glm.vec4_times, Float.zero in *.
  cbn [col0 col1 col2 col3 x4 y4 z4 w4] in *.
  finite_factors. zero_products.
  rewrite !mul_one_r by assumption.
  repeat split; apply sum_zeros_3.
Qed.

Lemma translate_col3 v :
  binary32_vec3 v ->
  finite (x3 v) -> finite (y3 v) -> finite (z3 v) ->
  vec4_same (col3 (glm.translate v)) (Vec4 (x3 v) (y3 v) (z3 v) Float.one).
Proof.
  destruct v as [x y z]. unfold binary32_vec3, glm.translate, glm.mat4_diag,
    glm.vec4_plus, glm.vec4_times, vec4_same, Float.zero.
  cbn [col0 col1 col2 col3 x4 y4 z4 w4 x3 y3 z3].
  intros (Hx & Hy & Hz) Fx Fy Fz. zero_products.
  rewrite !mul_one_l by assumption.
  split; [apply sum_zeros_0|]. split; [apply sum_zeros_1|].
  split; [apply sum_zeros_2|apply sum_zeros_3].
Qed.

(** The first three columns of a product with a scale matrix. *)
Lemma mat4_mul_scale m v :
  finite_mat4 m ->
  binary32_vec3 v ->
  finite (x3 v) -> finite (y3 v) -> finite (z3 v) ->
  vec4_same (col0 (m *m glm.scale v)) (glm.vec4_times (col0 m) (x3 v)) /\
  vec4_same (col1 (m *m glm.scale v)) (glm.vec4_times (col1 m) (y3 v)) /\
  vec4_same (col2 (m *m glm.scale v)) (glm.vec4_times (col2 m) (z3 v)).
Proof.
  destruct m as [[] [] [] []], v as [x y z].
  unfold finite_mat4, finite_vec4, binary32_vec3, glm.mat4_mul, glm.scale,
    glm.mat4_diag, glm.vec4_plus, glm.vec4_times, vec4_same, Float.zero.
  cbn [col0 col1 col2 col3 x4 y4 z4 w4 x3 y3 z3].
  intros Hm (Hx & Hy & Hz) Fx Fy Fz. finite_factors.
  rewrite !mul_one_l by assumption. zero_products. zero_products.
  repeat split; first [apply sum_zeros_0|apply sum_zeros_1|apply sum_zeros_2].
Qed.

Section SetTransformations_properties.
Variables cosf sinf : float -> float.


Lemma radians_zero : glm.radians Float.zero = Float.zero.
Proof. reflexivity. Qed.

Lemma rotate_zero (axis : vec3) :
  cosf Float.zero = Float.one ->
  sinf Float.zero = Float.zero ->
  axis ∈ [Vec3 Float.one Float.zero Float.zero;
          Vec3 Float.zero Float.one Float.zero;
          Vec3 Float.zero Float.zero Float.one] ->
  glm.rotate cosf sinf Float.zero axis = glm.mat4_diag Float.one.
Proof.
  intros Hcos Hsin Haxis. unfold glm.rotate. rewrite Hcos, Hsin.
  repeat (apply elem_of_cons in Haxis as [->|Haxis]); [vm_compute; reflexivity..|].
  now apply elem_of_nil in Haxis.
Qed.

(** C7. With scale (1,1,1), the three angles 0 and translation (0,0,0),
    SetTransformations writes the identity matrix. *)
Theorem SetTransformations_identity this sh :
  cosf Float.zero = Float.one ->
  sinf Float.zero = Float.zero ->
  m_pShaderManager this = Some sh ->
  exists sh',
    m_pShaderManager
      (SetTransformations cosf sinf (Vec3 Float.one Float.one Float.one)
         Float.zero Float.zero Float.zero
         (Vec3 Float.zero Float.zero Float.zero) this) = Some sh' /\
    mat4Values sh' !! g_ModelName = Some (glm.mat4_diag Float.one).
Proof.
  intros Hcos Hsin Hsh. unfold SetTransformations. rewrite Hsh.
  rewrite radians_zero, !rotate_zero by (auto; set_solver).
  eexists. split; [reflexivity|]. unfold setMat4Value. cbn [mat4Values].
  rewrite lookup_insert_eq. vm_compute. reflexivity.
Qed.
End SetTransformations_properties.

(** ** The wall and floor scenario *)

Lemma appended_ok this textureID tag_ :
  array_shape this ->
  0 <= m_loadedTextures this < Z.of_nat MAX_TEXTURES ->
  registry_ok (appended this textureID tag_).
Proof.
  intros Hshape Hn. unfold registry_ok, array_shape, appended in *. simpl.
  rewrite length_insert. lia.
Qed.

(** Registering "wall" and then "floor" in an empty table and binding:
    unit 0 holds the handle of "wall", unit 1 the handle of "floor". *)
Lemma wall_floor_binding stbi_load glGenName max_units this gl wall floor
    wall_internal wall_format floor_internal floor_format :
  array_shape this ->
  m_loadedTextures this = 0 ->
  Z.of_nat MAX_TEXTURES <= max_units ->
  stbi_load "textures/wall.jpg"%string = Some wall ->
  accepted_channels wall wall_internal wall_format ->
  stbi_load "textures/wood.jpg"%string = Some floor ->
  accepted_channels floor floor_internal floor_format ->
  exists this1 gl1 this2 gl2 gl3,
    CreateGLTexture stbi_load glGenName "textures/wall.jpg" "wall" this gl
    = Some (true, this1, gl1) /\
    CreateGLTexture stbi_load glGenName "textures/wood.jpg" "floor" this1 gl1
    = Some (true, this2, gl2) /\
    BindGLTextures max_units this2 gl2 = Some gl3 /\
    bound_texture gl3 0 = glGenName (gl_names gl) /\
    bound_texture gl3 1 = glGenName (glGenName (gl_names gl) :: gl_names gl).
Proof.
  intros Hshape Hzero Hmax Hwall Hwall_ch Hfloor Hfloor_ch.
  assert (Hshape' := Hshape). unfold array_shape, MAX_TEXTURES in Hshape'.
  destruct (CreateGLTexture_success stbi_load glGenName _ "wall" this gl _ _ _
              Hwall Hwall_ch Hshape) as (gl1 & Hrun1 & _ & Hnames1 & _);
    [unfold MAX_TEXTURES; lia|].
  set (this1 := appended this (glGenName (gl_names gl)) "wall") in *.
  assert (Hok1 : registry_ok this1)
    by (apply appended_ok; [exact Hshape | unfold MAX_TEXTURES; lia]).
  assert (Hn1 : m_loadedTextures this1 = 1) by (simpl; lia).
  destruct (CreateGLTexture_success stbi_load glGenName _ "floor" this1 gl1 _ _ _
              Hfloor Hfloor_ch (proj1 Hok1)) as (gl2 & Hrun2 & _);
    [rewrite Hn1; unfold MAX_TEXTURES; lia|].
  set (this2 := appended this1 (glGenName (gl_names gl1)) "floor") in *.
  assert (Hok2 : registry_ok this2)
    by (apply appended_ok; [exact (proj1 Hok1) | rewrite Hn1; unfold MAX_TEXTURES; lia]).
  destruct (BindGLTextures_spec max_units this2 gl2 Hok2 Hmax)
    as (gl3 & Hrun3 & _ & _ & Hin & _).
  exists this1, gl1, this2, gl2, gl3.
  split; [exact Hrun1|]. split; [exact Hrun2|]. split; [exact Hrun3|].
  split.
  - change 0 with (Z.of_nat 0).
    rewrite (Hin 0%nat {| Texture.ID := glGenName (gl_names gl); Texture.tag := "wall" |});
      [reflexivity|].
    unfold registered, this2, this1, appended. simpl. rewrite Hzero. simpl.
    destruct (m_textureIDs this) as [|e0 ids]; [discriminate|]. reflexivity.
  - change 1 with (Z.of_nat 1).
    rewrite (Hin 1%nat {| Texture.ID := glGenName (gl_names gl1); Texture.tag := "floor" |});
      [simpl; now rewrite Hnames1|].
    unfold registered, this2, this1, appended. simpl. rewrite Hzero. simpl.
    destruct (m_textureIDs this) as [|e0 [|e1 ids]]; [discriminate..|]. reflexivity.
Qed.

(** ** The sample collaborators meet the assumptions *)

Lemma next_name_above (used : list Z) n : n ∈ used -> n < next_name used.
Proof.
  unfold next_name. induction used as [|m used IH]; intros Hin.
  - now apply elem_of_nil in Hin.
  - apply elem_of_cons in Hin as [->|Hin]; simpl; [lia|].
    specialize (IH Hin). lia.
Qed.

Lemma next_name_fresh (used : list Z) : next_name used ∉ used.
Proof. intros Hin. apply next_name_above in Hin. lia. Qed.

Lemma cos_poly_zero : cos_poly Float.zero = Float.one.
Proof. reflexivity. Qed.

Lemma sin_poly_zero : sin_poly Float.zero = Float.zero.
Proof. reflexivity. Qed.

Lemma two_textures_ok : registry_ok two_textures.
Proof. split; [reflexivity | simpl; unfold MAX_TEXTURES; lia]. Qed.

(** [radians_per_degree] is within half a unit in the last place of the
    decimal literal in glm::radians. *)
Lemma radians_per_degree_nearest :
  glm.radians_per_degree = S754_finite false 9370165 (-29) /\
  2 * Z.abs (9370165 * 10 ^ 32 - 1745329251994329576923690768489 * 2 ^ 29)
  <= 10 ^ 32.
Proof. split; [reflexivity | vm_compute; discriminate]. Qed.

(** ** The theorems at sample inputs *)

Lemma FindMaterial_result_witness :
  FindMaterial (DefineObjectMaterials empty_scene) "velvet" metalMaterial
  = Some (true, metalMaterial).
Proof.
  apply (FindMaterial_result (DefineObjectMaterials empty_scene) "velvet"
           metalMaterial).
  - vm_compute. discriminate.
  - discriminate.
  - repeat (constructor; [discriminate|]). constructor.
Defined.


Lemma FindMaterial_first_registered_witness :
  FindMaterial empty_scene "floor" metalMaterial = Some (false, metalMaterial) /\
  exists material',
    FindMaterial
      (register_materials empty_scene [metalMaterial; floorMaterial; secondFloor])
      "floor" metalMaterial = Some (true, material') /\
    diffuseColor material' = diffuseColor floorMaterial /\
    specularColor material' = specularColor floorMaterial /\
    shininess material' = shininess floorMaterial.
Proof.
  apply (FindMaterial_first_registered empty_scene
           [metalMaterial; floorMaterial; secondFloor] "floor" metalMaterial
           1%nat floorMaterial).
  - reflexivity.
  - vm_compute. discriminate.
  - reflexivity.
  - reflexivity.
  - intros j e' Hj He'. destruct j as [|j]; [|lia].
    injection He' as <-. discriminate.
Defined.

Lemma FindTexture_first_match_witness :
  FindTextureID two_textures "floor" = Some 2 /\
  FindTextureSlot two_textures "floor" = Some 1 /\
  FindTextureID two_textures "stone" = Some (-1) /\
  FindTextureSlot two_textures "stone" = Some (-1).
Proof.
  destruct (FindTexture_first_match two_textures "floor" two_textures_ok)
    as [Hfound _].
  destruct (FindTexture_first_match two_textures "stone" two_textures_ok)
    as [_ Hmissing].
  destruct (Hfound 1%nat floor_entry) as (_ & Hid & Hslot).
  - reflexivity.
  - reflexivity.
  - intros j e' Hj He'. destruct j as [|j]; [|lia].
    injection He' as <-. discriminate.
  - destruct Hmissing as [Hid' Hslot'].
    + repeat (constructor; [discriminate|]). constructor.
    + split; [apply Hid; simpl; lia|].
      split; [exact Hslot|]. split; [exact Hid'|exact Hslot'].
Defined.

Lemma CreateGLTexture_channels_witness :
  exists this' gl' e,
    CreateGLTexture sample_decoder next_name "textures/wall.jpg" "wall"
      empty_scene fresh_gl = Some (true, this', gl') /\
    m_loadedTextures this' = 0 + 1 /\
    m_textureIDs this' !! 0%nat = Some e /\
    Texture.tag e = "wall"%string /\
    level0 (texture_object gl' (Texture.ID e)) =
    Some {| internalformat := GL_RGB8; tex_width := 1; tex_height := 1;
            format := GL_RGB; type_ := GL_UNSIGNED_BYTE;
            texels := [200; 180; 160] |}.
Proof.
  destruct (CreateGLTexture_channels sample_decoder next_name
              "textures/wall.jpg" "wall" empty_scene fresh_gl) as [Hok _].
  apply (Hok {| width := 1; height := 1; colorChannels := 3;
                pixels := [200; 180; 160] |} GL_RGB8 GL_RGB).
  - reflexivity.
  - left. repeat split.
  - reflexivity.
  - simpl. unfold MAX_TEXTURES. lia.
Defined.

Lemma BindGLTextures_sequential_witness :
  exists gl',
    BindGLTextures 32 two_textures fresh_gl = Some gl' /\
    forall (i : nat) e,
      Z.of_nat i < 2 ->
      m_textureIDs two_textures !! i = Some e ->
      bound_texture gl' (Z.of_nat i) = Texture.ID e.
Proof.
  apply (BindGLTextures_sequential 32 two_textures fresh_gl).
  - exact two_textures_ok.
  - unfold MAX_TEXTURES. lia.
Defined.

Lemma SetTransformations_identity_witness :
  exists sh',
    m_pShaderManager
      (SetTransformations cos_poly sin_poly (Vec3 Float.one Float.one Float.one)
         Float.zero Float.zero Float.zero
         (Vec3 Float.zero Float.zero Float.zero) empty_scene) = Some sh' /\
    mat4Values sh' !! g_ModelName = Some (glm.mat4_diag Float.one).
Proof.
  apply (SetTransformations_identity cos_poly sin_poly empty_scene
           {| mat4Values := ∅ |}).
  - reflexivity.
  - reflexivity.
  - reflexivity.
Defined.

Lemma DestroyGLTextures_regenerates_witness :
  exists this' gl',
    DestroyGLTextures next_name two_textures fresh_gl = Some (this', gl') /\
    m_loadedTextures this' = 2 /\
    gl_names fresh_gl ⊆ gl_names gl' /\
    gl_textures gl' = gl_textures fresh_gl /\
    forall (i : nat) e,
      Z.of_nat i < 2 ->
      m_textureIDs two_textures !! i = Some e ->
      exists e',
        m_textureIDs this' !! i = Some e' /\
        Texture.tag e' = Texture.tag e /\
        (Texture.ID e' ∉ gl_names fresh_gl) /\
        (Texture.ID e' ∈ gl_names gl').
Proof.
  apply (DestroyGLTextures_regenerates next_name two_textures fresh_gl).
  - exact next_name_fresh.
  - exact two_textures_ok.
Defined.

Lemma CreateGLTexture_unguarded_witness :
  CreateGLTexture sample_decoder next_name "textures/decal.png" "decal"
    full_table fresh_gl = None.
Proof.
  destruct (CreateGLTexture_unguarded sample_decoder next_name
              "textures/decal.png" "decal" full_table fresh_gl
              {| width := 1; height := 1; colorChannels := 4;
                 pixels := [10; 20; 30; 255] |} GL_RGBA8 GL_RGBA)
    as (_ & Hfull & _).
  - reflexivity.
  - right. repeat split.
  - reflexivity.
  - apply Hfull. simpl. lia.
Defined.

Lemma FindMaterial_frame_witness :
  exists found material',
    FindMaterial (DefineObjectMaterials empty_scene) "glass" metalMaterial
    = Some (found, material') /\
    ambientColor material' = ambientColor metalMaterial /\
    ambientStrength material' = ambientStrength metalMaterial /\
    tag material' = tag metalMaterial /\
    (Forall (λ e, tag e <> "glass"%string)
       (m_objectMaterials (DefineObjectMaterials empty_scene)) ->
     material' = metalMaterial).
Proof.
  apply (FindMaterial_frame (DefineObjectMaterials empty_scene) "glass"
           metalMaterial).
  vm_compute. discriminate.
Defined.

(** ** The embedding run on the samples *)

Example FindMaterial_glass :
  FindMaterial (DefineObjectMaterials empty_scene) "glass" metalMaterial
  = Some (true, copy_reflectance glassMaterial metalMaterial).
Proof. vm_compute. reflexivity. Qed.

Example FindTexture_two_textures :
  FindTextureID two_textures "wall" = Some 1 /\
  FindTextureSlot two_textures "floor" = Some 1 /\
  FindTextureSlot two_textures "stone" = Some (-1).
Proof. vm_compute. auto. Qed.

(** A quarter turn about Z and a translation along X: the translation is
    not turned, as it would be with the factors the other way round. *)
Example translation_is_not_rotated :
  col3 (glm.translate (Vec3 Float.one Float.zero Float.zero)
        *m glm.rotate cos_poly sin_poly (glm.radians (Float.of_Z 90))
             (Vec3 Float.zero Float.zero Float.one))
  = Vec4 Float.one Float.zero Float.zero Float.one /\
  col3 (glm.rotate cos_poly sin_poly (glm.radians (Float.of_Z 90))
          (Vec3 Float.zero Float.zero Float.one)
        *m glm.translate (Vec3 Float.one Float.zero Float.zero))
  <> Vec4 Float.one Float.zero Float.zero Float.one.
Proof. split; [vm_compute; reflexivity|vm_compute; discriminate]. Qed.

(** A two-channel image: a name is generated and stays bound, the call
    returns false and the table is as before. *)
Example CreateGLTexture_two_channels :
  exists gl',
    CreateGLTexture sample_decoder next_name "textures/gray.png" "gray"
      empty_scene fresh_gl = Some (false, empty_scene, gl') /\
    gl_names gl' = [1] /\ current_texture gl' = 1.
Proof. eexists. split; [reflexivity|]. vm_compute. auto. Qed.

(** Only wall.jpg decodes: LoadSceneTextures goes on after the three
    failures and binds the one texture to unit 0. *)
Example LoadSceneTextures_one_file :
  exists this' gl',
    LoadSceneTextures sample_decoder next_name 32 empty_scene fresh_gl
    = Some (this', gl') /\
    m_loadedTextures this' = 1 /\
    registered this' = [wall_entry] /\
    bound_texture gl' 0 = 1.
Proof. do 2 eexists. split; [reflexivity|]. vm_compute. auto. Qed.

(** A handle with the top bit set comes back negative from FindTextureID. *)
Example FindTextureID_large_handle :
  FindTextureID
    (with_textures empty_scene
       (<[0%nat := {| Texture.ID := 4294967295; Texture.tag := "wall" |}]>
          (m_textureIDs empty_scene)) 1) "wall" = Some (-1).
Proof. vm_compute. reflexivity. Qed.

(** * Further properties of the registries *)

(** ** Texture lookups in closed form *)

Lemma FindTextureSlot_spec this tag_ :
  registry_ok this ->
  FindTextureSlot this tag_ =
  Some match first_texture this tag_ 0 with
       | Some (k, _) => Z.of_nat k
       | None => -1
       end.
Proof.
  intros Hok. unfold FindTextureSlot. change 0 with (Z.of_nat 0).
  rewrite (FindTextureSlot_while_scan _ _ _ (Z.to_nat (m_loadedTextures this)) Hok)
    by reflexivity.
  now destruct (first_texture this tag_ 0) as [[k e]|].
Qed.

Lemma FindTextureID_spec this tag_ :
  registry_ok this ->
  FindTextureID this tag_ =
  Some match first_texture this tag_ 0 with
       | Some (_, e) => int_of_GLuint (Texture.ID e)
       | None => -1
       end.
Proof.
  intros Hok. unfold FindTextureID. change 0 with (Z.of_nat 0).
  rewrite (FindTextureID_while_scan _ _ _ (Z.to_nat (m_loadedTextures this)) Hok)
    by reflexivity.
  now destruct (first_texture this tag_ 0) as [[k e]|].
Qed.

Lemma registered_appended this textureID tag_ :
  array_shape this ->
  0 <= m_loadedTextures this < Z.of_nat MAX_TEXTURES ->
  registered (appended this textureID tag_) =
  registered this ++ [{| Texture.ID := textureID; Texture.tag := tag_ |}].
Proof.
  intros Hshape Hn. unfold array_shape, MAX_TEXTURES, registered, appended in *.
  simpl. replace (Z.to_nat (m_loadedTextures this + 1))
    with (S (Z.to_nat (m_loadedTextures this))) by lia.
  rewrite (take_S_r _ _ {| Texture.ID := textureID; Texture.tag := tag_ |})
    by (apply list_lookup_insert_eq; lia).
  now rewrite take_insert_ge by lia.
Qed.

(** What CreateGLTexture returns, in every case: the table is the old one
    or the old one with one entry appended. *)
Lemma CreateGLTexture_cases stbi_load glGenName filename tag_ this gl b this' gl' :
  array_shape this ->
  CreateGLTexture stbi_load glGenName filename tag_ this gl = Some (b, this', gl') ->
  b = false /\ this' = this \/
  b = true /\ this' = appended this (glGenName (gl_names gl)) tag_ /\
  0 <= m_loadedTextures this < Z.of_nat MAX_TEXTURES.
Proof.
  intros Hshape Hrun.
  destruct (stbi_load filename) as [image|] eqn:Hload.
  - destruct (decide (colorChannels image = 3 \/ colorChannels image = 4))
      as [Hch|Hch].
    + assert (Hacc : exists internalformat_ format_,
                 accepted_channels image internalformat_ format_).
      { destruct Hch as [H3|H4].
        - exists GL_RGB8, GL_RGB. left. auto.
        - exists GL_RGBA8, GL_RGBA. right. auto. }
      destruct Hacc as (internalformat_ & format_ & Hacc).
      destruct (decide (0 <= m_loadedTextures this < Z.of_nat MAX_TEXTURES))
        as [Hn|Hn].
      * destruct (CreateGLTexture_success stbi_load glGenName filename tag_ this gl
                    image internalformat_ format_ Hload Hacc Hshape Hn)
          as (gl'' & Hrun' & _).
        right. rewrite Hrun in Hrun'. injection Hrun' as -> -> _. auto.
      * rewrite (CreateGLTexture_overflow stbi_load glGenName filename tag_ this gl
                   image internalformat_ format_ Hload Hacc) in Hrun; [discriminate|].
        unfold array_shape in Hshape. rewrite Hshape. lia.
    + destruct (CreateGLTexture_rejected stbi_load glGenName filename tag_ this gl)
        as [_ Hrej].
      destruct (Hrej image Hload) as (gl'' & Hrun'); [tauto..|].
      left. rewrite Hrun in Hrun'. injection Hrun' as -> -> _. auto.
  - destruct (CreateGLTexture_rejected stbi_load glGenName filename tag_ this gl)
      as [Hnull _].
    specialize (Hnull Hload). rewrite Hrun in Hnull.
    left. injection Hnull as -> -> _. auto.
Qed.

(** ** CreateGLTexture and the lookups *)

Section CreateGLTexture_lookups.
Variable stbi_load : string -> option Image.
Variable glGenName : list Z -> Z.

Lemma CreateGLTexture_Some_ok filename tag_ this gl b this' gl' :
  registry_ok this ->
  CreateGLTexture stbi_load glGenName filename tag_ this gl = Some (b, this', gl') ->
  registry_ok this'.
Proof.
  intros Hok Hrun.
  destruct (CreateGLTexture_cases _ _ _ _ _ _ _ _ _ (proj1 Hok) Hrun)
    as [(_ & ->)|(_ & -> & Hn)]; [exact Hok|].
  apply appended_ok; [exact (proj1 Hok)|exact Hn].
Qed.

(** X2. A texture registered under a tag no entry had is found again: its
    slot is the counter's value before the call and its handle the name
    glGenTextures returned. *)
Theorem CreateGLTexture_then_find filename tag_ this gl this' gl' :
  registry_ok this ->
  CreateGLTexture stbi_load glGenName filename tag_ this gl
  = Some (true, this', gl') ->
  Forall (λ e, Texture.tag e <> tag_) (registered this) ->
  FindTextureSlot this' tag_ = Some (m_loadedTextures this) /\
  FindTextureID this' tag_ = Some (int_of_GLuint (glGenName (gl_names gl))).
Proof.
  intros Hok Hrun Hnew.
  assert (Hok' : registry_ok this')
    by (eapply CreateGLTexture_Some_ok; eauto).
  destruct (CreateGLTexture_cases _ _ _ _ _ _ _ _ _ (proj1 Hok) Hrun)
    as [(Hb & _)|(_ & -> & Hn)]; [discriminate|].
  rewrite FindTextureSlot_spec, FindTextureID_spec by exact Hok'.
  unfold first_texture. rewrite drop_0, registered_appended by (try exact (proj1 Hok); exact Hn).
  apply (list_find_None (λ e, Texture.tag e = tag_)) in Hnew.
  rewrite list_find_app_r by exact Hnew. simpl.
  destruct (decide (tag_ = tag_)) as [_|Hne]; [|contradiction]. simpl.
  rewrite registered_length by exact Hok. split; [f_equal; lia|reflexivity].
Qed.

(** X3. CreateGLTexture, with either result, changes no lookup of another
    tag, and no lookup of its own tag when an entry already had it: a
    second texture under a registered tag is never found. *)
Theorem CreateGLTexture_keeps_lookups filename tag_ this gl b this' gl' tag' :
  registry_ok this ->
  CreateGLTexture stbi_load glGenName filename tag_ this gl = Some (b, this', gl') ->
  tag' <> tag_ \/ Exists (λ e, Texture.tag e = tag') (registered this) ->
  FindTextureSlot this' tag' = FindTextureSlot this tag' /\
  FindTextureID this' tag' = FindTextureID this tag'.
Proof.
  intros Hok Hrun Htag.
  assert (Hok' : registry_ok this')
    by (eapply CreateGLTexture_Some_ok; eauto).
  destruct (CreateGLTexture_cases _ _ _ _ _ _ _ _ _ (proj1 Hok) Hrun)
    as [(_ & ->)|(_ & -> & Hn)]; [auto|].
  rewrite !FindTextureSlot_spec, !FindTextureID_spec by assumption.
  unfold first_texture. rewrite !drop_0, registered_appended by (try exact (proj1 Hok); exact Hn).
  destruct (list_find (λ e, Texture.tag e = tag') (registered this))
    as [[k e]|] eqn:Hfind.
  - now rewrite (list_find_app_l _ _ _ _ _ Hfind).
  - rewrite list_find_app_r by exact Hfind. simpl.
    destruct Htag as [Hne|Hex].
    + destruct (decide (tag_ = tag')) as [Heq|_]; [congruence|auto].
    + apply list_find_None in Hfind. apply Exists_exists in Hex as (e & He & Htag).
      rewrite Forall_forall in Hfind. now apply Hfind in He.
Qed.

(** X4. An image whose channel count is neither 3 nor 4: the call returns
    false with the table as it was, yet the name glGenTextures returned
    stays in use and bound on the active unit. *)
Theorem CreateGLTexture_rejected_keeps_name filename tag_ this gl image :
  stbi_load filename = Some image ->
  colorChannels image <> 3 ->
  colorChannels image <> 4 ->
  exists gl',
    CreateGLTexture stbi_load glGenName filename tag_ this gl
    = Some (false, this, gl') /\
    gl_names gl' = glGenName (gl_names gl) :: gl_names gl /\
    gl_active_texture gl' = gl_active_texture gl /\
    bound_texture gl' (gl_active_texture gl) = glGenName (gl_names gl).
Proof.
  intros Hload H3 H4. apply Z.eqb_neq in H3, H4.
  unfold CreateGLTexture. rewrite Hload. unfold glGenTextures.
  rewrite H3, H4. eexists. split; [reflexivity|].
  split; [reflexivity|]. split; [reflexivity|].
  apply (glBindTexture_current (glGenName (gl_names gl))
           (glGenTextures glGenName gl).2).
Qed.

Lemma CreateGLTexture_true_state filename tag_ this gl this' gl' :
  CreateGLTexture stbi_load glGenName filename tag_ this gl
  = Some (true, this', gl') ->
  gl_active_texture gl' = gl_active_texture gl /\
  bound_texture gl' (gl_active_texture gl) = 0 /\
  forall unit, unit <> gl_active_texture gl ->
               bound_texture gl' unit = bound_texture gl unit.
Proof.
  unfold CreateGLTexture. destruct (stbi_load filename) as [image|]; [|discriminate].
  unfold glGenTextures.
  destruct (colorChannels image =? 3); [|destruct (colorChannels image =? 4)];
    [| |discriminate];
    (destruct (subscript_assign (m_textureIDs this) _ _) as [ids|];
       [|discriminate]; cbn [mbind option_bind];
     destruct (subscript_assign ids _ _) as [ids'|]; [|discriminate];
     cbn [mbind option_bind];
     destruct (int_incr _) as [loaded|]; [|discriminate];
     cbn [mbind option_bind]; intros Hrun; injection Hrun as _ <-;
     unfold bound_texture; cbn [gl_binding_2d gl_active_texture];
     split; [reflexivity|]; split;
     [ now rewrite lookup_insert_eq
     | intros unit Hunit; now rewrite !lookup_insert_ne by congruence ]).
Qed.
End CreateGLTexture_lookups.

(** ** BindGLTextures: the state it leaves *)

Section BindGLTextures_state.
Variable max_units : Z.

Lemma bind_unit_step this (i : nat) gl e :
  Z.of_nat i < max_units ->
  m_textureIDs this !! i = Some e ->
  bind_unit max_units this (Z.of_nat i) gl =
  Some {| gl_names := gl_names gl;
          gl_active_texture := Z.of_nat i;
          gl_binding_2d := <[Z.of_nat i := Texture.ID e]> (gl_binding_2d gl);
          gl_textures := gl_textures gl |}.
Proof.
  intros Hi He. unfold bind_unit, glActiveTexture. rewrite subscript_of_nat, He.
  replace (GL_TEXTURE0 <=? GL_TEXTURE0 + Z.of_nat i) with true
    by (symmetry; apply Z.leb_le; lia).
  replace (GL_TEXTURE0 + Z.of_nat i <? GL_TEXTURE0 + max_units) with true
    by (symmetry; apply Z.ltb_lt; lia).
  simpl. replace (GL_TEXTURE0 + Z.of_nat i - GL_TEXTURE0) with (Z.of_nat i) by lia.
  reflexivity.
Qed.

Lemma bind_loop_state this (count : nat) :
  forall (i : nat) gl,
    (i + count <= length (m_textureIDs this))%nat ->
    Z.of_nat (i + count) <= max_units ->
    exists gl',
      for_loop count (Z.of_nat i) (bind_unit max_units this) gl = Some gl' /\
      gl_active_texture gl' =
      (if count is O then gl_active_texture gl else Z.of_nat (i + count) - 1) /\
      (forall (j : nat) e,
         (i <= j < i + count)%nat -> m_textureIDs this !! j = Some e ->
         gl_binding_2d gl' !! Z.of_nat j = Some (Texture.ID e)) /\
      (forall unit,
         unit < Z.of_nat i \/ Z.of_nat (i + count) <= unit ->
         gl_binding_2d gl' !! unit = gl_binding_2d gl !! unit).
Proof.
  induction count as [|count IH]; intros i gl Hlen Hmax.
  - exists gl. repeat split; auto. intros j e Hj. lia.
  - destruct (lookup_lt_is_Some_2 (m_textureIDs this) i) as [e He]; [lia|].
    pose proof (bind_unit_step this i gl e ltac:(lia) He) as Hstep.
    set (gl1 := {| gl_names := gl_names gl; gl_active_texture := Z.of_nat i;
                   gl_binding_2d := <[Z.of_nat i := Texture.ID e]> (gl_binding_2d gl);
                   gl_textures := gl_textures gl |}) in Hstep.
    destruct (IH (S i) gl1) as (gl' & Hrun & Hactive & Hin & Hout); [lia..|].
    exists gl'. cbn [for_loop]. rewrite Hstep. cbn [mbind option_bind].
    replace (Z.of_nat i + 1) with (Z.of_nat (S i)) by lia.
    split; [exact Hrun|]. split; [|split].
    + rewrite Hactive. destruct count; simpl; lia.
    + intros j e' Hj He'. destruct (decide (j = i)) as [->|Hne].
      * rewrite Hout by lia. unfold gl1. simpl.
        rewrite lookup_insert_eq. congruence.
      * apply Hin; [lia|exact He'].
    + intros unit Hunit. rewrite Hout by lia. unfold gl1. simpl.
      apply lookup_insert_ne. lia.
Qed.

Lemma rebind_loop this (count : nat) :
  forall (i : nat) gl,
    (i + count <= length (m_textureIDs this))%nat ->
    Z.of_nat (i + count) <= max_units ->
    (forall (j : nat) e,
       (i <= j < i + count)%nat -> m_textureIDs this !! j = Some e ->
       gl_binding_2d gl !! Z.of_nat j = Some (Texture.ID e)) ->
    for_loop count (Z.of_nat i) (bind_unit max_units this) gl =
    Some (if count is O then gl else set_active (Z.of_nat (i + count) - 1) gl).
Proof.
  induction count as [|count IH]; intros i gl Hlen Hmax Hbound; [reflexivity|].
  destruct (lookup_lt_is_Some_2 (m_textureIDs this) i) as [e He]; [lia|].
  cbn [for_loop]. rewrite (bind_unit_step this i gl e) by (auto; lia).
  cbn [mbind option_bind]. rewrite insert_id by (apply Hbound; [lia|exact He]).
  replace (Z.of_nat i + 1) with (Z.of_nat (S i)) by lia.
  change {| gl_names := gl_names gl; gl_active_texture := Z.of_nat i;
            gl_binding_2d := gl_binding_2d gl; gl_textures := gl_textures gl |}
    with (set_active (Z.of_nat i) gl).
  rewrite IH; [| lia | lia | intros j e' Hj He'; apply Hbound; [lia|exact He'] ].
  f_equal. destruct count; unfold set_active; simpl; [do 2 f_equal; lia|].
  do 2 f_equal. lia.
Qed.

(** X5. BindGLTextures is idempotent: run on the state it produced, it
    returns that state. *)
Theorem BindGLTextures_idempotent this gl gl' :
  registry_ok this ->
  Z.of_nat MAX_TEXTURES <= max_units ->
  BindGLTextures max_units this gl = Some gl' ->
  BindGLTextures max_units this gl' = Some gl'.
Proof.
  intros [Hshape Hn] Hmax Hrun. unfold array_shape, MAX_TEXTURES in *.
  unfold BindGLTextures, for_upto in *. change 0 with (Z.of_nat 0) in *.
  destruct (bind_loop_state this (Z.to_nat (m_loadedTextures this)) 0%nat gl)
    as (gl1 & Hrun1 & Hactive & Hin & _); [simpl; lia..|].
  rewrite Hrun in Hrun1. injection Hrun1 as <-.
  rewrite rebind_loop; [|simpl; lia..|exact Hin].
  f_equal. destruct (Z.to_nat (m_loadedTextures this)); [reflexivity|].
  unfold set_active. rewrite <- Hactive. now destruct gl'.
Qed.

(** X6. BindGLTextures touches nothing but the units below the counter and
    the choice of the active unit: the names in use, the texture objects
    and every other unit are as before, and with an empty table it changes
    nothing. *)
Theorem BindGLTextures_frame this gl gl' :
  registry_ok this ->
  Z.of_nat MAX_TEXTURES <= max_units ->
  BindGLTextures max_units this gl = Some gl' ->
  gl_names gl' = gl_names gl /\
  gl_textures gl' = gl_textures gl /\
  (forall unit, unit < 0 \/ m_loadedTextures this <= unit ->
                bound_texture gl' unit = bound_texture gl unit) /\
  (m_loadedTextures this = 0 -> gl' = gl).
Proof.
  intros Hok Hmax Hrun.
  destruct (BindGLTextures_spec max_units this gl Hok Hmax)
    as (gl1 & Hrun1 & Hnames & Htex & _ & Hout).
  rewrite Hrun in Hrun1. injection Hrun1 as <-.
  repeat split; auto.
  intros Hzero. unfold BindGLTextures, for_upto in Hrun. rewrite Hzero in Hrun.
  simpl in Hrun. congruence.
Qed.

(** X7. After BindGLTextures, the slot FindTextureSlot reports for a
    registered tag is a texture unit holding the handle FindTextureID
    reports for that tag. *)
Theorem BindGLTextures_slot_holds_handle this gl gl' tag_ slot :
  registry_ok this ->
  Z.of_nat MAX_TEXTURES <= max_units ->
  BindGLTextures max_units this gl = Some gl' ->
  FindTextureSlot this tag_ = Some slot ->
  slot <> -1 ->
  FindTextureID this tag_ = Some (int_of_GLuint (bound_texture gl' slot)).
Proof.
  intros Hok Hmax Hrun Hslot Hfound.
  destruct (BindGLTextures_spec max_units this gl Hok Hmax)
    as (gl1 & Hrun1 & _ & _ & Hin & _).
  rewrite Hrun in Hrun1. injection Hrun1 as <-.
  rewrite FindTextureSlot_spec in Hslot by exact Hok.
  rewrite FindTextureID_spec by exact Hok.
  unfold first_texture in *. rewrite drop_0 in *.
  destruct (list_find _ (registered this)) as [[k e]|] eqn:Hfind;
    injection Hslot as <-; [|contradiction].
  apply list_find_Some in Hfind as (Hk & _ & _).
  now rewrite (Hin k e Hk).
Qed.
End BindGLTextures_state.

(** ** Loading after binding, teardown, and the scene's four textures *)

Lemma slot_in_tags (l l' : list TEXTURE_INFO) tag_ :
  Texture.tag <$> l = Texture.tag <$> l' -> slot_in l tag_ = slot_in l' tag_.
Proof.
  unfold slot_in. revert l'.
  induction l as [|e l IH]; intros [|e' l'] Htags; try discriminate; [reflexivity|].
  injection Htags as Htag Htags. specialize (IH l' Htags). simpl. rewrite Htag.
  destruct (decide (Texture.tag e' = tag_)); [reflexivity|].
  destruct (list_find _ l) as [[k x]|], (list_find _ l') as [[k' x']|];
    simpl in *; lia.
Qed.

Lemma FindTextureSlot_slot_in this tag_ :
  registry_ok this -> FindTextureSlot this tag_ = Some (slot_in (registered this) tag_).
Proof.
  intros Hok. rewrite FindTextureSlot_spec by exact Hok.
  unfold first_texture, slot_in. now rewrite drop_0.
Qed.

Section Texture_sequences.
Variable stbi_load : string -> option Image.
Variable glGenName : list Z -> Z.
Variable max_units : Z.

(** X8. Loading a texture after BindGLTextures unbinds the unit
    BindGLTextures bound last: that unit holds 0 afterwards, the units
    below it keep their handles. *)
Theorem CreateGLTexture_after_bind_unbinds filename tag_ this gl gl1 this' gl2 :
  registry_ok this ->
  1 <= m_loadedTextures this ->
  Z.of_nat MAX_TEXTURES <= max_units ->
  BindGLTextures max_units this gl = Some gl1 ->
  CreateGLTexture stbi_load glGenName filename tag_ this gl1
  = Some (true, this', gl2) ->
  bound_texture gl2 (m_loadedTextures this - 1) = 0 /\
  forall (i : nat) e,
    Z.of_nat i < m_loadedTextures this - 1 ->
    m_textureIDs this !! i = Some e ->
    bound_texture gl2 (Z.of_nat i) = Texture.ID e.
Proof.
  intros Hok Hone Hmax Hbind Hcreate.
  destruct (BindGLTextures_spec max_units this gl Hok Hmax)
    as (gl1' & Hbind' & _ & _ & Hin & _).
  rewrite Hbind in Hbind'. injection Hbind' as <-.
  destruct Hok as [Hshape Hn]. unfold array_shape, MAX_TEXTURES in *.
  destruct (bind_loop_state max_units this (Z.to_nat (m_loadedTextures this))
              0%nat gl) as (gl1' & Hbind' & Hactive & _); [simpl; lia..|].
  unfold BindGLTextures, for_upto in Hbind. change 0 with (Z.of_nat 0) in Hbind.
  rewrite Hbind in Hbind'. injection Hbind' as <-.
  assert (Hlast : gl_active_texture gl1 = m_loadedTextures this - 1).
  { rewrite Hactive.
    pose proof (Z2Nat.id (m_loadedTextures this) (proj1 Hn)) as Hid.
    destruct (Z.to_nat (m_loadedTextures this)); lia. }
  destruct (CreateGLTexture_true_state _ _ _ _ _ _ _ _ Hcreate)
    as (_ & Hzero & Hother).
  rewrite Hlast in Hzero, Hother. split; [exact Hzero|].
  intros i e Hi He. rewrite Hother by lia. apply Hin.
  rewrite registered_lookup by lia. exact He.
Qed.

Lemma regenerate_tags this gl this' gl' :
  (forall used, glGenName used ∉ used) ->
  registry_ok this ->
  DestroyGLTextures glGenName this gl = Some (this', gl') ->
  registry_ok this' /\
  Texture.tag <$> registered this' = Texture.tag <$> registered this /\
  gl_binding_2d gl' = gl_binding_2d gl /\
  gl_active_texture gl' = gl_active_texture gl /\
  forall (i : nat) e e',
    Z.of_nat i < m_loadedTextures this ->
    m_textureIDs this !! i = Some e ->
    m_textureIDs this' !! i = Some e' ->
    Texture.ID e' ∉ gl_names gl.
Proof.
  intros Hfresh [Hshape Hn] Hrun. unfold array_shape, MAX_TEXTURES in *.
  destruct (regenerate_loop_spec glGenName (Z.to_nat (m_loadedTextures this)) 0%nat
              (m_textureIDs this) gl Hfresh)
    as (ids' & gl1 & Hloop & Hlen & _ & _ & Hbind & Hact & Hin & _); [simpl; lia|].
  unfold DestroyGLTextures, for_upto in Hrun. change 0 with (Z.of_nat 0) in Hrun.
  rewrite Hloop in Hrun. cbn [mbind option_bind] in Hrun.
  injection Hrun as <- <-.
  split; [split; unfold array_shape, with_textures, MAX_TEXTURES;
          cbn [m_textureIDs m_loadedTextures]; lia|].
  split; [|split; [exact Hbind|split; [exact Hact|]]].
  - unfold registered. simpl. apply list_eq. intros j.
    rewrite !list_lookup_fmap.
    destruct (decide (j < Z.to_nat (m_loadedTextures this))%nat) as [Hj|Hj].
    + rewrite !lookup_take_lt by exact Hj.
      destruct (lookup_lt_is_Some_2 (m_textureIDs this) j) as [e He]; [lia|].
      destruct (Hin j e) as (name & Hj' & _); [lia|exact He|].
      now rewrite Hj', He.
    + now rewrite !lookup_take_ge by lia.
  - intros i e e' Hi He He'. simpl in He'.
    destruct (Hin i e) as (name & Hi' & Hnew & _); [lia|exact He|].
    rewrite Hi' in He'. injection He' as <-. exact Hnew.
Qed.

(** X9. DestroyGLTextures leaves every slot lookup as it was and the
    texture units bound as they were, while the table's handles become
    names that were not in use: a unit that held a registered handle holds
    one the table no longer has. *)
Theorem DestroyGLTextures_keeps_slots_and_bindings this gl this' gl' :
  (forall used, glGenName used ∉ used) ->
  registry_ok this ->
  DestroyGLTextures glGenName this gl = Some (this', gl') ->
  (forall tag_, FindTextureSlot this' tag_ = FindTextureSlot this tag_) /\
  (forall unit, bound_texture gl' unit = bound_texture gl unit) /\
  forall (i : nat) e e',
    Z.of_nat i < m_loadedTextures this ->
    m_textureIDs this !! i = Some e ->
    m_textureIDs this' !! i = Some e' ->
    Texture.ID e ∈ gl_names gl ->
    Texture.ID e' <> Texture.ID e.
Proof.
  intros Hfresh Hok Hrun.
  destruct (regenerate_tags this gl this' gl' Hfresh Hok Hrun)
    as (Hok' & Htags & Hbind & _ & Hnew).
  split; [|split].
  - intros tag_. rewrite !FindTextureSlot_slot_in by assumption.
    f_equal. now apply slot_in_tags.
  - intros unit. unfold bound_texture. now rewrite Hbind.
  - intros i e e' Hi He He' Hused Heq. apply (Hnew i e e' Hi He He').
    now rewrite Heq.
Qed.

Lemma CreateGLTexture_one filename tag_ this gl :
  registry_ok this ->
  m_loadedTextures this < Z.of_nat MAX_TEXTURES ->
  exists this' gl',
    CreateGLTexture stbi_load glGenName filename tag_ this gl
    = Some (loads stbi_load filename, this', gl') /\
    registry_ok this' /\
    m_loadedTextures this' =
    m_loadedTextures this + (if loads stbi_load filename then 1 else 0) /\
    Texture.tag <$> registered this' =
    (Texture.tag <$> registered this)
    ++ (if loads stbi_load filename then [tag_] else []).
Proof.
  intros Hok Hfree. pose proof Hok as [Hshape Hn]. unfold loads.
  destruct (CreateGLTexture_rejected stbi_load glGenName filename tag_ this gl)
    as [Hnull Hrej].
  destruct (stbi_load filename) as [image|] eqn:Hload.
  - destruct (colorChannels image =? 3) eqn:H3;
      [|destruct (colorChannels image =? 4) eqn:H4]; simpl.
    + apply Z.eqb_eq in H3.
      destruct (CreateGLTexture_success stbi_load glGenName filename tag_ this gl
                  image GL_RGB8 GL_RGB Hload) as (gl' & Hrun & _);
        [left; auto | exact Hshape | lia |].
      exists (appended this (glGenName (gl_names gl)) tag_), gl'.
      split; [exact Hrun|]. split; [apply appended_ok; [exact Hshape|lia]|].
      split; [reflexivity|].
      rewrite registered_appended by (auto; lia). now rewrite fmap_app.
    + apply Z.eqb_eq in H4.
      destruct (CreateGLTexture_success stbi_load glGenName filename tag_ this gl
                  image GL_RGBA8 GL_RGBA Hload) as (gl' & Hrun & _);
        [right; auto | exact Hshape | lia |].
      exists (appended this (glGenName (gl_names gl)) tag_), gl'.
      split; [exact Hrun|]. split; [apply appended_ok; [exact Hshape|lia]|].
      split; [reflexivity|].
      rewrite registered_appended by (auto; lia). now rewrite fmap_app.
    + apply Z.eqb_neq in H3, H4.
      destruct (Hrej image eq_refl H3 H4) as (gl' & Hrun).
      exists this, gl'. rewrite app_nil_r. repeat split; auto; lia.
  - exists this, gl. rewrite app_nil_r. repeat split; auto; lia.
Qed.

(** X1. CreateGLTexture keeps the table well-formed only while it has
    room.  With a free slot, or with an image it rejects, it returns and the
    table again has its slots and its counter within them.  On a full table
    an image it accepts makes it assign to [m_textureIDs[MAX_TEXTURES]],
    outside the array: nothing stops the counter at the slot count. *)
Theorem CreateGLTexture_registry_ok_while_room filename tag_ this gl :
  registry_ok this ->
  (m_loadedTextures this < Z.of_nat MAX_TEXTURES \/
   loads stbi_load filename = false ->
   exists this' gl',
     CreateGLTexture stbi_load glGenName filename tag_ this gl
     = Some (loads stbi_load filename, this', gl') /\
     registry_ok this') /\
  (m_loadedTextures this = Z.of_nat MAX_TEXTURES ->
   loads stbi_load filename = true ->
   CreateGLTexture stbi_load glGenName filename tag_ this gl = None).
Proof.
  intros Hok. split.
  - intros [Hroom|Hrejected].
    + destruct (CreateGLTexture_one filename tag_ this gl Hok Hroom)
        as (this' & gl' & Hrun & Hok' & _).
      exists this', gl'. split; [exact Hrun|exact Hok'].
    + rewrite Hrejected. unfold loads in Hrejected.
      destruct (CreateGLTexture_rejected stbi_load glGenName filename tag_ this gl)
        as [Hnull Hchannels].
      destruct (stbi_load filename) as [image|] eqn:Hload.
      * apply orb_false_iff in Hrejected as [H3 H4].
        apply Z.eqb_neq in H3, H4.
        destruct (Hchannels image eq_refl H3 H4) as (gl' & Hrun).
        exists this, gl'. split; [exact Hrun|exact Hok].
      * exists this, gl. split; [now apply Hnull|exact Hok].
  - intros Hfull Hloads. unfold loads in Hloads.
    destruct (stbi_load filename) as [image|] eqn:Hload; [|discriminate].
    assert (Hacc : exists internalformat_ format_,
               accepted_channels image internalformat_ format_).
    { apply orb_true_iff in Hloads as [H3|H4].
      - apply Z.eqb_eq in H3. exists GL_RGB8, GL_RGB. left. auto.
      - apply Z.eqb_eq in H4. exists GL_RGBA8, GL_RGBA. right. auto. }
    destruct Hacc as (internalformat_ & format_ & Hacc).
    apply (CreateGLTexture_overflow stbi_load glGenName filename tag_ this gl
             image internalformat_ format_ Hload Hacc).
    right. destruct Hok as [Hshape _]. unfold array_shape in Hshape.
    rewrite Hshape, Hfull. lia.
Qed.

(** X10. LoadSceneTextures goes through its four files whatever each load
    returns: it registers the tags of the files that load, in the order
    wall, lampshade, stone, floor, after the entries already there, and
    binds every registered entry to the unit of its slot. *)
Theorem LoadSceneTextures_registers_loaded this gl :
  registry_ok this ->
  m_loadedTextures this + 4 <= Z.of_nat MAX_TEXTURES ->
  Z.of_nat MAX_TEXTURES <= max_units ->
  exists this' gl',
    LoadSceneTextures stbi_load glGenName max_units this gl = Some (this', gl') /\
    Texture.tag <$> registered this' =
    (Texture.tag <$> registered this)
    ++ (filter (λ p, loads stbi_load p.1 = true) scene_textures).*2 /\
    forall (i : nat) e,
      registered this' !! i = Some e ->
      bound_texture gl' (Z.of_nat i) = Texture.ID e.
Proof.
  intros Hok Hfree Hmax. unfold LoadSceneTextures, MAX_TEXTURES in *.
  destruct (CreateGLTexture_one "textures/wall.jpg" "wall" this gl Hok)
    as (this1 & gl1 & -> & Hok1 & Hn1 & Htags1); [unfold MAX_TEXTURES; lia|].
  cbn [mbind option_bind].
  destruct (CreateGLTexture_one "textures/tilesf2.jpg" "lampshade" this1 gl1 Hok1)
    as (this2 & gl2 & -> & Hok2 & Hn2 & Htags2);
    [unfold MAX_TEXTURES; destruct (loads _ _); lia|].
  cbn [mbind option_bind].
  destruct (CreateGLTexture_one "textures/stone.jpg" "stone" this2 gl2 Hok2)
    as (this3 & gl3 & -> & Hok3 & Hn3 & Htags3);
    [unfold MAX_TEXTURES; repeat destruct (loads _ _); lia|].
  cbn [mbind option_bind].
  destruct (CreateGLTexture_one "textures/wood.jpg" "floor" this3 gl3 Hok3)
    as (this4 & gl4 & -> & Hok4 & Hn4 & Htags4);
    [unfold MAX_TEXTURES; repeat destruct (loads _ _); lia|].
  cbn [mbind option_bind].
  destruct (BindGLTextures_spec max_units this4 gl4 Hok4 Hmax)
    as (gl' & -> & _ & _ & Hin & _).
  cbn [mbind option_bind]. exists this4, gl'. split; [reflexivity|].
  split; [|exact Hin].
  rewrite Htags4, Htags3, Htags2, Htags1, <- !app_assoc. f_equal.
  unfold scene_textures. cbn [filter list_filter fst].
  destruct (loads stbi_load "textures/wall.jpg"),
    (loads stbi_load "textures/tilesf2.jpg"),
    (loads stbi_load "textures/stone.jpg"),
    (loads stbi_load "textures/wood.jpg"); reflexivity.
Qed.
End Texture_sequences.

(** ** Registering materials and finding them *)

Lemma DefineObjectMaterials_app this :
  m_objectMaterials (DefineObjectMaterials this) =
  m_objectMaterials this ++ defined_materials.
Proof.
  unfold DefineObjectMaterials, register_material, push_back, defined_materials.
  cbn [m_objectMaterials]. now rewrite <- !app_assoc.
Qed.

(** Entries appended behind entries with the same tags are never the first
    match. *)
Lemma first_material_shadowed (l1 l2 : list OBJECT_MATERIAL) tag_ :
  (forall e, e ∈ l2 -> tag e = tag_ -> exists e', e' ∈ l1 /\ tag e' = tag_) ->
  first_material (l1 ++ l2) tag_ = first_material l1 tag_.
Proof.
  intros Hshadow. unfold first_material.
  destruct (list_find (λ e, tag e = tag_) l1) as [[k e]|] eqn:Hfind.
  - now apply list_find_app_l.
  - apply list_find_app_None. split; [exact Hfind|].
    apply list_find_None, Forall_forall. intros e He Htag.
    destruct (Hshadow e He Htag) as (e' & He' & Htag').
    apply list_find_None in Hfind. rewrite Forall_forall in Hfind.
    now apply (Hfind e' He').
Qed.

Lemma FindMaterial_ext this this' tag_ material :
  vector_size (m_objectMaterials this) <= INT_MAX ->
  vector_size (m_objectMaterials this') <= INT_MAX ->
  (m_objectMaterials this = [] <-> m_objectMaterials this' = []) ->
  first_material (m_objectMaterials this') tag_ =
  first_material (m_objectMaterials this) tag_ ->
  FindMaterial this' tag_ material = FindMaterial this tag_ material.
Proof.
  intros Hmax Hmax' Hempty Hfirst. rewrite !FindMaterial_spec by assumption.
  rewrite Hfirst.
  destruct (m_objectMaterials this) as [|e l], (m_objectMaterials this') as [|e' l'];
    try reflexivity.
  - destruct Hempty as [Hempty _]. now specialize (Hempty eq_refl).
  - destruct Hempty as [_ Hempty]. now specialize (Hempty eq_refl).
Qed.

(** X11. A material registered under a tag no entry had is found again:
    FindMaterial returns true and writes its diffuse colour, specular colour
    and shininess. *)
Theorem register_material_then_find this material out :
  vector_size (m_objectMaterials this) < INT_MAX ->
  Forall (λ e, tag e <> tag material) (m_objectMaterials this) ->
  FindMaterial (register_material this material) (tag material) out
  = Some (true, copy_reflectance material out).
Proof.
  intros Hmax Hnew. unfold vector_size in Hmax.
  rewrite FindMaterial_spec
    by (simpl; unfold push_back, vector_size; rewrite length_app; simpl; lia).
  simpl. unfold push_back, first_material.
  apply (list_find_None (λ e, tag e = tag material)) in Hnew.
  rewrite list_find_app_r by exact Hnew. simpl.
  destruct (decide (tag material = tag material)) as [_|Hne]; [|contradiction].
  now destruct (m_objectMaterials this).
Qed.

(** X12. On a registry that is not empty, registering a material changes
    no lookup of another tag, and no lookup of its own tag when an entry
    already had it: there is no replacement, the first entry stays the
    answer. *)
Theorem register_material_keeps_lookups this material tag_ out :
  vector_size (m_objectMaterials this) < INT_MAX ->
  m_objectMaterials this <> [] ->
  tag_ <> tag material \/ Exists (λ e, tag e = tag_) (m_objectMaterials this) ->
  FindMaterial (register_material this material) tag_ out
  = FindMaterial this tag_ out.
Proof.
  intros Hmax Hne Htag. unfold vector_size in Hmax.
  apply FindMaterial_ext.
  - unfold vector_size. lia.
  - simpl. unfold push_back, vector_size. rewrite length_app. simpl. lia.
  - simpl. unfold push_back. split; [contradiction|].
    intros Hnil. now apply app_eq_nil in Hnil as [_ Hnil].
  - simpl. unfold push_back. apply first_material_shadowed.
    intros e He Htag_e. apply list_elem_of_singleton in He as ->.
    destruct Htag as [Hother|Hex]; [congruence|].
    apply Exists_exists in Hex as (e' & He' & Htag'). eauto.
Qed.

(** X13. The first registration turns every lookup from not-found into
    found: on the empty registry FindMaterial returns false for every tag,
    and after one registration it returns true for every tag, writing the
    out-parameter only for the registered one. *)
Theorem first_registration_finds_every_tag this material tag_ out :
  m_objectMaterials this = [] ->
  FindMaterial this tag_ out = Some (false, out) /\
  FindMaterial (register_material this material) tag_ out
  = Some (true, if decide (tag material = tag_)
                then copy_reflectance material out else out).
Proof.
  intros Hempty. split.
  - unfold FindMaterial. now rewrite Hempty.
  - rewrite FindMaterial_spec
      by (cbn [m_objectMaterials register_material]; rewrite Hempty;
          unfold vector_size, push_back, INT_MAX; cbn [length app]; lia).
    simpl. rewrite Hempty. simpl. unfold first_material. simpl.
    now destruct (decide (tag material = tag_)).
Qed.

(** X14. After DefineObjectMaterials, each of the eight materials is found
    by its tag with its own values, provided no entry registered before had
    one of these tags: the eight tags are pairwise different. *)
Theorem DefineObjectMaterials_finds_each this material out :
  vector_size (m_objectMaterials this) + 8 <= INT_MAX ->
  Forall (λ e, tag e ∉ tag <$> defined_materials) (m_objectMaterials this) ->
  material ∈ defined_materials ->
  FindMaterial (DefineObjectMaterials this) (tag material) out
  = Some (true, copy_reflectance material out).
Proof.
  intros Hmax Hold Hin. unfold vector_size in Hmax.
  rewrite FindMaterial_spec
    by (rewrite DefineObjectMaterials_app; unfold vector_size;
        rewrite length_app; simpl; lia).
  rewrite DefineObjectMaterials_app.
  assert (Hnone : list_find (λ e, tag e = tag material) (m_objectMaterials this)
                  = None).
  { apply list_find_None. eapply Forall_impl; [exact Hold|].
    intros e He Htag. apply He. rewrite Htag. now apply list_elem_of_fmap_2. }
  unfold first_material. rewrite list_find_app_r by exact Hnone.
  assert (Hfound : exists k, list_find (λ e, tag e = tag material) defined_materials
                             = Some (k, material)).
  { unfold defined_materials in *.
    repeat (apply elem_of_cons in Hin as [->|Hin]; [eexists; reflexivity|]).
    now apply elem_of_nil in Hin. }
  destruct Hfound as (k & ->). simpl.
  now destruct (m_objectMaterials this).
Qed.

(** X15. Running DefineObjectMaterials a second time doubles the vector
    and changes no lookup: FindMaterial answers as after the first run,
    for every tag. *)
Theorem DefineObjectMaterials_twice this tag_ out :
  vector_size (m_objectMaterials this) + 16 <= INT_MAX ->
  length (m_objectMaterials (DefineObjectMaterials (DefineObjectMaterials this)))
  = (length (m_objectMaterials this) + 16)%nat /\
  FindMaterial (DefineObjectMaterials (DefineObjectMaterials this)) tag_ out
  = FindMaterial (DefineObjectMaterials this) tag_ out.
Proof.
  intros Hmax. unfold vector_size in Hmax.
  rewrite !DefineObjectMaterials_app, !length_app. split; [simpl; lia|].
  apply FindMaterial_ext.
  - rewrite DefineObjectMaterials_app. unfold vector_size.
    rewrite length_app. simpl. lia.
  - rewrite !DefineObjectMaterials_app. unfold vector_size.
    rewrite !length_app. simpl. lia.
  - rewrite !DefineObjectMaterials_app. split; intros Hnil.
    + now apply app_eq_nil in Hnil as [_ Hnil].
    + now apply app_eq_nil in Hnil as [_ Hnil].
  - rewrite !DefineObjectMaterials_app. apply first_material_shadowed.
    intros e He Htag. exists e. split; [|exact Htag].
    apply elem_of_app. now right.
Qed.

(** * Properties of the shader setters *)

(** ** What the setters store *)

Lemma SetShaderMaterial_spec materialTag material this u :
  vector_size (m_objectMaterials this) <= INT_MAX ->
  SetShaderMaterial materialTag material this u =
  match m_objectMaterials this with
  | [] => Some u
  | _ :: _ =>
      match m_pShaderManager this with
      | Some _ =>
          let found :=
            match first_material (m_objectMaterials this) materialTag with
            | Some (_, e) => copy_reflectance e material
            | None => material
            end in
          Some (setFloatValue "material.shininess" (shininess found)
                  (setVec3Value "material.specularColor" (specularColor found)
                     (setVec3Value "material.diffuseColor" (diffuseColor found) u)))
      | None => None
      end
  end.
Proof.
  intros Hmax. unfold SetShaderMaterial. rewrite FindMaterial_spec by exact Hmax.
  destruct (m_objectMaterials this) as [|e0 mats]; [reflexivity|].
  replace (vector_size (e0 :: mats) >? 0) with true
    by (symmetry; apply Z.gtb_lt; unfold vector_size; simpl; lia).
  simpl. now destruct (m_pShaderManager this).
Qed.

(** X16. Without a shader manager, SetTransformations, SetShaderColor,
    SetShaderTexture and SetTextureUVScale do nothing, but SetShaderMaterial
    has no such guard: it does nothing on the empty registry and calls
    through the NULL pointer on every other one, whatever the tag. *)
Theorem setters_without_shader_manager cosf sinf this u
    scaleXYZ XrotationDegrees YrotationDegrees ZrotationDegrees positionXYZ
    r g b a textureTag u_ v_ materialTag material :
  m_pShaderManager this = None ->
  vector_size (m_objectMaterials this) <= INT_MAX ->
  SetTransformations cosf sinf scaleXYZ XrotationDegrees YrotationDegrees
    ZrotationDegrees positionXYZ this = this /\
  SetShaderColor r g b a this u = u /\
  SetShaderTexture textureTag this u = Some u /\
  SetTextureUVScale u_ v_ this u = u /\
  (m_objectMaterials this = [] ->
   SetShaderMaterial materialTag material this u = Some u) /\
  (m_objectMaterials this <> [] ->
   SetShaderMaterial materialTag material this u = None).
Proof.
  intros Hnull Hmax.
  unfold SetTransformations, SetShaderColor, SetShaderTexture, SetTextureUVScale.
  rewrite SetShaderMaterial_spec by exact Hmax. rewrite Hnull.
  repeat split.
  - now intros ->.
  - intros Hne. now destruct (m_objectMaterials this).
Qed.

(** X17. SetShaderTexture with a tag no registered entry has still switches
    texturing on and stores -1 as the sampler's texture unit. *)
Theorem SetShaderTexture_unregistered textureTag this sh u :
  m_pShaderManager this = Some sh ->
  registry_ok this ->
  Forall (λ e, Texture.tag e <> textureTag) (registered this) ->
  exists u',
    SetShaderTexture textureTag this u = Some u' /\
    u' !! g_UseTextureName = Some (IntValue 1) /\
    u' !! g_TextureValueName = Some (Sampler2DValue (-1)).
Proof.
  intros Hsh Hok Hnone. unfold SetShaderTexture. rewrite Hsh.
  rewrite FindTextureSlot_slot_in by exact Hok. unfold slot_in.
  apply (list_find_None (λ e, Texture.tag e = textureTag)) in Hnone.
  rewrite Hnone. eexists. split; [reflexivity|].
  unfold setSampler2DValue, setIntValue. split.
  - rewrite lookup_insert_ne by discriminate. apply lookup_insert_eq.
  - apply lookup_insert_eq.
Qed.

(** X18. After BindGLTextures, SetShaderTexture with a registered tag stores
    as the sampler's texture unit a unit that holds the handle of the
    first entry with that tag. *)
Theorem SetShaderTexture_samples_bound_unit max_units textureTag this sh gl gl'
    u (k : nat) e :
  m_pShaderManager this = Some sh ->
  registry_ok this ->
  Z.of_nat MAX_TEXTURES <= max_units ->
  BindGLTextures max_units this gl = Some gl' ->
  registered this !! k = Some e ->
  Texture.tag e = textureTag ->
  (forall j e', (j < k)%nat -> registered this !! j = Some e' ->
                Texture.tag e' <> textureTag) ->
  exists u',
    SetShaderTexture textureTag this u = Some u' /\
    u' !! g_TextureValueName = Some (Sampler2DValue (Z.of_nat k)) /\
    bound_texture gl' (Z.of_nat k) = Texture.ID e.
Proof.
  intros Hsh Hok Hmax Hbind Hk Htag Hfirst.
  destruct (BindGLTextures_spec max_units this gl Hok Hmax)
    as (gl1 & Hbind' & _ & _ & Hin & _).
  rewrite Hbind in Hbind'. injection Hbind' as <-.
  unfold SetShaderTexture. rewrite Hsh.
  rewrite FindTextureSlot_slot_in by exact Hok. unfold slot_in.
  assert (Hfind : list_find (λ e, Texture.tag e = textureTag) (registered this)
                  = Some (k, e)).
  { apply list_find_Some. repeat split; auto. intros j e' He' Hj. eauto. }
  rewrite Hfind. eexists. split; [reflexivity|]. split; [|now apply Hin].
  apply lookup_insert_eq.
Qed.

(** X19. SetShaderColor and SetShaderTexture each overwrite the other's
    choice of texturing: the later call decides bUseTexture, while the
    colour and the sampler's unit stored by the earlier call stay. *)
Theorem color_and_texture_last_call_wins r g b a textureTag this sh u :
  m_pShaderManager this = Some sh ->
  registry_ok this ->
  (exists u',
     SetShaderTexture textureTag this (SetShaderColor r g b a this u) = Some u' /\
     u' !! g_UseTextureName = Some (IntValue 1) /\
     u' !! g_ColorValueName = Some (Vec4Value (Vec4 r g b a))) /\
  (exists u' u'',
     SetShaderTexture textureTag this u = Some u' /\
     SetShaderColor r g b a this u' = u'' /\
     u'' !! g_UseTextureName = Some (IntValue 0) /\
     u'' !! g_TextureValueName = u' !! g_TextureValueName).
Proof.
  intros Hsh Hok. unfold SetShaderTexture, SetShaderColor. rewrite Hsh.
  rewrite FindTextureSlot_slot_in by exact Hok. cbn [mbind option_bind].
  unfold setSampler2DValue, setIntValue, setVec4Value, int_of_bool. split.
  - eexists. split; [reflexivity|]. split.
    + rewrite lookup_insert_ne by discriminate. apply lookup_insert_eq.
    + rewrite !lookup_insert_ne by discriminate. apply lookup_insert_eq.
  - do 2 eexists. split; [reflexivity|]. split; [reflexivity|]. split.
    + rewrite lookup_insert_ne by discriminate. apply lookup_insert_eq.
    + now rewrite !lookup_insert_ne by discriminate.
Qed.

(** X20. SetShaderMaterial with a registered tag stores the diffuse colour,
    specular colour and shininess of the first entry with that tag and
    changes no other uniform: the ambient colour and strength of a material
    are never passed on, and what its local held before does not matter. *)
Theorem SetShaderMaterial_registered materialTag material this sh u (k : nat) e :
  m_pShaderManager this = Some sh ->
  vector_size (m_objectMaterials this) <= INT_MAX ->
  m_objectMaterials this !! k = Some e ->
  tag e = materialTag ->
  (forall j e', (j < k)%nat -> m_objectMaterials this !! j = Some e' ->
                tag e' <> materialTag) ->
  exists u',
    SetShaderMaterial materialTag material this u = Some u' /\
    u' !! "material.diffuseColor"%string = Some (Vec3Value (diffuseColor e)) /\
    u' !! "material.specularColor"%string = Some (Vec3Value (specularColor e)) /\
    u' !! "material.shininess"%string = Some (FloatValue (shininess e)) /\
    forall name,
      name ∉ ["material.diffuseColor"; "material.specularColor";
              "material.shininess"]%string ->
      u' !! name = u !! name.
Proof.
  intros Hsh Hmax Hk Htag Hfirst.
  rewrite SetShaderMaterial_spec by exact Hmax. rewrite Hsh.
  assert (Hfind : first_material (m_objectMaterials this) materialTag = Some (k, e)).
  { apply list_find_Some. repeat split; auto. intros j e' He' Hj. eauto. }
  rewrite Hfind. destruct (m_objectMaterials this) as [|e0 mats]; [discriminate|].
  eexists. split; [reflexivity|].
  unfold setFloatValue, setVec3Value. cbn [copy_reflectance diffuseColor
    specularColor shininess].
  split; [now rewrite !lookup_insert_ne by discriminate; rewrite lookup_insert_eq|].
  split; [now rewrite lookup_insert_ne by discriminate; rewrite lookup_insert_eq|].
  split; [apply lookup_insert_eq|].
  intros name Hname. rewrite !lookup_insert_ne; [reflexivity|..];
    intros <-; apply Hname; set_solver.
Qed.

(** X21. SetShaderMaterial with a tag no entry has, on a registry that is
    not empty, stores what its local held before the lookup: FindMaterial
    returned true without writing it. *)
Theorem SetShaderMaterial_unregistered materialTag material this sh u :
  m_pShaderManager this = Some sh ->
  vector_size (m_objectMaterials this) <= INT_MAX ->
  m_objectMaterials this <> [] ->
  Forall (λ e, tag e <> materialTag) (m_objectMaterials this) ->
  exists u',
    SetShaderMaterial materialTag material this u = Some u' /\
    u' !! "material.diffuseColor"%string = Some (Vec3Value (diffuseColor material)) /\
    u' !! "material.specularColor"%string
    = Some (Vec3Value (specularColor material)) /\
    u' !! "material.shininess"%string = Some (FloatValue (shininess material)).
Proof.
  intros Hsh Hmax Hne Hnone.
  rewrite SetShaderMaterial_spec by exact Hmax. rewrite Hsh.
  apply (list_find_None (λ e, tag e = materialTag)) in Hnone.
  unfold first_material. rewrite Hnone.
  destruct (m_objectMaterials this) as [|e0 mats]; [contradiction|].
  eexists. split; [reflexivity|]. unfold setFloatValue, setVec3Value.
  split; [now rewrite !lookup_insert_ne by discriminate; rewrite lookup_insert_eq|].
  split; [now rewrite lookup_insert_ne by discriminate; rewrite lookup_insert_eq|].
  apply lookup_insert_eq.
Qed.

(** * Properties of the scene script *)

(** ** The Render functions make the calls of their lists *)

Lemma then_Some (s : Step) frame : (s >>> Some) frame = s frame.
Proof. unfold then_. now destruct (s frame). Qed.

Lemma then_assoc (a b c : Step) frame :
  ((a >>> b) >>> c) frame = (a >>> b >>> c) frame.
Proof. unfold then_. now destruct (a frame). Qed.

Lemma then_ext (a b b' : Step) frame :
  (forall frame', b frame' = b' frame') -> (a >>> b) frame = (a >>> b') frame.
Proof. intros Hb. unfold then_. destruct (a frame); simpl; auto. Qed.

Lemma then_cong (a a' b b' : Step) frame :
  (forall frame', a frame' = a' frame') ->
  (forall frame', b frame' = b' frame') ->
  (a >>> b) frame = (a' >>> b') frame.
Proof. intros Ha Hb. unfold then_. rewrite Ha. destruct (a' frame); simpl; auto. Qed.

Lemma run_app cosf sinf indeterminate (l1 l2 : list Call) frame :
  run cosf sinf indeterminate (l1 ++ l2) frame =
  (run cosf sinf indeterminate l1 >>> run cosf sinf indeterminate l2) frame.
Proof.
  revert frame. induction l1 as [|c l1 IH]; intros frame; [reflexivity|].
  cbn [run app]. rewrite then_assoc. apply then_ext. exact IH.
Qed.

Section Script_calls.
Variables cosf sinf : float -> float.
Variable indeterminate : OBJECT_MATERIAL.

Ltac same_calls :=
  intros frame; cbn [run perform app];
  repeat (apply then_ext; clear frame; intros frame);
  first [reflexivity | symmetry; apply then_Some].

Lemma RenderAirFreshner_calls frame :
  RenderAirFreshner cosf sinf indeterminate frame =
  run cosf sinf indeterminate airFreshner_calls frame.
Proof. revert frame. unfold RenderAirFreshner, airFreshner_calls. same_calls. Qed.

Lemma RenderBackdrop_calls frame :
  RenderBackdrop cosf sinf indeterminate frame =
  run cosf sinf indeterminate backdrop_calls frame.
Proof. revert frame. unfold RenderBackdrop, backdrop_calls. same_calls. Qed.

Lemma RenderBook_calls frame :
  RenderBook cosf sinf indeterminate frame =
  run cosf sinf indeterminate book_calls frame.
Proof. revert frame. unfold RenderBook, book_calls. same_calls. Qed.

Lemma RenderFloor_calls frame :
  RenderFloor cosf sinf indeterminate frame =
  run cosf sinf indeterminate floor_calls frame.
Proof. revert frame. unfold RenderFloor, floor_calls. same_calls. Qed.

Lemma RenderGlassesCase_calls frame :
  RenderGlassesCase cosf sinf indeterminate frame =
  run cosf sinf indeterminate glassesCase_calls frame.
Proof. revert frame. unfold RenderGlassesCase, glassesCase_calls. same_calls. Qed.

Lemma lamp_part_run scaleXYZ positionXYZ textureTag materialTag m (rest : Step)
    frame :
  (lamp_part cosf sinf indeterminate scaleXYZ positionXYZ textureTag materialTag m
   >>> rest) frame =
  (run cosf sinf indeterminate
     (lamp_part_calls scaleXYZ positionXYZ textureTag materialTag m) >>> rest)
    frame.
Proof.
  unfold lamp_part, lamp_part_calls. cbn [run perform].
  rewrite !then_assoc. repeat (apply then_ext; clear frame; intros frame).
  reflexivity.
Qed.

Lemma RenderLamp_calls frame :
  RenderLamp cosf sinf indeterminate frame =
  run cosf sinf indeterminate lamp_calls frame.
Proof.
  unfold RenderLamp, lamp_calls.
  repeat (rewrite run_app, lamp_part_run; apply then_ext; clear frame; intros frame).
  rewrite <- (then_Some (lamp_part _ _ _ _ _ _ _ _)), lamp_part_run.
  apply then_Some.
Qed.

Lemma for_loop_subscript {A : Type} (l : list A) (f : A -> Step) (count : nat) :
  forall (i : nat) frame,
    (i + count = length l)%nat ->
    for_loop count (Z.of_nat i) (λ i frame, x ← subscript l i; f x frame) frame =
    foldr (λ x rest, f x >>> rest) Some (drop i l) frame.
Proof.
  induction count as [|count IH]; intros i frame Hlen.
  - rewrite drop_ge by lia. reflexivity.
  - destruct (lookup_lt_is_Some_2 l i) as [x Hx]; [lia|].
    rewrite (drop_S _ _ _ Hx). cbn [for_loop foldr].
    rewrite subscript_of_nat, Hx. cbn [mbind option_bind].
    replace (Z.of_nat i + 1) with (Z.of_nat (S i)) by lia.
    unfold then_ at 1. destruct (f x frame) as [frame'|]; [|reflexivity].
    cbn [mbind option_bind]. apply IH. lia.
Qed.

Lemma RenderTable_calls frame :
  RenderTable cosf sinf indeterminate frame =
  run cosf sinf indeterminate table_calls frame.
Proof.
  revert frame. unfold RenderTable, table_calls, table_part_calls.
  cbn [app run perform]. intros frame.
  repeat (apply then_ext; clear frame; intros frame).
  unfold for_upto. change 0 with (Z.of_nat 0).
  rewrite (for_loop_subscript legPositions
             (λ positionXYZ,
                call_SetTransformations cosf sinf (vec3_lit 10 690 10) Float.zero
                  Float.zero Float.zero positionXYZ >>>
                call_SetShaderColor (hundredths 15) (hundredths 15)
                  (hundredths 15) Float.one >>>
                call_SetShaderMaterial indeterminate "table" >>>
                call_Draw CylinderMesh)) by reflexivity.
  unfold legPositions. cbn [drop foldr flat_map app run perform].
  repeat (rewrite !then_assoc; repeat (apply then_ext; clear frame; intros frame)).
  reflexivity.
Qed.

(** RenderScene makes exactly the calls of [scene_calls]. *)
Lemma RenderScene_calls frame :
  RenderScene cosf sinf indeterminate frame =
  run cosf sinf indeterminate scene_calls frame.
Proof.
  unfold RenderScene, scene_calls.
  rewrite run_app. apply then_cong; [apply RenderAirFreshner_calls|].
  clear frame; intros frame.
  rewrite run_app. apply then_cong; [apply RenderBackdrop_calls|].
  clear frame; intros frame.
  rewrite run_app. apply then_cong; [apply RenderBook_calls|].
  clear frame; intros frame.
  rewrite run_app. apply then_cong; [apply RenderFloor_calls|].
  clear frame; intros frame.
  rewrite run_app. apply then_cong; [apply RenderGlassesCase_calls|].
  clear frame; intros frame.
  rewrite run_app. apply then_cong; [apply RenderLamp_calls|].
  apply RenderTable_calls.
Qed.
End Script_calls.

(** ** What the calls store and draw *)

Section Calls_properties.
Variables cosf sinf : float -> float.
Variable indeterminate : OBJECT_MATERIAL.

Lemma SetTransformations_registries s x y z p this :
  same_registries (SetTransformations cosf sinf s x y z p this) this /\
  (is_Some (m_pShaderManager (SetTransformations cosf sinf s x y z p this))
   <-> is_Some (m_pShaderManager this)).
Proof.
  unfold SetTransformations, same_registries.
  destruct (m_pShaderManager this) eqn:Hsh; simpl; rewrite ?Hsh; repeat split; eauto.
Qed.

Lemma registered_same a b : same_registries a b -> registered a = registered b.
Proof. intros (Hids & Hn & _). unfold registered. now rewrite Hids, Hn. Qed.

Lemma registry_ok_same a b : same_registries a b -> registry_ok b -> registry_ok a.
Proof.
  intros (Hids & Hn & _). unfold registry_ok, array_shape. now rewrite Hids, Hn.
Qed.

Lemma perform_with_shader c frame :
  is_Some (m_pShaderManager (scene frame)) ->
  registry_ok (scene frame) ->
  vector_size (m_objectMaterials (scene frame)) <= INT_MAX ->
  exists frame',
    perform cosf sinf indeterminate c frame = Some frame' /\
    same_registries (scene frame') (scene frame) /\
    is_Some (m_pShaderManager (scene frame')) /\
    uniforms frame' =
    apply_call (registered (scene frame)) (m_objectMaterials (scene frame))
      indeterminate c (uniforms frame) /\
    snapshot <$> drawn frame' =
    (snapshot <$> drawn frame)
    ++ match c with Draw m => [(m, uniforms frame)] | _ => [] end.
Proof.
  intros [sh Hsh] Hok Hmax.
  assert (Hrefl : same_registries (scene frame) (scene frame))
    by (unfold same_registries; auto).
  destruct c as [s x y z p|r g b a|t|u_ v_|t|m]; cbn [perform apply_call].
  - eexists. split; [reflexivity|]. cbn [scene uniforms drawn].
    destruct (SetTransformations_registries s x y z p (scene frame)) as [Hreg Hiff].
    rewrite app_nil_r. repeat split; try apply Hreg. apply Hiff. eauto.
  - eexists. split; [reflexivity|]. cbn [scene uniforms drawn].
    unfold SetShaderColor. rewrite Hsh, app_nil_r. repeat split; eauto.
  - unfold call_SetShaderTexture, SetShaderTexture. rewrite Hsh.
    rewrite FindTextureSlot_slot_in by exact Hok. cbn [mbind option_bind].
    eexists. split; [reflexivity|]. cbn [scene uniforms drawn].
    rewrite app_nil_r. repeat split; eauto.
  - eexists. split; [reflexivity|]. cbn [scene uniforms drawn].
    unfold SetTextureUVScale. rewrite Hsh, app_nil_r. repeat split; eauto.
  - unfold call_SetShaderMaterial. rewrite SetShaderMaterial_spec by exact Hmax.
    rewrite Hsh. destruct (m_objectMaterials (scene frame)) as [|e0 mats] eqn:Hmats;
      cbn [mbind option_bind]; (eexists; split; [reflexivity|]);
      cbn [scene uniforms drawn]; rewrite app_nil_r, ?Hmats; repeat split; eauto.
  - eexists. split; [reflexivity|]. cbn [scene uniforms drawn].
    rewrite fmap_app. repeat split; eauto.
Qed.

Lemma run_with_shader calls :
  forall frame,
    is_Some (m_pShaderManager (scene frame)) ->
    registry_ok (scene frame) ->
    vector_size (m_objectMaterials (scene frame)) <= INT_MAX ->
    exists frame',
      run cosf sinf indeterminate calls frame = Some frame' /\
      same_registries (scene frame') (scene frame) /\
      is_Some (m_pShaderManager (scene frame')) /\
      uniforms frame' =
      foldl (λ u c, apply_call (registered (scene frame))
                      (m_objectMaterials (scene frame)) indeterminate c u)
        (uniforms frame) calls /\
      snapshot <$> drawn frame' =
      (snapshot <$> drawn frame)
      ++ snapshots (registered (scene frame)) (m_objectMaterials (scene frame))
           indeterminate calls (uniforms frame).
Proof.
  induction calls as [|c calls IH]; intros frame Hsh Hok Hmax.
  - exists frame. cbn [run foldl snapshots]. rewrite app_nil_r.
    unfold same_registries. auto.
  - destruct (perform_with_shader c frame Hsh Hok Hmax)
      as (frame1 & Hstep & Hreg1 & Hsh1 & Hu1 & Hd1).
    pose proof Hreg1 as (Hids & Hn & Hmats).
    destruct (IH frame1 Hsh1) as (frame' & Hrun & Hreg & Hsh' & Hu & Hd).
    { eapply registry_ok_same; eauto. }
    { now rewrite Hmats. }
    exists frame'. cbn [run]. unfold then_. rewrite Hstep. cbn [mbind option_bind].
    split; [exact Hrun|]. split.
    { destruct Hreg as (? & ? & ?). unfold same_registries. split; [congruence|].
      split; congruence. }
    split; [exact Hsh'|].
    rewrite (registered_same _ _ Hreg1), Hmats in Hu, Hd.
    split.
    + rewrite Hu, Hu1. reflexivity.
    + rewrite Hd, Hd1, Hu1, <- app_assoc. f_equal. now destruct c.
Qed.

Lemma perform_without_shader c frame :
  m_pShaderManager (scene frame) = None ->
  vector_size (m_objectMaterials (scene frame)) <= INT_MAX ->
  perform cosf sinf indeterminate c frame =
  match c, m_objectMaterials (scene frame) with
  | Material _, _ :: _ => None
  | _, _ =>
      Some {| scene := scene frame;
              uniforms := uniforms frame;
              drawn := drawn frame
                       ++ match c with
                          | Draw m => [{| mesh := m; drawn_shader := None;
                                          drawn_uniforms := uniforms frame |}]
                          | _ => []
                          end |}
  end.
Proof.
  intros Hnull Hmax.
  destruct c as [s x y z p|r g b a|t|u_ v_|t|m]; cbn [perform].
  - unfold call_SetTransformations, SetTransformations. rewrite Hnull, app_nil_r.
    now destruct (m_objectMaterials (scene frame)).
  - unfold call_SetShaderColor, SetShaderColor. rewrite Hnull, app_nil_r.
    now destruct (m_objectMaterials (scene frame)).
  - unfold call_SetShaderTexture, SetShaderTexture. rewrite Hnull, app_nil_r.
    now destruct (m_objectMaterials (scene frame)).
  - unfold call_SetTextureUVScale, SetTextureUVScale. rewrite Hnull, app_nil_r.
    now destruct (m_objectMaterials (scene frame)).
  - unfold call_SetShaderMaterial. rewrite SetShaderMaterial_spec by exact Hmax.
    rewrite Hnull, app_nil_r. now destruct (m_objectMaterials (scene frame)).
  - unfold call_Draw. rewrite Hnull. now destruct (m_objectMaterials (scene frame)).
Qed.

Lemma run_without_shader calls :
  forall frame,
    m_pShaderManager (scene frame) = None ->
    vector_size (m_objectMaterials (scene frame)) <= INT_MAX ->
    (m_objectMaterials (scene frame) <> [] -> has_material_call calls ->
     run cosf sinf indeterminate calls frame = None) /\
    (m_objectMaterials (scene frame) = [] \/ ~ has_material_call calls ->
     exists frame',
       run cosf sinf indeterminate calls frame = Some frame' /\
       scene frame' = scene frame /\
       uniforms frame' = uniforms frame /\
       snapshot <$> drawn frame' =
       (snapshot <$> drawn frame) ++ ((λ m, (m, uniforms frame)) <$> meshes calls)).
Proof.
  unfold has_material_call.
  induction calls as [|c calls IH]; intros frame Hnull Hmax.
  - split; [intros _ Hex; now apply Exists_nil in Hex|].
    intros _. exists frame. cbn [run]. unfold meshes. simpl.
    now rewrite app_nil_r.
  - pose proof (perform_without_shader c frame Hnull Hmax) as Hstep.
    cbn [run]. unfold then_. rewrite Hstep. clear Hstep.
    set (frame1 := {| scene := scene frame; uniforms := uniforms frame;
                      drawn := drawn frame ++ _ |}).
    destruct (IH frame1 Hnull Hmax) as [Hnone Hsome].
    unfold frame1 in Hnone at 1, Hsome at 1. cbn [scene] in Hnone, Hsome.
    split.
    + intros Hne Hex. apply Exists_cons in Hex.
      destruct (m_objectMaterials (scene frame)) as [|e0 mats] eqn:Hmats;
        [contradiction|].
      destruct c; cbn [mbind option_bind]; try reflexivity;
        (destruct Hex as [Hc|Hex]; [contradiction|]);
        (apply Hnone; [try rewrite Hmats; discriminate|exact Hex]).
    + intros Hcase.
      assert (Hrest : m_objectMaterials (scene frame) = [] \/
                      ~ Exists (λ c, match c with Material _ => True | _ => False end)
                          calls).
      { destruct Hcase as [Hempty|Hno]; [now left|right].
        intros Hex. apply Hno. now apply Exists_cons_tl. }
      destruct (Hsome Hrest) as (frame' & Hrun & Hscene & Hu & Hmeshes).
      assert (Hperf :
        match c, m_objectMaterials (scene frame) with
        | Material _, _ :: _ => None
        | _, _ => Some frame1
        end = Some frame1).
      { destruct c; try reflexivity.
        destruct (m_objectMaterials (scene frame)) as [|e0 mats]; [reflexivity|].
        destruct Hcase as [Hempty|Hno]; [discriminate|].
        exfalso. apply Hno. now apply Exists_cons_hd. }
      rewrite Hperf. cbn [mbind option_bind].
      exists frame'. split; [exact Hrun|]. split; [exact Hscene|].
      split; [exact Hu|]. rewrite Hmeshes. unfold frame1. cbn [drawn uniforms].
      rewrite fmap_app, <- app_assoc. f_equal. unfold meshes.
      now destruct c.
Qed.

Lemma meshes_of_pairs (u : gmap string Uniform) (l : list Mesh) :
  ((λ m, (m, u)) <$> l).*1 = l.
Proof. induction l as [|m l IH]; [reflexivity|]. cbn. now rewrite IH. Qed.

Lemma snapshot_mesh (l : list DrawCall) : (snapshot <$> l).*1 = mesh <$> l.
Proof. induction l as [|d l IH]; [reflexivity|]. cbn. now rewrite IH. Qed.

Lemma snapshots_meshes textures materials calls :
  forall u, (snapshots textures materials indeterminate calls u).*1 = meshes calls.
Proof.
  unfold meshes. induction calls as [|c calls IH]; intros u; [reflexivity|].
  destruct c; cbn [snapshots omap list_omap fmap list_fmap fst]; rewrite ?IH;
    reflexivity.
Qed.

Lemma snapshots_app textures materials (l1 l2 : list Call) :
  forall u,
    snapshots textures materials indeterminate (l1 ++ l2) u =
    snapshots textures materials indeterminate l1 u
    ++ snapshots textures materials indeterminate l2
         (foldl (λ u c, apply_call textures materials indeterminate c u) u l1).
Proof.
  induction l1 as [|c l1 IH]; intros u; [reflexivity|].
  destruct c; cbn [snapshots app foldl apply_call]; rewrite IH; reflexivity.
Qed.

Lemma scene_calls_have_material : has_material_call scene_calls.
Proof. unfold has_material_call. apply Exists_cons_tl, Exists_cons_hd. exact I. Qed.

(** X22. RenderScene is undefined exactly when there is no shader manager
    and the material registry is not empty: SetShaderMaterial is the one
    setter that calls through the pointer without a NULL test. *)
Theorem RenderScene_undefined_iff frame :
  registry_ok (scene frame) ->
  vector_size (m_objectMaterials (scene frame)) <= INT_MAX ->
  RenderScene cosf sinf indeterminate frame = None <->
  m_pShaderManager (scene frame) = None /\ m_objectMaterials (scene frame) <> [].
Proof.
  intros Hok Hmax. rewrite RenderScene_calls.
  destruct (m_pShaderManager (scene frame)) as [sh|] eqn:Hsh.
  - destruct (run_with_shader scene_calls frame) as (frame' & Hrun & _);
      [rewrite Hsh; eauto|exact Hok|exact Hmax|].
    rewrite Hrun. split; [discriminate|]. intros [Hnone _]. discriminate.
  - destruct (run_without_shader scene_calls frame Hsh Hmax) as [Hnone Hsome].
    split.
    + intros Hrun. split; [reflexivity|]. intros Hempty.
      destruct Hsome as (frame' & Hrun' & _); [now left|]. congruence.
    + intros [_ Hne]. apply Hnone; [exact Hne|apply scene_calls_have_material].
Qed.

(** X23. Whenever RenderScene is defined it issues the same seventeen draws
    in the same order, whatever the registries hold: a tag that is not
    registered skips nothing.  It leaves both registries as they were. *)
Theorem RenderScene_draws frame frame' :
  registry_ok (scene frame) ->
  vector_size (m_objectMaterials (scene frame)) <= INT_MAX ->
  RenderScene cosf sinf indeterminate frame = Some frame' ->
  mesh <$> drawn frame' = (mesh <$> drawn frame) ++ scene_meshes /\
  same_registries (scene frame') (scene frame).
Proof.
  intros Hok Hmax. rewrite RenderScene_calls. intros Hrun.
  destruct (m_pShaderManager (scene frame)) as [sh|] eqn:Hsh.
  - destruct (run_with_shader scene_calls frame) as (frame1 & Hrun1 & Hreg & _ & _ & Hd);
      [rewrite Hsh; eauto|exact Hok|exact Hmax|].
    rewrite Hrun in Hrun1. injection Hrun1 as <-. split; [|exact Hreg].
    apply (f_equal (fmap fst)) in Hd.
    rewrite fmap_app, snapshots_meshes, !snapshot_mesh in Hd.
    exact Hd.
  - destruct (run_without_shader scene_calls frame Hsh Hmax) as [Hnone Hsome].
    destruct (m_objectMaterials (scene frame)) as [|e0 mats] eqn:Hmats.
    + destruct Hsome as (frame1 & Hrun1 & Hscene & _ & Hd); [now left|].
      rewrite Hrun in Hrun1. injection Hrun1 as <-. split.
      * apply (f_equal (fmap fst)) in Hd.
        rewrite fmap_app, meshes_of_pairs, !snapshot_mesh in Hd. exact Hd.
      * rewrite Hscene. unfold same_registries. auto.
    + rewrite Hnone in Hrun; [discriminate|discriminate|].
      apply scene_calls_have_material.
Qed.

(** X24. RenderBook sets neither colour nor texture, so in RenderScene the
    book is drawn with what RenderBackdrop left: texturing on, the sampler
    on the slot of "wall", the UV scale (4, 4) and the backdrop's colour. *)
Theorem RenderScene_book_uses_backdrop_texture frame :
  is_Some (m_pShaderManager (scene frame)) ->
  registry_ok (scene frame) ->
  vector_size (m_objectMaterials (scene frame)) <= INT_MAX ->
  exists frame' d,
    RenderScene cosf sinf indeterminate frame = Some frame' /\
    drawn frame' !! (length (drawn frame) + 2)%nat = Some d /\
    mesh d = BoxMesh /\
    drawn_uniforms d !! g_UseTextureName = Some (IntValue 1) /\
    drawn_uniforms d !! g_TextureValueName
    = Some (Sampler2DValue (slot_in (registered (scene frame)) "wall")) /\
    drawn_uniforms d !! "UVscale"%string
    = Some (Vec2Value (Vec2 (Float.of_Z 4) (Float.of_Z 4))) /\
    drawn_uniforms d !! g_ColorValueName
    = Some (Vec4Value (Vec4 (hundredths 50) (hundredths 79) (hundredths 61)
                         Float.one)).
Proof.
  intros Hsh Hok Hmax.
  destruct (run_with_shader scene_calls frame Hsh Hok Hmax)
    as (frame' & Hrun & _ & _ & _ & Hd).
  exists frame'. rewrite RenderScene_calls.
  assert (Hlookup : (snapshot <$> drawn frame') !! (length (drawn frame) + 2)%nat
                    = snapshots (registered (scene frame))
                        (m_objectMaterials (scene frame)) indeterminate
                        scene_calls (uniforms frame) !! 2%nat).
  { rewrite Hd, lookup_app_r by (rewrite length_fmap; lia).
    rewrite length_fmap. f_equal. lia. }
  unfold scene_calls in Hlookup.
  rewrite 3!snapshots_app in Hlookup.
  set (textures := registered (scene frame)) in *.
  set (materials := m_objectMaterials (scene frame)) in *.
  unfold airFreshner_calls, backdrop_calls, book_calls in Hlookup.
  cbn [snapshots app lookup list_lookup foldl] in Hlookup.
  rewrite list_lookup_fmap in Hlookup.
  destruct (drawn frame' !! (length (drawn frame) + 2)%nat) as [d|];
    [|discriminate].
  exists d. split; [exact Hrun|]. split; [reflexivity|].
  injection Hlookup as Hmesh Hu. split; [exact Hmesh|]. rewrite Hu.
  unfold apply_call, setFloatValue, setVec3Value, setVec2Value, setVec4Value,
    setSampler2DValue, setIntValue, g_UseTextureName, g_TextureValueName,
    g_ColorValueName.
  destruct materials; repeat split;
    repeat (rewrite lookup_insert_ne by discriminate); apply lookup_insert_eq.
Qed.
Lemma apply_call_frame textures materials c u name :
  name ∉ render_uniforms ->
  apply_call textures materials indeterminate c u !! name = u !! name.
Proof.
  unfold render_uniforms. rewrite !not_elem_of_cons.
  intros (? & ? & ? & ? & ? & ? & ? & _).
  destruct c; cbn [apply_call]; try reflexivity;
    unfold setFloatValue, setVec3Value, setVec2Value, setVec4Value,
      setSampler2DValue, setIntValue;
    try destruct materials;
    repeat (rewrite lookup_insert_ne by congruence); reflexivity.
Qed.

Lemma foldl_apply_call_frame textures materials calls name :
  name ∉ render_uniforms ->
  forall u,
    foldl (λ u c, apply_call textures materials indeterminate c u) u calls !! name
    = u !! name.
Proof.
  intros Hname. induction calls as [|c calls IH]; intros u; [reflexivity|].
  cbn [foldl]. rewrite IH. now apply apply_call_frame.
Qed.

Lemma snapshots_frame textures materials calls name :
  name ∉ render_uniforms ->
  forall u,
    Forall (λ s, s.2 !! name = u !! name)
      (snapshots textures materials indeterminate calls u).
Proof.
  intros Hname. induction calls as [|c calls IH]; intros u; [constructor|].
  assert (Hstep : Forall (λ s, s.2 !! name = u !! name)
                    (snapshots textures materials indeterminate calls
                       (apply_call textures materials indeterminate c u))).
  { eapply Forall_impl; [apply IH|]. intros s Hs. cbn beta in Hs. rewrite Hs.
    now apply apply_call_frame. }
  destruct c; cbn [snapshots]; try exact Hstep.
  constructor; [reflexivity|apply IH].
Qed.

(** X25. RenderScene writes only seven uniforms beside the model matrix:
    whenever it is defined, every other uniform, such as the lights,
    holds at each of its draws and at its end the value it had before. *)
Theorem RenderScene_keeps_other_uniforms frame frame' name :
  registry_ok (scene frame) ->
  vector_size (m_objectMaterials (scene frame)) <= INT_MAX ->
  RenderScene cosf sinf indeterminate frame = Some frame' ->
  name ∉ render_uniforms ->
  uniforms frame' !! name = uniforms frame !! name /\
  Forall (λ d, drawn_uniforms d !! name = uniforms frame !! name)
    (drop (length (drawn frame)) (drawn frame')).
Proof.
  intros Hok Hmax. rewrite RenderScene_calls. intros Hrun Hname.
  assert (Hdrop : forall (l : list (Mesh * gmap string Uniform)),
             snapshot <$> drawn frame' = (snapshot <$> drawn frame) ++ l ->
             snapshot <$> drop (length (drawn frame)) (drawn frame') = l).
  { intros l Hd. rewrite fmap_drop, Hd.
    rewrite drop_app_length' by now rewrite length_fmap. reflexivity. }
  destruct (m_pShaderManager (scene frame)) as [sh|] eqn:Hsh.
  - destruct (run_with_shader scene_calls frame) as (frame1 & Hrun1 & _ & _ & Hu & Hd);
      [rewrite Hsh; eauto|exact Hok|exact Hmax|].
    rewrite Hrun in Hrun1. injection Hrun1 as <-. split.
    + rewrite Hu. now apply foldl_apply_call_frame.
    + apply Hdrop in Hd. apply (Forall_fmap snapshot (λ s, s.2 !! name = _)).
      rewrite Hd. now apply snapshots_frame.
  - destruct (run_without_shader scene_calls frame Hsh Hmax) as [Hnone Hsome].
    destruct (m_objectMaterials (scene frame)) as [|e0 mats] eqn:Hmats.
    + destruct Hsome as (frame1 & Hrun1 & _ & Hu & Hd); [now left|].
      rewrite Hrun in Hrun1. injection Hrun1 as <-. split; [now rewrite Hu|].
      apply Hdrop in Hd. apply (Forall_fmap snapshot (λ s, s.2 !! name = _)).
      rewrite Hd. apply Forall_fmap, Forall_true. reflexivity.
    + rewrite Hnone in Hrun; [discriminate|discriminate|].
      apply scene_calls_have_material.
Qed.
End Calls_properties.

(** * Properties of the prepared scene *)

Lemma scene_calls_ask_prepared : Forall asks_prepared scene_calls.
Proof.
  unfold scene_calls, airFreshner_calls, backdrop_calls, book_calls, floor_calls,
    glassesCase_calls, lamp_calls, table_calls, lamp_part_calls, table_part_calls,
    legPositions.
  cbn [flat_map app].
  repeat (apply Forall_cons_2;
          [first [exact I | apply list_elem_of_In; cbn; tauto]|]).
  apply Forall_nil_2.
Qed.

Lemma apply_Material_lit textures materials indeterminate t u :
  t ∈ tag <$> materials ->
  lit_by materials (apply_call textures materials indeterminate (Material t) u).
Proof.
  intros Ht. apply list_elem_of_fmap_1 in Ht as (m & -> & Hm).
  destruct (list_find_elem_of (λ e, tag e = tag m) materials m Hm eq_refl)
    as [[k e] Hfind].
  pose proof Hfind as Hfound. apply list_find_Some in Hfound as (Hk & _ & _).
  apply list_elem_of_lookup_2 in Hk.
  cbn [apply_call]. unfold first_material. rewrite Hfind.
  destruct materials as [|e0 mats]; [now apply elem_of_nil in Hm|].
  exists e. split; [exact Hk|].
  unfold setFloatValue, setVec3Value. cbn [copy_reflectance diffuseColor
    specularColor shininess].
  split; [|split].
  - rewrite !lookup_insert_ne by discriminate. apply lookup_insert_eq.
  - rewrite lookup_insert_ne by discriminate. apply lookup_insert_eq.
  - apply lookup_insert_eq.
Qed.

Lemma apply_call_keeps_lit textures materials indeterminate c u :
  asks_registered textures materials c ->
  lit_by materials u ->
  lit_by materials (apply_call textures materials indeterminate c u).
Proof.
  intros Hask (m & Hm & Hd & Hs & Hn).
  destruct c as [s x y z p|r g b a|t|u_ v_|t|m0];
    try (now apply apply_Material_lit); exists m; (split; [exact Hm|]);
    cbn [apply_call];
    unfold setVec2Value, setVec4Value, setSampler2DValue, setIntValue,
      g_UseTextureName, g_TextureValueName, g_ColorValueName;
    rewrite ?lookup_insert_ne by discriminate; auto.
Qed.

Lemma apply_call_keeps_flat_or_sampled textures materials indeterminate c u :
  asks_registered textures materials c ->
  flat_or_sampled textures u ->
  flat_or_sampled textures (apply_call textures materials indeterminate c u).
Proof.
  intros Hask Hu. unfold flat_or_sampled in *.
  destruct c as [s x y z p|r g b a|t|u_ v_|t|m0]; cbn [apply_call];
    try exact Hu.
  - left. unfold setVec4Value, setIntValue, g_UseTextureName, g_ColorValueName.
    rewrite lookup_insert_ne by discriminate. apply lookup_insert_eq.
  - right. cbn [asks_registered] in Hask.
    apply list_elem_of_fmap_1 in Hask as (e & -> & He).
    destruct (list_find_elem_of (λ e', Texture.tag e' = Texture.tag e) textures e
                He eq_refl) as [[k e'] Hfind].
    unfold slot_in. rewrite Hfind. exists k, e'.
    apply list_find_Some in Hfind as (Hk & _ & _).
    unfold setSampler2DValue, setIntValue, g_UseTextureName, g_TextureValueName.
    split; [|split; [|exact Hk]].
    + rewrite lookup_insert_ne by discriminate. apply lookup_insert_eq.
    + apply lookup_insert_eq.
  - unfold setVec2Value, g_UseTextureName, g_TextureValueName in *.
    rewrite !lookup_insert_ne by discriminate. exact Hu.
  - unfold setFloatValue, setVec3Value, g_UseTextureName, g_TextureValueName in *.
    destruct materials; [exact Hu|].
    rewrite !lookup_insert_ne by discriminate. exact Hu.
Qed.

Lemma snapshots_prepared textures materials indeterminate calls :
  Forall (asks_registered textures materials) calls ->
  forall u,
    lit_by materials u -> flat_or_sampled textures u ->
    Forall (λ s, lit_by materials s.2 /\ flat_or_sampled textures s.2)
      (snapshots textures materials indeterminate calls u).
Proof.
  induction 1 as [|c calls Hc Hcalls IH]; intros u Hlit Hflat; [constructor|].
  assert (Hstep : Forall (λ s, lit_by materials s.2 /\ flat_or_sampled textures s.2)
                    (snapshots textures materials indeterminate calls
                       (apply_call textures materials indeterminate c u))).
  { apply IH.
    - now apply apply_call_keeps_lit.
    - now apply apply_call_keeps_flat_or_sampled. }
  destruct c; cbn [snapshots]; try exact Hstep.
  constructor; [split; assumption|]. now apply IH.
Qed.

Lemma CreateGLTexture_keeps_rest stbi_load glGenName filename tag_ this gl b
    this' gl' :
  array_shape this ->
  CreateGLTexture stbi_load glGenName filename tag_ this gl = Some (b, this', gl') ->
  m_pShaderManager this' = m_pShaderManager this /\
  m_objectMaterials this' = m_objectMaterials this.
Proof.
  intros Hshape Hrun.
  destruct (CreateGLTexture_cases stbi_load glGenName filename tag_ this gl b
              this' gl' Hshape Hrun) as [[_ ->]|(_ & -> & _)]; split; reflexivity.
Qed.

Lemma DefineObjectMaterials_rest this :
  m_pShaderManager (DefineObjectMaterials this) = m_pShaderManager this /\
  m_textureIDs (DefineObjectMaterials this) = m_textureIDs this /\
  m_loadedTextures (DefineObjectMaterials this) = m_loadedTextures this.
Proof. repeat split. Qed.

Lemma SetupSceneLights_is_Some this u :
  is_Some (SetupSceneLights this u) <-> is_Some (m_pShaderManager this).
Proof.
  unfold SetupSceneLights. destruct (m_pShaderManager this); split; eauto;
    intros [? ?]; discriminate.
Qed.

Section Prepare_properties.
Variable stbi_load : string -> option Image.
Variable glGenName : list Z -> Z.
Variable max_units : Z.
Variables cosf sinf : float -> float.
Variable indeterminate : OBJECT_MATERIAL.

Lemma LoadSceneTextures_state this gl :
  registry_ok this ->
  m_loadedTextures this + 4 <= Z.of_nat MAX_TEXTURES ->
  Z.of_nat MAX_TEXTURES <= max_units ->
  exists this' gl',
    LoadSceneTextures stbi_load glGenName max_units this gl = Some (this', gl') /\
    registry_ok this' /\
    m_pShaderManager this' = m_pShaderManager this /\
    m_objectMaterials this' = m_objectMaterials this /\
    Texture.tag <$> registered this' =
    (Texture.tag <$> registered this)
    ++ (filter (λ p, loads stbi_load p.1 = true) scene_textures).*2 /\
    forall (i : nat) e,
      registered this' !! i = Some e ->
      bound_texture gl' (Z.of_nat i) = Texture.ID e.
Proof.
  intros Hok Hfree Hmax. unfold LoadSceneTextures, MAX_TEXTURES in *.
  destruct (CreateGLTexture_one stbi_load glGenName "textures/wall.jpg" "wall"
              this gl Hok)
    as (this1 & gl1 & Hrun1 & Hok1 & Hn1 & Htags1); [unfold MAX_TEXTURES; lia|].
  destruct (CreateGLTexture_keeps_rest _ _ _ _ _ _ _ _ _ (proj1 Hok) Hrun1)
    as [Hsh1 Hm1].
  rewrite Hrun1. cbn [mbind option_bind].
  destruct (CreateGLTexture_one stbi_load glGenName "textures/tilesf2.jpg"
              "lampshade" this1 gl1 Hok1)
    as (this2 & gl2 & Hrun2 & Hok2 & Hn2 & Htags2);
    [unfold MAX_TEXTURES; destruct (loads _ _); lia|].
  destruct (CreateGLTexture_keeps_rest _ _ _ _ _ _ _ _ _ (proj1 Hok1) Hrun2)
    as [Hsh2 Hm2].
  rewrite Hrun2. cbn [mbind option_bind].
  destruct (CreateGLTexture_one stbi_load glGenName "textures/stone.jpg" "stone"
              this2 gl2 Hok2)
    as (this3 & gl3 & Hrun3 & Hok3 & Hn3 & Htags3);
    [unfold MAX_TEXTURES; repeat destruct (loads _ _); lia|].
  destruct (CreateGLTexture_keeps_rest _ _ _ _ _ _ _ _ _ (proj1 Hok2) Hrun3)
    as [Hsh3 Hm3].
  rewrite Hrun3. cbn [mbind option_bind].
  destruct (CreateGLTexture_one stbi_load glGenName "textures/wood.jpg" "floor"
              this3 gl3 Hok3)
    as (this4 & gl4 & Hrun4 & Hok4 & Hn4 & Htags4);
    [unfold MAX_TEXTURES; repeat destruct (loads _ _); lia|].
  destruct (CreateGLTexture_keeps_rest _ _ _ _ _ _ _ _ _ (proj1 Hok3) Hrun4)
    as [Hsh4 Hm4].
  rewrite Hrun4. cbn [mbind option_bind].
  destruct (BindGLTextures_spec max_units this4 gl4 Hok4 Hmax)
    as (gl' & -> & _ & _ & Hin & _).
  cbn [mbind option_bind]. exists this4, gl'. split; [reflexivity|].
  split; [exact Hok4|]. split; [congruence|]. split; [congruence|].
  split; [|exact Hin].
  rewrite Htags4, Htags3, Htags2, Htags1, <- !app_assoc. f_equal.
  unfold scene_textures. cbn [filter list_filter fst].
  destruct (loads stbi_load "textures/wall.jpg"),
    (loads stbi_load "textures/tilesf2.jpg"),
    (loads stbi_load "textures/stone.jpg"),
    (loads stbi_load "textures/wood.jpg"); reflexivity.
Qed.

(** X26. With room for four textures and sixteen texture units,
    PrepareScene is undefined exactly when there is no shader manager:
    SetupSceneLights calls through the pointer without a NULL test, whatever
    the decoder returned for the four files. *)
Theorem PrepareScene_undefined_iff this gl u :
  registry_ok this ->
  m_loadedTextures this + 4 <= Z.of_nat MAX_TEXTURES ->
  Z.of_nat MAX_TEXTURES <= max_units ->
  PrepareScene stbi_load glGenName max_units this gl u = None <->
  m_pShaderManager this = None.
Proof.
  intros Hok Hfree Hmax. unfold PrepareScene.
  destruct (LoadSceneTextures_state this gl Hok Hfree Hmax)
    as (this' & gl' & -> & _ & Hsh & _).
  cbn [mbind option_bind]. unfold SetupSceneLights.
  destruct (DefineObjectMaterials_rest this') as [-> _]. rewrite Hsh.
  destruct (m_pShaderManager this); cbn [mbind option_bind]; split;
    congruence.
Qed.

(** X27. After PrepareScene with its four files loaded, RenderScene asks
    for no tag that is missing: every draw has the material uniforms of a
    registered material, and has texturing off or its sampler on the slot of
    a registered texture, whose handle is bound to the unit of that slot. *)
Theorem PrepareScene_then_RenderScene this gl u :
  is_Some (m_pShaderManager this) ->
  registry_ok this ->
  m_loadedTextures this + 4 <= Z.of_nat MAX_TEXTURES ->
  Z.of_nat MAX_TEXTURES <= max_units ->
  vector_size (m_objectMaterials this) + 8 <= INT_MAX ->
  Forall (λ p, loads stbi_load p.1 = true) scene_textures ->
  exists this' gl' u' frame',
    PrepareScene stbi_load glGenName max_units this gl u
    = Some (this', gl', u', prepared_meshes) /\
    RenderScene cosf sinf indeterminate
      {| scene := this'; uniforms := u'; drawn := [] |} = Some frame' /\
    Forall (λ d, lit_by (m_objectMaterials this') (drawn_uniforms d) /\
                 flat_or_sampled (registered this') (drawn_uniforms d))
      (drawn frame') /\
    forall (k : nat) e,
      registered this' !! k = Some e ->
      bound_texture gl' (Z.of_nat k) = Texture.ID e.
Proof.
  intros Hsh Hok Hfree Hunits Hmax Hloads.
  destruct (LoadSceneTextures_state this gl Hok Hfree Hunits)
    as (this1 & gl1 & Hload & Hok1 & Hsh1 & Hm1 & Htags & Hbound).
  assert (Hlights : is_Some (SetupSceneLights (DefineObjectMaterials this1) u)).
  { apply SetupSceneLights_is_Some.
    destruct (DefineObjectMaterials_rest this1) as [-> _]. now rewrite Hsh1. }
  destruct Hlights as [u' Hlights].
  set (this' := DefineObjectMaterials this1) in *.
  assert (Hmats : m_objectMaterials this' = m_objectMaterials this ++ defined_materials).
  { unfold this'. now rewrite DefineObjectMaterials_app, Hm1. }
  assert (Hall : filter (λ p, loads stbi_load p.1 = true) scene_textures
                 = scene_textures).
  { unfold scene_textures in *.
    apply Forall_cons_1 in Hloads as [H1 Hloads].
    apply Forall_cons_1 in Hloads as [H2 Hloads].
    apply Forall_cons_1 in Hloads as [H3 Hloads].
    apply Forall_cons_1 in Hloads as [H4 _].
    cbn [fst] in H1, H2, H3, H4. cbn [filter list_filter fst].
    rewrite H1, H2, H3, H4. reflexivity. }
  rewrite Hall in Htags.
  set (frame0 := {| scene := this'; uniforms := u'; drawn := [] |}).
  destruct (run_with_shader cosf sinf indeterminate scene_calls frame0)
    as (frame' & Hrun & _ & _ & _ & Hd).
  { unfold frame0, this'. cbn [scene].
    destruct (DefineObjectMaterials_rest this1) as [-> _]. now rewrite Hsh1. }
  { exact Hok1. }
  { unfold frame0. cbn [scene]. rewrite Hmats. unfold vector_size in *.
    rewrite length_app. cbn [defined_materials length]. lia. }
  exists this', gl1, u', frame'. split.
  { unfold PrepareScene. rewrite Hload. cbn [mbind option_bind].
    fold this'. rewrite Hlights. reflexivity. }
  split; [rewrite RenderScene_calls; exact Hrun|].
  split; [|exact Hbound].
  unfold frame0 in Hd. cbn [scene uniforms drawn fmap list_fmap app] in Hd.
  change (registered this') with (registered this1) in *.
  apply (Forall_fmap snapshot
           (λ s, lit_by (m_objectMaterials this') s.2 /\
                 flat_or_sampled (registered this1) s.2)).
  rewrite Hd.
  assert (Hasks : Forall (asks_registered (registered this1)
                            (m_objectMaterials this')) scene_calls).
  { eapply Forall_impl; [apply scene_calls_ask_prepared|].
    intros c Hc. destruct c; try exact I; cbn [asks_prepared asks_registered] in *.
    - rewrite Htags. apply elem_of_app. now right.
    - rewrite Hmats, fmap_app. apply elem_of_app. now right. }
  unfold scene_calls in *. apply Forall_app in Hasks as [Hfirst Hrest].
  rewrite snapshots_app. unfold airFreshner_calls in Hfirst |- *.
  apply Forall_cons_1 in Hfirst as [_ Hfirst].
  apply Forall_cons_1 in Hfirst as [Hmaterial _].
  cbn [snapshots foldl app].
  assert (Hlit : forall t r g b a u0,
             asks_registered (registered this1) (m_objectMaterials this')
               (Material t) ->
             lit_by (m_objectMaterials this')
               (apply_call (registered this1) (m_objectMaterials this')
                  indeterminate (Color r g b a)
                  (apply_call (registered this1) (m_objectMaterials this')
                     indeterminate (Material t) u0)) /\
             flat_or_sampled (registered this1)
               (apply_call (registered this1) (m_objectMaterials this')
                  indeterminate (Color r g b a)
                  (apply_call (registered this1) (m_objectMaterials this')
                     indeterminate (Material t) u0))).
  { intros t r g b a u0 Ht. split.
    - apply apply_call_keeps_lit; [exact I|]. now apply apply_Material_lit.
    - left. cbn [apply_call].
      unfold setVec4Value, setIntValue, g_UseTextureName, g_ColorValueName.
      rewrite lookup_insert_ne by discriminate. apply lookup_insert_eq. }
  apply Forall_cons_2; [now apply Hlit|].
  apply snapshots_prepared; [exact Hrest| |].
  - exact (proj1 (Hlit _ _ _ _ _ _ Hmaterial)).
  - exact (proj2 (Hlit _ _ _ _ _ _ Hmaterial)).
Qed.
End Prepare_properties.

(** * The further properties on the sample states *)

Lemma empty_scene_ok : registry_ok empty_scene.
Proof. split; [reflexivity | simpl; unfold MAX_TEXTURES; lia]. Qed.

Lemma unshaded_scene_ok : registry_ok unshaded_scene.
Proof. split; [reflexivity | simpl; unfold MAX_TEXTURES; lia]. Qed.

Lemma first_frame_ok : registry_ok (scene first_frame).
Proof. exact two_textures_ok. Qed.

Lemma full_table_ok : registry_ok full_table.
Proof. split; [reflexivity | simpl; unfold MAX_TEXTURES; lia]. Qed.

Lemma CreateGLTexture_registry_ok_while_room_witness :
  (exists this' gl',
     CreateGLTexture sample_decoder next_name "textures/gray.png" "gray"
       full_table fresh_gl = Some (false, this', gl') /\
     registry_ok this') /\
  CreateGLTexture sample_decoder next_name "textures/decal.png" "decal"
    full_table fresh_gl = None.
Proof.
  destruct (CreateGLTexture_registry_ok_while_room sample_decoder next_name
              "textures/gray.png" "gray" full_table fresh_gl full_table_ok)
    as [Hrejected _].
  destruct (CreateGLTexture_registry_ok_while_room sample_decoder next_name
              "textures/decal.png" "decal" full_table fresh_gl full_table_ok)
    as [_ Hfull].
  split.
  - apply Hrejected. right. reflexivity.
  - apply Hfull; reflexivity.
Defined.

Lemma CreateGLTexture_then_find_witness :
  exists this' gl',
    CreateGLTexture sample_decoder next_name "textures/decal.png" "decal"
      two_textures fresh_gl = Some (true, this', gl') /\
    FindTextureSlot this' "decal" = Some 2 /\
    FindTextureID this' "decal" = Some (int_of_GLuint (next_name [])).
Proof.
  destruct (CreateGLTexture sample_decoder next_name "textures/decal.png" "decal"
              two_textures fresh_gl) as [[[[] this'] gl']|] eqn:Hrun;
    [|vm_compute in Hrun; discriminate..].
  exists this', gl'. split; [reflexivity|].
  apply (CreateGLTexture_then_find sample_decoder next_name
           "textures/decal.png" "decal" two_textures fresh_gl this' gl').
  - exact two_textures_ok.
  - exact Hrun.
  - repeat (constructor; [discriminate|]). constructor.
Defined.

Lemma CreateGLTexture_keeps_lookups_witness :
  exists b this' gl',
    CreateGLTexture sample_decoder next_name "textures/wall.jpg" "floor"
      two_textures fresh_gl = Some (b, this', gl') /\
    FindTextureSlot this' "floor" = FindTextureSlot two_textures "floor" /\
    FindTextureID this' "floor" = FindTextureID two_textures "floor".
Proof.
  destruct (CreateGLTexture sample_decoder next_name "textures/wall.jpg" "floor"
              two_textures fresh_gl) as [[[b this'] gl']|] eqn:Hrun;
    [|vm_compute in Hrun; discriminate].
  exists b, this', gl'. split; [reflexivity|].
  apply (CreateGLTexture_keeps_lookups sample_decoder next_name
           "textures/wall.jpg" "floor" two_textures fresh_gl b this' gl').
  - exact two_textures_ok.
  - exact Hrun.
  - right. apply Exists_cons_tl, Exists_cons_hd. reflexivity.
Defined.

Lemma CreateGLTexture_rejected_keeps_name_witness :
  exists gl',
    CreateGLTexture sample_decoder next_name "textures/gray.png" "gray"
      two_textures fresh_gl = Some (false, two_textures, gl') /\
    gl_names gl' = next_name (gl_names fresh_gl) :: gl_names fresh_gl /\
    gl_active_texture gl' = gl_active_texture fresh_gl /\
    bound_texture gl' (gl_active_texture fresh_gl) = next_name (gl_names fresh_gl).
Proof.
  apply (CreateGLTexture_rejected_keeps_name sample_decoder next_name
           "textures/gray.png" "gray" two_textures fresh_gl
           {| width := 1; height := 1; colorChannels := 2; pixels := [128; 255] |}).
  - reflexivity.
  - discriminate.
  - discriminate.
Defined.

Lemma BindGLTextures_idempotent_witness :
  exists gl',
    BindGLTextures 32 two_textures fresh_gl = Some gl' /\
    BindGLTextures 32 two_textures gl' = Some gl'.
Proof.
  destruct (BindGLTextures 32 two_textures fresh_gl) as [gl'|] eqn:Hrun;
    [|vm_compute in Hrun; discriminate].
  exists gl'. split; [reflexivity|].
  apply (BindGLTextures_idempotent 32 two_textures fresh_gl gl').
  - exact two_textures_ok.
  - unfold MAX_TEXTURES. lia.
  - exact Hrun.
Defined.

Lemma BindGLTextures_frame_witness :
  exists gl',
    BindGLTextures 32 two_textures fresh_gl = Some gl' /\
    gl_names gl' = gl_names fresh_gl /\
    gl_textures gl' = gl_textures fresh_gl /\
    (forall unit, unit < 0 \/ m_loadedTextures two_textures <= unit ->
                  bound_texture gl' unit = bound_texture fresh_gl unit) /\
    (m_loadedTextures two_textures = 0 -> gl' = fresh_gl).
Proof.
  destruct (BindGLTextures 32 two_textures fresh_gl) as [gl'|] eqn:Hrun;
    [|vm_compute in Hrun; discriminate].
  exists gl'. split; [reflexivity|].
  apply (BindGLTextures_frame 32 two_textures fresh_gl gl').
  - exact two_textures_ok.
  - unfold MAX_TEXTURES. lia.
  - exact Hrun.
Defined.

Lemma BindGLTextures_slot_holds_handle_witness :
  exists gl',
    BindGLTextures 32 two_textures fresh_gl = Some gl' /\
    FindTextureID two_textures "floor"
    = Some (int_of_GLuint (bound_texture gl' 1)).
Proof.
  destruct (BindGLTextures 32 two_textures fresh_gl) as [gl'|] eqn:Hrun;
    [|vm_compute in Hrun; discriminate].
  exists gl'. split; [reflexivity|].
  apply (BindGLTextures_slot_holds_handle 32 two_textures fresh_gl gl' "floor" 1).
  - exact two_textures_ok.
  - unfold MAX_TEXTURES. lia.
  - exact Hrun.
  - vm_compute. reflexivity.
  - discriminate.
Defined.

Lemma CreateGLTexture_after_bind_unbinds_witness :
  exists gl1 this' gl2,
    BindGLTextures 32 two_textures fresh_gl = Some gl1 /\
    CreateGLTexture sample_decoder next_name "textures/decal.png" "decal"
      two_textures gl1 = Some (true, this', gl2) /\
    bound_texture gl2 (m_loadedTextures two_textures - 1) = 0 /\
    forall (i : nat) e,
      Z.of_nat i < m_loadedTextures two_textures - 1 ->
      m_textureIDs two_textures !! i = Some e ->
      bound_texture gl2 (Z.of_nat i) = Texture.ID e.
Proof.
  destruct (BindGLTextures 32 two_textures fresh_gl) as [gl1|] eqn:Hbind;
    [|vm_compute in Hbind; discriminate].
  destruct (CreateGLTexture_one sample_decoder next_name "textures/decal.png"
              "decal" two_textures gl1 two_textures_ok)
    as (this' & gl2 & Hrun & _); [simpl; unfold MAX_TEXTURES; lia|].
  exists gl1, this', gl2. split; [reflexivity|]. split; [exact Hrun|].
  apply (CreateGLTexture_after_bind_unbinds sample_decoder next_name 32
           "textures/decal.png" "decal" two_textures fresh_gl gl1 this' gl2).
  - exact two_textures_ok.
  - simpl. lia.
  - unfold MAX_TEXTURES. lia.
  - exact Hbind.
  - exact Hrun.
Defined.

Lemma DestroyGLTextures_keeps_slots_and_bindings_witness :
  exists this' gl',
    DestroyGLTextures next_name two_textures fresh_gl = Some (this', gl') /\
    (forall tag_, FindTextureSlot this' tag_ = FindTextureSlot two_textures tag_) /\
    (forall unit, bound_texture gl' unit = bound_texture fresh_gl unit) /\
    forall (i : nat) e e',
      Z.of_nat i < m_loadedTextures two_textures ->
      m_textureIDs two_textures !! i = Some e ->
      m_textureIDs this' !! i = Some e' ->
      Texture.ID e ∈ gl_names fresh_gl ->
      Texture.ID e' <> Texture.ID e.
Proof.
  destruct (DestroyGLTextures next_name two_textures fresh_gl)
    as [[this' gl']|] eqn:Hrun; [|vm_compute in Hrun; discriminate].
  exists this', gl'. split; [reflexivity|].
  apply (DestroyGLTextures_keeps_slots_and_bindings next_name two_textures
           fresh_gl this' gl').
  - exact next_name_fresh.
  - exact two_textures_ok.
  - exact Hrun.
Defined.

Lemma LoadSceneTextures_registers_loaded_witness :
  exists this' gl',
    LoadSceneTextures sample_decoder next_name 32 two_textures fresh_gl
    = Some (this', gl') /\
    Texture.tag <$> registered this' =
    (Texture.tag <$> registered two_textures)
    ++ (filter (λ p, loads sample_decoder p.1 = true) scene_textures).*2 /\
    forall (i : nat) e,
      registered this' !! i = Some e ->
      bound_texture gl' (Z.of_nat i) = Texture.ID e.
Proof.
  apply (LoadSceneTextures_registers_loaded sample_decoder next_name 32
           two_textures fresh_gl).
  - exact two_textures_ok.
  - simpl. unfold MAX_TEXTURES. lia.
  - unfold MAX_TEXTURES. lia.
Defined.

Lemma register_material_then_find_witness :
  FindMaterial
    (register_material (register_material empty_scene metalMaterial) floorMaterial)
    (tag floorMaterial) metalMaterial
  = Some (true, copy_reflectance floorMaterial metalMaterial).
Proof.
  apply (register_material_then_find (register_material empty_scene metalMaterial)
           floorMaterial metalMaterial).
  - vm_compute. reflexivity.
  - repeat (constructor; [discriminate|]). constructor.
Defined.

Lemma register_material_keeps_lookups_witness :
  FindMaterial (register_material (DefineObjectMaterials empty_scene) secondFloor)
    "floor" metalMaterial
  = FindMaterial (DefineObjectMaterials empty_scene) "floor" metalMaterial.
Proof.
  apply (register_material_keeps_lookups (DefineObjectMaterials empty_scene)
           secondFloor "floor" metalMaterial).
  - vm_compute. reflexivity.
  - discriminate.
  - right. apply Exists_cons_tl, Exists_cons_hd. reflexivity.
Defined.

Lemma first_registration_finds_every_tag_witness :
  FindMaterial empty_scene "wall" metalMaterial = Some (false, metalMaterial) /\
  FindMaterial (register_material empty_scene floorMaterial) "wall" metalMaterial
  = Some (true, if decide (tag floorMaterial = "wall"%string)
                then copy_reflectance floorMaterial metalMaterial
                else metalMaterial).
Proof.
  apply (first_registration_finds_every_tag empty_scene floorMaterial "wall"
           metalMaterial).
  reflexivity.
Defined.

Lemma DefineObjectMaterials_finds_each_witness :
  FindMaterial (DefineObjectMaterials empty_scene) (tag glassMaterial) metalMaterial
  = Some (true, copy_reflectance glassMaterial metalMaterial).
Proof.
  apply (DefineObjectMaterials_finds_each empty_scene glassMaterial metalMaterial).
  - vm_compute. discriminate.
  - constructor.
  - apply list_elem_of_In. simpl. tauto.
Defined.

Lemma DefineObjectMaterials_twice_witness :
  length (m_objectMaterials
            (DefineObjectMaterials (DefineObjectMaterials empty_scene)))
  = (length (m_objectMaterials empty_scene) + 16)%nat /\
  FindMaterial (DefineObjectMaterials (DefineObjectMaterials empty_scene))
    "table" metalMaterial
  = FindMaterial (DefineObjectMaterials empty_scene) "table" metalMaterial.
Proof.
  apply (DefineObjectMaterials_twice empty_scene "table" metalMaterial).
  vm_compute. discriminate.
Defined.

Lemma setters_without_shader_manager_witness :
  SetTransformations cos_poly sin_poly (vec3_lit 400 40 550) Float.zero
    (Float.of_Z (-195)) Float.zero (vec3_lit (-150) 720 400) unshaded_scene
  = unshaded_scene /\
  SetShaderColor (hundredths 40) (hundredths 40) (hundredths 40) Float.one
    unshaded_scene ∅ = ∅ /\
  SetShaderTexture "wall" unshaded_scene ∅ = Some ∅ /\
  SetTextureUVScale (Float.of_Z 4) (Float.of_Z 4) unshaded_scene ∅ = ∅ /\
  (m_objectMaterials unshaded_scene = [] ->
   SetShaderMaterial "bookCover" blank_material unshaded_scene ∅ = Some ∅) /\
  (m_objectMaterials unshaded_scene <> [] ->
   SetShaderMaterial "bookCover" blank_material unshaded_scene ∅ = None).
Proof.
  apply (setters_without_shader_manager cos_poly sin_poly unshaded_scene ∅).
  - reflexivity.
  - vm_compute. discriminate.
Defined.

Lemma SetShaderTexture_unregistered_witness :
  exists u',
    SetShaderTexture "stone" two_textures ∅ = Some u' /\
    u' !! g_UseTextureName = Some (IntValue 1) /\
    u' !! g_TextureValueName = Some (Sampler2DValue (-1)).
Proof.
  apply (SetShaderTexture_unregistered "stone" two_textures {| mat4Values := ∅ |} ∅).
  - reflexivity.
  - exact two_textures_ok.
  - repeat (constructor; [discriminate|]). constructor.
Defined.

Lemma SetShaderTexture_samples_bound_unit_witness :
  exists gl' u',
    BindGLTextures 32 two_textures fresh_gl = Some gl' /\
    SetShaderTexture "floor" two_textures ∅ = Some u' /\
    u' !! g_TextureValueName = Some (Sampler2DValue 1) /\
    bound_texture gl' 1 = Texture.ID floor_entry.
Proof.
  destruct (BindGLTextures 32 two_textures fresh_gl) as [gl'|] eqn:Hrun;
    [|vm_compute in Hrun; discriminate].
  destruct (SetShaderTexture_samples_bound_unit 32 "floor" two_textures
              {| mat4Values := ∅ |} fresh_gl gl' ∅ 1%nat floor_entry)
    as (u' & Hset & Hsampler & Hbound).
  - reflexivity.
  - exact two_textures_ok.
  - unfold MAX_TEXTURES. lia.
  - exact Hrun.
  - reflexivity.
  - reflexivity.
  - intros j e' Hj He'. destruct j as [|j]; [|lia].
    injection He' as <-. discriminate.
  - exists gl', u'. split; [reflexivity|]. split; [exact Hset|].
    split; [exact Hsampler|exact Hbound].
Defined.

Lemma color_and_texture_last_call_wins_witness :
  (exists u',
     SetShaderTexture "floor" two_textures
       (SetShaderColor Float.one Float.zero Float.zero Float.one two_textures ∅)
     = Some u' /\
     u' !! g_UseTextureName = Some (IntValue 1) /\
     u' !! g_ColorValueName
     = Some (Vec4Value (Vec4 Float.one Float.zero Float.zero Float.one))) /\
  (exists u' u'',
     SetShaderTexture "floor" two_textures ∅ = Some u' /\
     SetShaderColor Float.one Float.zero Float.zero Float.one two_textures u' = u'' /\
     u'' !! g_UseTextureName = Some (IntValue 0) /\
     u'' !! g_TextureValueName = u' !! g_TextureValueName).
Proof.
  apply (color_and_texture_last_call_wins Float.one Float.zero Float.zero
           Float.one "floor" two_textures {| mat4Values := ∅ |} ∅).
  - reflexivity.
  - exact two_textures_ok.
Defined.

Lemma SetShaderMaterial_registered_witness :
  exists u',
    SetShaderMaterial "floor" blank_material (DefineObjectMaterials empty_scene) ∅
    = Some u' /\
    u' !! "material.diffuseColor"%string
    = Some (Vec3Value (diffuseColor floorMaterial)) /\
    u' !! "material.specularColor"%string
    = Some (Vec3Value (specularColor floorMaterial)) /\
    u' !! "material.shininess"%string
    = Some (FloatValue (shininess floorMaterial)) /\
    forall name,
      name ∉ ["material.diffuseColor"; "material.specularColor";
              "material.shininess"]%string ->
      u' !! name = (∅ : gmap string Uniform) !! name.
Proof.
  apply (SetShaderMaterial_registered "floor" blank_material
           (DefineObjectMaterials empty_scene) {| mat4Values := ∅ |} ∅
           1%nat floorMaterial).
  - reflexivity.
  - vm_compute. discriminate.
  - reflexivity.
  - reflexivity.
  - intros j e' Hj He'. destruct j as [|j]; [|lia].
    injection He' as <-. discriminate.
Defined.

Lemma SetShaderMaterial_unregistered_witness :
  exists u',
    SetShaderMaterial "brick" blank_material (DefineObjectMaterials empty_scene) ∅
    = Some u' /\
    u' !! "material.diffuseColor"%string
    = Some (Vec3Value (diffuseColor blank_material)) /\
    u' !! "material.specularColor"%string
    = Some (Vec3Value (specularColor blank_material)) /\
    u' !! "material.shininess"%string
    = Some (FloatValue (shininess blank_material)).
Proof.
  apply (SetShaderMaterial_unregistered "brick" blank_material
           (DefineObjectMaterials empty_scene) {| mat4Values := ∅ |} ∅).
  - reflexivity.
  - vm_compute. discriminate.
  - discriminate.
  - repeat (constructor; [discriminate|]). constructor.
Defined.

Lemma RenderScene_undefined_iff_witness :
  RenderScene cos_poly sin_poly blank_material
    {| scene := unshaded_scene; uniforms := ∅; drawn := [] |} = None <->
  m_pShaderManager unshaded_scene = None /\ m_objectMaterials unshaded_scene <> [].
Proof.
  apply (RenderScene_undefined_iff cos_poly sin_poly blank_material
           {| scene := unshaded_scene; uniforms := ∅; drawn := [] |}).
  - exact unshaded_scene_ok.
  - vm_compute. discriminate.
Defined.

Lemma RenderScene_draws_witness :
  exists frame',
    RenderScene cos_poly sin_poly blank_material first_frame = Some frame' /\
    mesh <$> drawn frame' = (mesh <$> drawn first_frame) ++ scene_meshes /\
    same_registries (scene frame') (scene first_frame).
Proof.
  destruct (run_with_shader cos_poly sin_poly blank_material scene_calls
              first_frame) as (frame' & Hrun & _).
  - vm_compute. eauto.
  - exact first_frame_ok.
  - vm_compute. discriminate.
  - rewrite <- RenderScene_calls in Hrun.
    exists frame'. split; [exact Hrun|].
    apply (RenderScene_draws cos_poly sin_poly blank_material first_frame frame').
    + exact first_frame_ok.
    + vm_compute. discriminate.
    + exact Hrun.
Defined.

Lemma RenderScene_book_uses_backdrop_texture_witness :
  exists frame' d,
    RenderScene cos_poly sin_poly blank_material first_frame = Some frame' /\
    drawn frame' !! (length (drawn first_frame) + 2)%nat = Some d /\
    mesh d = BoxMesh /\
    drawn_uniforms d !! g_UseTextureName = Some (IntValue 1) /\
    drawn_uniforms d !! g_TextureValueName
    = Some (Sampler2DValue (slot_in (registered (scene first_frame)) "wall")) /\
    drawn_uniforms d !! "UVscale"%string
    = Some (Vec2Value (Vec2 (Float.of_Z 4) (Float.of_Z 4))) /\
    drawn_uniforms d !! g_ColorValueName
    = Some (Vec4Value (Vec4 (hundredths 50) (hundredths 79) (hundredths 61)
                         Float.one)).
Proof.
  apply (RenderScene_book_uses_backdrop_texture cos_poly sin_poly blank_material
           first_frame).
  - vm_compute. eauto.
  - exact first_frame_ok.
  - vm_compute. discriminate.
Defined.

Lemma RenderScene_keeps_other_uniforms_witness :
  exists frame',
    RenderScene cos_poly sin_poly blank_material first_frame = Some frame' /\
    uniforms frame' !! "bUseLighting"%string
    = uniforms first_frame !! "bUseLighting"%string /\
    Forall (λ d, drawn_uniforms d !! "bUseLighting"%string
                 = uniforms first_frame !! "bUseLighting"%string)
      (drop (length (drawn first_frame)) (drawn frame')).
Proof.
  destruct (run_with_shader cos_poly sin_poly blank_material scene_calls
              first_frame) as (frame' & Hrun & _).
  - vm_compute. eauto.
  - exact first_frame_ok.
  - vm_compute. discriminate.
  - rewrite <- RenderScene_calls in Hrun.
    exists frame'. split; [exact Hrun|].
    apply (RenderScene_keeps_other_uniforms cos_poly sin_poly blank_material
             first_frame frame' "bUseLighting").
    + exact first_frame_ok.
    + vm_compute. discriminate.
    + exact Hrun.
    + unfold render_uniforms. rewrite !not_elem_of_cons.
      repeat (split; [discriminate|]). apply not_elem_of_nil.
Defined.

Lemma PrepareScene_undefined_iff_witness :
  PrepareScene sample_decoder next_name 32 unshaded_scene fresh_gl ∅ = None <->
  m_pShaderManager unshaded_scene = None.
Proof.
  apply (PrepareScene_undefined_iff sample_decoder next_name 32 unshaded_scene
           fresh_gl ∅).
  - exact unshaded_scene_ok.
  - simpl. unfold MAX_TEXTURES. lia.
  - unfold MAX_TEXTURES. lia.
Defined.

Lemma PrepareScene_then_RenderScene_witness :
  exists this' gl' u' frame',
    PrepareScene pixel_decoder next_name 32 empty_scene fresh_gl ∅
    = Some (this', gl', u', prepared_meshes) /\
    RenderScene cos_poly sin_poly blank_material
      {| scene := this'; uniforms := u'; drawn := [] |} = Some frame' /\
    Forall (λ d, lit_by (m_objectMaterials this') (drawn_uniforms d) /\
                 flat_or_sampled (registered this') (drawn_uniforms d))
      (drawn frame') /\
    forall (k : nat) e,
      registered this' !! k = Some e ->
      bound_texture gl' (Z.of_nat k) = Texture.ID e.
Proof.
  apply (PrepareScene_then_RenderScene pixel_decoder next_name 32 cos_poly
           sin_poly blank_material empty_scene fresh_gl ∅).
  - vm_compute. eauto.
  - exact empty_scene_ok.
  - simpl. unfold MAX_TEXTURES. lia.
  - unfold MAX_TEXTURES. lia.
  - vm_compute. discriminate.
  - repeat (constructor; [reflexivity|]). constructor.
Defined.
